(** * slick-autobuild: a shallow embedding of the build orchestrator

    The Go packages [config], [planner], [cache], [docker], [runner],
    [artifact] and [main] are embedded as Rocq modules of the same names.
    Go strings and byte slices are [string] (a list of 8-bit characters),
    compared bytewise as Go's [<] does. *)

From Stdlib Require Import String Ascii List ZArith NArith Lia Bool DecimalString.
From stdpp Require Import base option list sorting gmap strings.
Import ListNotations.
Local Open Scope string_scope.
Local Open Scope list_scope.

(** * Byte strings *)

Module Str.

(** Go's [a < b] on strings: bytewise lexicographic order. *)
Definition lt (a b : string) : Prop := String.ltb a b = true.
Definition le (a b : string) : Prop := String.ltb b a = false.

Definition eqb (a b : string) : bool := bool_decide (a = b).

Global Instance le_dec a b : Decision (le a b).
Proof. unfold le. apply _. Defined.

(** [sort.Strings]: the outcome is the one sorted arrangement. *)
Definition sort_Strings (l : list string) : list string := merge_sort le l.

(** [strings.HasPrefix], [strings.HasSuffix], [strings.Contains]. *)
Definition HasPrefix (s p : string) : bool := String.prefix p s.

Fixpoint Contains (s sub : string) : bool :=
  if String.prefix sub s then true
  else match s with
       | EmptyString => false
       | String _ s' => Contains s' sub
       end.

Definition HasSuffix (s p : string) : bool :=
  let n := String.length s in
  let k := String.length p in
  (k <=? n)%nat && eqb (String.substring (n - k) k s) p.

(** [strings.Split(s, sep)] for a one-byte separator. *)
Fixpoint split_on (sep : ascii) (s : string) : list string :=
  match s with
  | EmptyString => [EmptyString]
  | String c s' =>
      if Ascii.eqb c sep then EmptyString :: split_on sep s'
      else match split_on sep s' with
           | [] => [String c EmptyString]
           | w :: ws => String c w :: ws
           end
  end.

(** [strings.Join]. *)
Definition Join (l : list string) (sep : string) : string := String.concat sep l.

Definition all_chars (ok : ascii → bool) (s : string) : bool :=
  forallb ok (list_ascii_of_string s).

Definition in_range (lo hi c : ascii) : bool :=
  (N.leb (N_of_ascii lo) (N_of_ascii c)) && (N.leb (N_of_ascii c) (N_of_ascii hi)).

Definition is_alnum (c : ascii) : bool :=
  in_range "a" "z" c || in_range "A" "Z" c || in_range "0" "9" c.

Definition is_lower_hex (c : ascii) : bool :=
  in_range "0" "9" c || in_range "a" "f" c.

Definition is_space (c : ascii) : bool :=
  let n := N_of_ascii c in
  (N.eqb n 32 || (N.leb 9 n && N.leb n 13))%N.

Fixpoint trim_left (s : string) : string :=
  match s with
  | String c s' => if is_space c then trim_left s' else s
  | EmptyString => s
  end.

Definition rev_string (s : string) : string :=
  string_of_list_ascii (rev (list_ascii_of_string s)).

(** [strings.TrimSpace], for the white space of ASCII. *)
Definition TrimSpace (s : string) : string :=
  rev_string (trim_left (rev_string (trim_left s))).

Definition map_chars (f : ascii → ascii) (s : string) : string :=
  string_of_list_ascii (map f (list_ascii_of_string s)).

(** [strings.ToUpper], for the letters of ASCII. *)
Definition ToUpper (s : string) : string :=
  map_chars (λ c, if in_range "a" "z" c
                  then ascii_of_N (N_of_ascii c - 32) else c) s.

(** [strings.ReplaceAll(s, old, new)] for one-byte [old] and [new]. *)
Definition replace_char (old new : ascii) (s : string) : string :=
  map_chars (λ c, if Ascii.eqb c old then new else c) s.

(** Decimal rendering of an integer ([%d]). *)
Definition of_Z (z : Z) : string :=
  DecimalString.NilZero.string_of_int (Z.to_int z).

(** Whether the byte [c] occurs in [s]. *)
Definition has_char (c : ascii) (s : string) : bool :=
  existsb (Ascii.eqb c) (list_ascii_of_string s).

End Str.

(** * Results and state

    A Go function that touches the file system and returns an [error] is a
    function from the state before to a result and the state after; what was
    written before an error stays written. *)

Definition error := string.

Inductive result (A : Type) := Ok (a : A) | Err (e : error).
Arguments Ok {A} a.
Arguments Err {A} e.

Global Instance result_eq_dec {A} `{EqDecision A} : EqDecision (result A).
Proof. solve_decision. Defined.

Definition M (S A : Type) : Type := S → result A * S.

Definition ret {S A} (a : A) : M S A := λ s, (Ok a, s).
Definition fail {S A} (e : error) : M S A := λ s, (Err e, s).
Definition bind {S A B} (m : M S A) (k : A → M S B) : M S B :=
  λ s, match m s with
       | (Ok a, s') => k a s'
       | (Err e, s') => (Err e, s')
       end.
(** [fmt.Errorf("prefix: %w", err)] on the error path. *)
Definition wrap {S A} (prefix : string) (m : M S A) : M S A :=
  λ s, match m s with
       | (Ok a, s') => (Ok a, s')
       | (Err e, s') => (Err (prefix +:+ e), s')
       end.
(** Run [m] and hand its outcome, error or not, to the caller. *)
Definition try {S A} (m : M S A) : M S (result A) :=
  λ s, let '(r, s') := m s in (Ok r, s').
Definition get {S} : M S S := λ s, (Ok s, s).
Definition put {S} (s : S) : M S unit := λ _, (Ok tt, s).

Global Instance M_ret {S} : MRet (M S) := λ A, ret.
Global Instance M_bind {S} : MBind (M S) := λ A B k m, bind m k.

(** The loop [for _, x := range l { if err := f(x); err != nil { return err } }]. *)
Fixpoint for_each {S A} (f : A → M S unit) (l : list A) : M S unit :=
  match l with
  | [] => ret tt
  | x :: l' => f x;; for_each f l'
  end.

(** * Package path/filepath, on Unix *)

Module filepath.

(** A path as [Clean] leaves it.  [Empty] is the empty string, which
    [Join] returns when it is given nothing; [Rel cs] is relative, and only
    there may [cs] start with [".."] components; [Abs cs] is rooted. *)
Inductive t := Empty | Rel (comps : list string) | Abs (comps : list string).

Global Instance t_eq_dec : EqDecision t.
Proof. solve_decision. Defined.

Definition drop_last {A} (l : list A) : list A := removelast l.

(** One step of [Clean]: the components seen so far, and the next one. *)
Definition clean_step (rooted : bool) (acc : list string) (c : string) : list string :=
  if Str.eqb c "" || Str.eqb c "." then acc
  else if Str.eqb c ".." then
    match last acc with
    | None => if rooted then acc else [".."]
    | Some top => if Str.eqb top ".." then acc ++ [".."] else drop_last acc
    end
  else acc ++ [c].

(** [Clean(s)]; [Clean("")] is ["."], that is [Rel []]. *)
Definition Clean (s : string) : t :=
  let rooted := Str.HasPrefix s "/" in
  let comps := foldl (clean_step rooted) [] (Str.split_on "/" s) in
  if rooted then Abs comps else Rel comps.

(** The string a path stands for. *)
Definition to_string (p : t) : string :=
  match p with
  | Empty => ""
  | Rel [] => "."
  | Rel cs => Str.Join cs "/"
  | Abs cs => "/" +:+ Str.Join cs "/"
  end.

(** [Join(elem...)]: empty elements are ignored, the rest joined by a
    slash and cleaned; nothing to join gives the empty string. *)
Definition Join (elems : list string) : t :=
  match filter (λ e, e ≠ "") elems with
  | [] => Empty
  | es => Clean (Str.Join es "/")
  end.

(** [Join(p, name)] for a path [p] that is clean already and a plain file
    name (no slash, not empty, neither ["."] nor [".."]): the name becomes
    the last component. *)
Definition child (p : t) (name : string) : t :=
  match p with
  | Empty => Rel [name]
  | Rel cs => Rel (cs ++ [name])
  | Abs cs => Abs (cs ++ [name])
  end.

(** [Join(p, rel)] for a clean [p] and a run of plain names. *)
Definition descend (p : t) (rel : list string) : t := foldl child p rel.

(** [Rel(base, p)] for clean paths, [p] at or below [base]: the names that
    lead from [base] to [p]; an error (here [None]) otherwise. *)
Definition comps_of (p : t) : list string :=
  match p with Empty => [] | Rel cs => cs | Abs cs => cs end.

Definition is_abs (p : t) : bool :=
  match p with Abs _ => true | _ => false end.

Definition Rel_to (base p : t) : option (list string) :=
  if bool_decide (is_abs base = is_abs p) &&
     bool_decide (take (length (comps_of base)) (comps_of p) = comps_of base)
  then Some (drop (length (comps_of base)) (comps_of p))
  else None.

(** [Dir(p)]: all but the last element. *)
Definition Dir (p : t) : t :=
  match p with
  | Empty => Rel []
  | Rel cs => Rel (drop_last cs)
  | Abs cs => Abs (drop_last cs)
  end.

(** Where a path leads from the working directory [cwd] (its components
    from the root); the empty string leads nowhere. *)
Definition resolve_step (acc : list string) (c : string) : list string :=
  if Str.eqb c ".." then drop_last acc else acc ++ [c].

Definition resolve (cwd : list string) (p : t) : option (list string) :=
  match p with
  | Empty => None
  | Rel cs => Some (foldl resolve_step cwd cs)
  | Abs cs => Some cs
  end.

(** A plain name: not empty, neither ["."] nor [".."], and without a
    slash. *)
Definition plain (c : string) : Prop :=
  c ≠ "" ∧ c ≠ "." ∧ c ≠ ".." ∧ Str.has_char "/" c = false.

Global Instance plain_dec c : Decision (plain c).
Proof. unfold plain. apply _. Defined.

(** The components [Clean] leaves: plain names, after a run of [".."]
    that only a relative path may start with. *)
Definition clean_comps (rooted : bool) (cs : list string) : Prop :=
  ∃ n rest, cs = replicate n ".." ++ rest ∧ Forall plain rest ∧ (rooted = true → n = 0%nat).

Definition is_clean (p : t) : Prop :=
  match p with
  | Empty => False
  | Rel cs => clean_comps false cs
  | Abs cs => clean_comps true cs
  end.

End filepath.

(** * Package os: the file system

    The file system is a finite map from absolute paths, as lists of
    components from the root, to what is there: a regular file and its
    bytes, or a directory.  Permission bits, owners, symbolic links and
    devices are not modelled: every call that the source makes with a mode
    behaves as if permissions never stand in the way. *)

Module os.

Inductive entry := File (data : string) | Directory.

Global Instance entry_eq_dec : EqDecision entry.
Proof. solve_decision. Defined.

Abbreviation FS := (gmap (list string) entry).

Definition is_file (e : option entry) : bool :=
  match e with Some (File _) => true | _ => false end.

Definition is_dir (e : option entry) : bool :=
  match e with Some Directory => true | _ => false end.

(** What every state of a real file system satisfies: the root is a
    directory, whatever exists lies in a directory, and nothing is named
    [".."]. *)
Definition wf (fs : FS) : Prop :=
  fs !! [] = Some Directory ∧
  map_Forall (λ k _, fs !! filepath.drop_last k = Some Directory ∧ ".." ∉ k) fs.

Global Instance wf_dec fs : Decision (wf fs).
Proof. unfold wf. apply _. Defined.

(** What a path names, from the working directory [cwd]. *)
Definition at_path (cwd : list string) (fs : FS) (p : filepath.t) : option entry :=
  k ← filepath.resolve cwd p; fs !! k.

(** [os.Stat] and [os.Lstat]. *)
Definition Stat (cwd : list string) (p : filepath.t) : M FS entry := λ fs,
  match at_path cwd fs p with
  | Some e => (Ok e, fs)
  | None => (Err ("stat " +:+ filepath.to_string p +:+ ": no such file or directory"), fs)
  end.

(** [os.ReadFile]. *)
Definition ReadFile (cwd : list string) (p : filepath.t) : M FS string := λ fs,
  match at_path cwd fs p with
  | Some (File data) => (Ok data, fs)
  | Some Directory => (Err ("read " +:+ filepath.to_string p +:+ ": is a directory"), fs)
  | None => (Err ("open " +:+ filepath.to_string p +:+ ": no such file or directory"), fs)
  end.

(** The path itself and everything above it, from the root down. *)
Definition prefixes (k : list string) : list (list string) :=
  map (λ n, take n k) (seq 0 (S (length k))).

Definition mkdirs (fs : FS) (l : list (list string)) : FS :=
  foldr (λ q m, <[q := Directory]> m) fs l.

(** [os.MkdirAll]: fails, creating nothing, when a regular file is in the
    way; otherwise every missing directory down to the path is made. *)
Definition MkdirAll (cwd : list string) (p : filepath.t) : M FS unit := λ fs,
  match filepath.resolve cwd p with
  | None => (Err "mkdir : no such file or directory", fs)
  | Some k =>
      if existsb (λ q, is_file (fs !! q)) (prefixes k)
      then (Err ("mkdir " +:+ filepath.to_string p +:+ ": not a directory"), fs)
      else (Ok tt, mkdirs fs (prefixes k))
  end.

(** [os.Open] for reading: the path must exist (a directory opens too). *)
Definition Open (cwd : list string) (p : filepath.t) : M FS unit := λ fs,
  match at_path cwd fs p with
  | Some _ => (Ok tt, fs)
  | None => (Err ("open " +:+ filepath.to_string p +:+ ": no such file or directory"), fs)
  end.

(** [os.Create]: an empty regular file, new or truncated. *)
Definition Create (cwd : list string) (p : filepath.t) : M FS unit := λ fs,
  match filepath.resolve cwd p with
  | None => (Err "open : no such file or directory", fs)
  | Some k =>
      match fs !! k with
      | Some Directory => (Err ("open " +:+ filepath.to_string p +:+ ": is a directory"), fs)
      | _ =>
          match fs !! filepath.drop_last k with
          | Some Directory => (Ok tt, <[k := File ""]> fs)
          | Some (File _) => (Err ("open " +:+ filepath.to_string p +:+ ": not a directory"), fs)
          | None => (Err ("open " +:+ filepath.to_string p +:+ ": no such file or directory"), fs)
          end
      end
  end.

(** [io.Copy(dst, src)] between two open files, [dst] just created: [src]
    is read as it is now, after [dst] was truncated. *)
Definition Copy (cwd : list string) (dst src : filepath.t) : M FS unit := λ fs,
  match at_path cwd fs src, filepath.resolve cwd dst with
  | Some (File data), Some k => (Ok tt, <[k := File data]> fs)
  | Some Directory, _ => (Err ("read " +:+ filepath.to_string src +:+ ": is a directory"), fs)
  | _, _ => (Err ("read " +:+ filepath.to_string src +:+ ": no such file or directory"), fs)
  end.

(** [os.WriteFile]. *)
Definition WriteFile (cwd : list string) (p : filepath.t) (data : string) : M FS unit :=
  λ fs,
  match Create cwd p fs with
  | (Ok _, _) =>
      match filepath.resolve cwd p with
      | Some k => (Ok tt, <[k := File data]> fs)
      | None => (Err "open : no such file or directory", fs)
      end
  | (Err e, fs') => (Err e, fs')
  end.

(** [os.IsNotExist] of the error of a failed [Stat]: a regular file in the
    way gives "not a directory", which is another error. *)
Definition missing (cwd : list string) (fs : FS) (p : filepath.t) : bool :=
  match filepath.resolve cwd p with
  | None => true
  | Some k => bool_decide (fs !! k = None) &&
              negb (existsb (λ q, is_file (fs !! q)) (prefixes k))
  end.

(** [os.RemoveAll]. *)
Definition RemoveAll (cwd : list string) (p : filepath.t) : M FS unit := λ fs,
  match filepath.resolve cwd p with
  | None => (Ok tt, fs)
  | Some k => (Ok tt, filter (λ qe, take (length k) qe.1 ≠ k) fs)
  end.

Definition strip_prefix (k q : list string) : option (list string) :=
  if decide (take (length k) q = k) then Some (drop (length k) q) else None.

(** Names of what a directory holds, sorted as [os.ReadDir] sorts them. *)
Definition ReadDirNames (fs : FS) (k : list string) : list string :=
  Str.sort_Strings
    (omap (λ qe, match strip_prefix k qe.1 with
                 | Some [n] => Some n
                 | _ => None
                 end) (map_to_list fs)).

(** The order in which [filepath.Walk] meets paths below its root: a
    directory before what it holds, names in sorted order. *)
Fixpoint comps_leb (a b : list string) : bool :=
  match a, b with
  | [], _ => true
  | _ :: _, [] => false
  | x :: a', y :: b' =>
      if String.ltb x y then true
      else if String.ltb y x then false
      else comps_leb a' b'
  end.

Definition walk_le (a b : list string * entry) : Prop := comps_leb a.1 b.1 = true.

Global Instance walk_le_dec a b : Decision (walk_le a b).
Proof. unfold walk_le. apply _. Defined.

(** Everything at and below [k], by path relative to [k], in walk order. *)
Definition descendants (fs : FS) (k : list string) : list (list string * entry) :=
  merge_sort walk_le
    (omap (λ qe, r ← strip_prefix k qe.1; Some (r, qe.2)) (map_to_list fs)).

(** [filepath.Walk(root, fn)].  [fn] gets the path, what [Lstat] found
    there and no error; when the root itself is missing it gets the root,
    nothing, and the error, once.  The tree is taken as it stands when the
    walk starts: [fn] in this program writes outside the tree it walks.
    [fn] never asks to skip a directory here. *)
Definition Walk (cwd : list string) (root : filepath.t)
    (fn : filepath.t → option entry → option error → M FS unit) : M FS unit := λ fs,
  match filepath.resolve cwd root with
  | Some k =>
      match fs !! k with
      | Some _ =>
          for_each (λ re, fn (filepath.descend root re.1) (Some re.2) None)
                   (descendants fs k) fs
      | None =>
          fn root None
             (Some ("lstat " +:+ filepath.to_string root +:+ ": no such file or directory")) fs
      end
  | None => fn root None (Some "lstat : no such file or directory") fs
  end.

(** [filepath.Glob(Join(dir, "*" ++ suffix))]: the entries of [dir] whose
    names end in [suffix], in sorted order; nothing when [dir] is not a
    directory.  [dir] is taken literally: a directory whose own path holds
    one of the metacharacters [* ? [ \] is outside this model. *)
Definition Glob_suffix (cwd : list string) (dir : filepath.t) (suffix : string)
    (fs : FS) : list filepath.t :=
  let d := match dir with filepath.Empty => filepath.Rel [] | _ => dir end in
  match filepath.resolve cwd d with
  | Some k =>
      match fs !! k with
      | Some Directory =>
          map (filepath.child dir)
              (filter (λ n, Str.HasSuffix n suffix = true) (ReadDirNames fs k))
      | _ => []
      end
  | None => []
  end.

(** [filepath.Glob] of a pattern without metacharacters: the path itself
    when it exists. *)
Definition Glob_literal (cwd : list string) (p : filepath.t) (fs : FS) : list filepath.t :=
  match at_path cwd fs p with
  | Some _ => [p]
  | None => []
  end.

(** Neither path is at or below the other. *)
Definition apart (k1 k2 : list string) : Prop :=
  ¬ k1 `prefix_of` k2 ∧ ¬ k2 `prefix_of` k1.

Global Instance apart_dec k1 k2 : Decision (apart k1 k2).
Proof. unfold apart. apply _. Defined.

(** No regular file stands at [k] or on the way down to it. *)
Definition clear_way (fs : FS) (k : list string) : Prop :=
  Forall (λ q, is_file (fs !! q) = false) (prefixes k).

Global Instance clear_way_dec fs k : Decision (clear_way fs k).
Proof. unfold clear_way. apply _. Defined.

(** Whatever exists at or below [k] exists, the same, at the same place
    below [k'] (nothing at all below [k] is one case). *)
Definition holds_only (fs : FS) (k k' : list string) : Prop :=
  Forall (λ re, fs !! (k' ++ re.1) = Some re.2) (descendants fs k).

Global Instance holds_only_dec fs k k' : Decision (holds_only fs k k').
Proof. unfold holds_only. apply _. Defined.

End os.

(** * Package crypto/sha256 (FIPS 180-4) and the [%x] verb *)

Module sha256.
Local Open Scope N_scope.

Definition mask : N := 0xffffffff.
Definition add (a b : N) : N := N.land (a + b) mask.
Definition rotr (n x : N) : N :=
  N.lor (N.shiftr x n) (N.land (N.shiftl x (32 - n)) mask).
Definition shr (n x : N) : N := N.shiftr x n.
Definition lnot32 (x : N) : N := N.lxor x mask.

Definition Ch (x y z : N) : N := N.lxor (N.land x y) (N.land (lnot32 x) z).
Definition Maj (x y z : N) : N :=
  N.lxor (N.lxor (N.land x y) (N.land x z)) (N.land y z).
Definition Sigma0 (x : N) : N := N.lxor (N.lxor (rotr 2 x) (rotr 13 x)) (rotr 22 x).
Definition Sigma1 (x : N) : N := N.lxor (N.lxor (rotr 6 x) (rotr 11 x)) (rotr 25 x).
Definition sigma0 (x : N) : N := N.lxor (N.lxor (rotr 7 x) (rotr 18 x)) (shr 3 x).
Definition sigma1 (x : N) : N := N.lxor (N.lxor (rotr 17 x) (rotr 19 x)) (shr 10 x).

Definition hex_value (c : ascii) : N :=
  let n := N_of_ascii c in
  if n <? 58 then n - 48 else n - 87.

Definition of_hex (s : string) : N :=
  foldl (λ acc c, 16 * acc + hex_value c) 0 (list_ascii_of_string s).

(** The round constants, sixty-four words in hexadecimal. *)
Definition K : list N :=
  map of_hex (Str.split_on " "
    ("428a2f98 71374491 b5c0fbcf e9b5dba5 3956c25b 59f111f1 923f82a4 ab1c5ed5 " +:+
     "d807aa98 12835b01 243185be 550c7dc3 72be5d74 80deb1fe 9bdc06a7 c19bf174 " +:+
     "e49b69c1 efbe4786 0fc19dc6 240ca1cc 2de92c6f 4a7484aa 5cb0a9dc 76f988da " +:+
     "983e5152 a831c66d b00327c8 bf597fc7 c6e00bf3 d5a79147 06ca6351 14292967 " +:+
     "27b70a85 2e1b2138 4d2c6dfc 53380d13 650a7354 766a0abb 81c2c92e 92722c85 " +:+
     "a2bfe8a1 a81a664b c24b8b70 c76c51a3 d192e819 d6990624 f40e3585 106aa070 " +:+
     "19a4c116 1e376c08 2748774c 34b0bcb5 391c0cb3 4ed8aa4a 5b9cca4f 682e6ff3 " +:+
     "748f82ee 78a5636f 84c87814 8cc70208 90befffa a4506ceb bef9a3f7 c67178f2")).

(** The eight working words. *)
Record state := { ha : N; hb : N; hc : N; hd : N; he : N; hf : N; hg : N; hh : N }.

Definition init : state :=
  {| ha := 0x6a09e667; hb := 0xbb67ae85; hc := 0x3c6ef372; hd := 0xa54ff53a;
     he := 0x510e527f; hf := 0x9b05688c; hg := 0x1f83d9ab; hh := 0x5be0cd19 |}.

Definition word_at (w : list N) (i : nat) : N := nth i w 0.

(** The message schedule: [n] more words after the ones in [w]. *)
Fixpoint extend (n : nat) (w : list N) : list N :=
  match n with
  | O => w
  | S n' =>
      let t := length w in
      let x := add (add (sigma1 (word_at w (t - 2))) (word_at w (t - 7)))
                   (add (sigma0 (word_at w (t - 15))) (word_at w (t - 16))) in
      extend n' (w ++ [x])
  end.

Definition round (s : state) (kw : N * N) : state :=
  let t1 := add (add (add (hh s) (Sigma1 (he s))) (Ch (he s) (hf s) (hg s)))
                (add kw.1 kw.2) in
  let t2 := add (Sigma0 (ha s)) (Maj (ha s) (hb s) (hc s)) in
  {| ha := add t1 t2; hb := ha s; hc := hb s; hd := hc s;
     he := add (hd s) t1; hf := he s; hg := hf s; hh := hg s |}.

(** One 512-bit block, as sixteen words. *)
Definition compress (s : state) (block : list N) : state :=
  let r := foldl round s (zip K (extend 48 block)) in
  {| ha := add (ha s) (ha r); hb := add (hb s) (hb r);
     hc := add (hc s) (hc r); hd := add (hd s) (hd r);
     he := add (he s) (he r); hf := add (hf s) (hf r);
     hg := add (hg s) (hg r); hh := add (hh s) (hh r) |}.

Definition be_bytes (n : nat) (x : N) : list N :=
  map (λ i, N.land (N.shiftr x (8 * N.of_nat i)) 0xff) (rev (seq 0 n)).

Definition pad (msg : list N) : list N :=
  let len := length msg in
  let zeros := ((119 - len mod 64) mod 64)%nat in
  msg ++ [0x80] ++ replicate zeros 0 ++ be_bytes 8 (8 * N.of_nat len).

Fixpoint words (fuel : nat) (bytes : list N) : list N :=
  match fuel, bytes with
  | S f, b0 :: b1 :: b2 :: b3 :: rest =>
      (N.shiftl b0 24 + N.shiftl b1 16 + N.shiftl b2 8 + b3) :: words f rest
  | _, _ => []
  end.

Fixpoint blocks (fuel : nat) (ws : list N) : list (list N) :=
  match fuel, ws with
  | S f, _ :: _ => take 16 ws :: blocks f (drop 16 ws)
  | _, _ => []
  end.

Definition digest_bytes (s : state) : list N :=
  be_bytes 4 (ha s) ++ be_bytes 4 (hb s) ++ be_bytes 4 (hc s) ++ be_bytes 4 (hd s) ++
  be_bytes 4 (he s) ++ be_bytes 4 (hf s) ++ be_bytes 4 (hg s) ++ be_bytes 4 (hh s).

Definition bytes_of (s : string) : list N := map N_of_ascii (list_ascii_of_string s).

(** [h := sha256.New(); h.Write(m); h.Sum(nil)]: the 32 bytes of the digest. *)
Definition Sum (m : string) : list N :=
  let p := pad (bytes_of m) in
  let ws := words (length p) p in
  digest_bytes (foldl compress init (blocks (length ws) ws)).

Definition hex_digit (n : N) : ascii :=
  if n <? 10 then ascii_of_N (48 + n) else ascii_of_N (87 + n).

(** [fmt.Sprintf("%x", bytes)]. *)
Definition hex (bytes : list N) : string :=
  string_of_list_ascii
    (flat_map (λ b, [hex_digit (N.shiftr b 4); hex_digit (N.land b 0xf)]) bytes).

End sha256.

(** * Package config *)

Module config.

Record VersionSet := { Versions : list string }.

Record RuntimeConfig := { Dotnet : VersionSet; Node : VersionSet }.

Record DockerConfig := {
  Enabled : bool;
  Repository : string;
  Tags : list string;
  Push : bool;
  Registries : list string;
  Dockerfile : string
}.

(** [Docker] is a pointer in the source: [None] is the nil pointer. *)
Record MatrixEntry := {
  Path : string;
  Type_ : string;
  Frameworks : list string;
  NodeVersions : list string;
  PackageManager : string;
  BuildScripts : list string;
  Docker : option DockerConfig
}.

Record DefaultSection := { Concurrency : Z; ArtifactDir : string }.

Record Root := {
  Runtime : RuntimeConfig;
  Matrix : list MatrixEntry;
  Defaults : DefaultSection
}.

(** [validatePath] of this package: two dots in a row or a rooted path are
    refused. *)
Definition validatePath (path : string) : option error :=
  let cleanPath := filepath.to_string (filepath.Clean path) in
  if Str.Contains cleanPath ".." || Str.HasPrefix cleanPath "/"
  then Some ("invalid path: path traversal detected in " +:+ path)
  else None.

(** [Load].  [unmarshal] is [yaml.Unmarshal] into a [Root], a library
    outside the program. *)
Definition Load (cwd : list string) (unmarshal : string → result Root) (path : string)
    : M os.FS Root :=
  match validatePath path with
  | Some e => fail ("invalid config path: " +:+ e)
  | None =>
      data ← os.ReadFile cwd (if Str.eqb path "" then filepath.Empty else filepath.Clean path);
      match unmarshal data with
      | Ok r => ret r
      | Err e => fail ("parse yaml: " +:+ e)
      end
  end.

End config.

(** * Package planner *)

Module planner.

Record Task := { Path : string; Kind : string; Version : string }.

Record Plan := { Tasks : list Task }.

Global Instance Task_eq_dec : EqDecision Task.
Proof. solve_decision. Defined.

(** The comparator handed to [sort.Slice] in [Expand]. *)
Definition less (a b : Task) : bool :=
  if Str.eqb (Path a) (Path b) then
    if Str.eqb (Kind a) (Kind b) then String.ltb (Version a) (Version b)
    else String.ltb (Kind a) (Kind b)
  else String.ltb (Path a) (Path b).

(** [sort.Slice(s, less)] leaves [s] a permutation of itself in which no
    element is [less] than an earlier one.  The library makes no promise on
    the order of elements that compare equal; the model sorts with a merge
    sort, and [sorted_by_less_unique] below shows that for [less] above the
    outcome does not depend on that choice. *)
Definition not_after (a b : Task) : Prop := less b a = false.

Global Instance not_after_dec a b : Decision (not_after a b).
Proof. unfold not_after. apply _. Defined.

Definition sort_Slice (tasks : list Task) : list Task :=
  merge_sort not_after tasks.

(** The inner loop [for _, v := range versions]. *)
Definition emit (path kind : string) (versions : list string) : list Task :=
  flat_map (λ v, if Str.eqb v "" then []
                 else [{| Path := path; Kind := kind; Version := v |}])
           versions.

Definition is_empty {A} (l : list A) : bool :=
  match l with [] => true | _ => false end.

(** The body of [for _, m := range cfg.Matrix]: the tasks one entry adds. *)
Definition expand_entry (cfg : config.Root) (selected : gset string)
    (m : config.MatrixEntry) : list Task :=
  if bool_decide (0 < size selected) && negb (bool_decide (config.Path m ∈ selected))
  then []
  else if Str.eqb (config.Type_ m) "dotnet" then
    let versions :=
      if is_empty (config.Frameworks m)
      then config.Versions (config.Dotnet (config.Runtime cfg))
      else config.Frameworks m in
    emit (config.Path m) "dotnet" versions
  else if Str.eqb (config.Type_ m) "node" then
    let versions :=
      if is_empty (config.NodeVersions m)
      then config.Versions (config.Node (config.Runtime cfg))
      else config.NodeVersions m in
    emit (config.Path m) "node" versions
  else [].

(** The task sequence before [sort.Slice]. *)
Definition unsorted (cfg : config.Root) (selected : gset string) : list Task :=
  flat_map (expand_entry cfg selected) (config.Matrix cfg).

Definition Expand (cfg : config.Root) (selected : gset string) : Plan :=
  {| Tasks := sort_Slice (unsorted cfg selected) |}.

(** The order of the specification: path ascending, then kind ascending,
    then version ascending. *)
Definition task_le (a b : Task) : Prop :=
  Str.lt (Path a) (Path b) ∨
  (Path a = Path b ∧
   (Str.lt (Kind a) (Kind b) ∨
    (Kind a = Kind b ∧ (Str.lt (Version a) (Version b) ∨ Version a = Version b)))).

End planner.

(** * The world outside the program

    External processes, the environment, the clock and the YAML and time
    formatting libraries are not part of the program: they are the fields
    of [Env].  A process that the program starts may answer differently
    each time and may change the file system, so [run] sees the history of
    events and the file system, and gives the exit status, the standard
    output and the file system it leaves. *)

Module sys.
Import os.

Record Cmd := {
  prog : string;
  args : list string;
  dir : option filepath.t;
  stdin : string
}.

Global Instance Cmd_eq_dec : EqDecision Cmd.
Proof. solve_decision. Defined.

Inductive Event :=
| Exec (c : Cmd)
| Log (level msg : string)
| Print (text : string).

Global Instance Event_eq_dec : EqDecision Event.
Proof. solve_decision. Defined.

Record ExecResult := { succeeded : bool; stdout : string; fs_after : FS }.

Record Env := {
  cwd : list string;
  getenv : string → string;
  run : list Event → Cmd → FS → ExecResult;
  clock : list Event → Z;
  format_time : Z → string;
  yaml_unmarshal : string → result config.Root
}.

Record World := { fs : FS; trace : list Event }.

Global Instance World_eq_dec : EqDecision World.
Proof. solve_decision. Defined.

Definition emit (e : Event) : M World unit := λ w,
  (Ok tt, {| fs := fs w; trace := trace w ++ [e] |}).

(** A call of the logger; the key-value context of a line is left out. *)
Definition log (level msg : string) : M World unit := emit (Log level msg).

(** A function on the file system, run in the world. *)
Definition on_fs {A} (m : M FS A) : M World A := λ w,
  let '(r, fs') := m (fs w) in (r, {| fs := fs'; trace := trace w |}).

(** A pure look at the file system. *)
Definition look {A} (f : FS → A) : M World A := λ w, (Ok (f (fs w)), w).

(** [cmd.Output()]: start the process, wait, give its standard output; a
    non-zero exit status is the error. *)
Definition exec_output (env : Env) (c : Cmd) : M World string := λ w,
  let r := run env (trace w) c (fs w) in
  let w' := {| fs := fs_after r; trace := trace w ++ [Exec c] |} in
  if succeeded r then (Ok (stdout r), w') else (Err "exit status 1", w').

(** [cmd.Run()]. *)
Definition exec (env : Env) (c : Cmd) : M World unit :=
  exec_output env c;; ret tt.

(** [time.Now()], in nanoseconds. *)
Definition now (env : Env) : M World Z := λ w, (Ok (clock env (trace w)), w).

(** [os.Getwd()]. *)
Definition Getwd (env : Env) : string := filepath.to_string (filepath.Abs (cwd env)).

(** The external commands started so far. *)
Definition commands (w : World) : list Cmd :=
  omap (λ e, match e with Exec c => Some c | _ => None end) (trace w).

(** [m] keeps the trace it finds and adds to it only events that satisfy
    [P], whatever the state it starts in and whether it fails or not. *)
Definition appends {A} (P : Event → Prop) (m : M World A) : Prop :=
  ∀ w, ∃ evs, trace (m w).2 = trace w ++ evs ∧ Forall P evs.

Definition is_Exec (e : Event) : Prop :=
  match e with Exec _ => True | _ => False end.

(** An event that starts no process. *)
Definition silent (e : Event) : Prop := ¬ is_Exec e.

(** An event that starts no process, or starts the program [name] with a
    first argument among [subs]. *)
Definition runs_only (name : string) (subs : list string) (e : Event) : Prop :=
  match e with
  | Exec c => prog c = name ∧ hd "" (args c) ∈ subs
  | _ => True
  end.

End sys.

(** * Package cache *)

Module cache.
Import os.

Section with_cwd.
(** The working directory of the process. *)
Variable cwd : list string.

(** [validatePath]: [nil] ([None]) unless the cleaned path holds two dots
    in a row. *)
Definition validatePath (path : filepath.t) : option error :=
  if Str.Contains (filepath.to_string path) ".."
  then Some ("invalid path: path traversal detected in " +:+ filepath.to_string path)
  else None.

(** A name that [validatePath] lets pass: no two dots in a row. *)
Definition nodots (n : string) : Prop := Str.Contains n ".." = false.

Global Instance nodots_dec n : Decision (nodots n).
Proof. unfold nodots. apply _. Defined.

Definition path_le (a b : filepath.t) : Prop :=
  Str.le (filepath.to_string a) (filepath.to_string b).

Global Instance path_le_dec a b : Decision (path_le a b).
Proof. unfold path_le. apply _. Defined.

(** [sort.Strings] on path strings. *)
Definition sort_paths (l : list filepath.t) : list filepath.t := merge_sort path_le l.

Definition findLockFiles (projectDir : filepath.t) (kind : string) (fs : FS)
    : list filepath.t :=
  if Str.eqb kind "dotnet" then
    Glob_suffix cwd projectDir ".csproj" fs ++
    Glob_suffix cwd projectDir ".fsproj" fs ++
    Glob_suffix cwd projectDir ".vbproj" fs ++
    Glob_literal cwd (filepath.child projectDir "packages.lock.json") fs
  else if Str.eqb kind "node" then
    filter (λ file, is_Some (at_path cwd fs file))
      [filepath.child projectDir "package.json";
       filepath.child projectDir "package-lock.json";
       filepath.child projectDir "yarn.lock";
       filepath.child projectDir "pnpm-lock.yaml"]
  else [].

(** What one lock file adds to the hash: nothing when its path does not
    validate or it cannot be read. *)
Definition lock_bytes (fs : FS) (lockFile : filepath.t) : string :=
  match validatePath lockFile with
  | Some _ => ""
  | None =>
      match ReadFile cwd lockFile fs with
      | (Ok content, _) => content
      | (Err _, _) => ""
      end
  end.

(** Everything [Key] writes into the hash, in order. *)
Definition key_input (task : planner.Task) (workspaceRoot : string) (fs : FS) : string :=
  let projectDir := filepath.Join [workspaceRoot; planner.Path task] in
  let lockFiles := sort_paths (findLockFiles projectDir (planner.Kind task) fs) in
  planner.Kind task +:+ planner.Version task +:+ planner.Path task +:+
  String.concat "" (map (lock_bytes fs) lockFiles).

Definition digest (task : planner.Task) (workspaceRoot : string) (fs : FS) : string :=
  sha256.hex (sha256.Sum (key_input task workspaceRoot fs)).

(** [Key]: the pair of Go's two results.  The slice [[:12]] of the source
    would panic on a string shorter than twelve bytes; [digest_length] below
    shows the digest has sixty-four. *)
Definition Key (task : planner.Task) (workspaceRoot : string) (fs : FS)
    : string * option error :=
  (String.substring 0 12 (digest task workspaceRoot fs), None).

Definition cacheDir (key : string) : filepath.t := filepath.Join [".buildcache"; key].

Definition Exists (key : string) (fs : FS) : bool :=
  let manifestPath := filepath.child (cacheDir key) "manifest.json" in
  bool_decide (is_Some (at_path cwd fs manifestPath)).

Definition copyFile (src dest : filepath.t) : M FS unit :=
  match validatePath src with
  | Some e => fail ("invalid source path: " +:+ e)
  | None =>
      match validatePath dest with
      | Some e => fail ("invalid destination path: " +:+ e)
      | None =>
          Open cwd src;;
          MkdirAll cwd (filepath.Dir dest);;
          Create cwd dest;;
          Copy cwd dest src
      end
  end.

(** The function handed to [filepath.Walk] in [copyDir]. *)
Definition copy_visit (src dest path : filepath.t) (info : option entry)
    (err : option error) : M FS unit :=
  match err with
  | Some e => fail e
  | None =>
      match filepath.Rel_to src path with
      | None => fail ("Rel: can't make " +:+ filepath.to_string path +:+
                      " relative to " +:+ filepath.to_string src)
      | Some relPath =>
          let destPath := filepath.descend dest relPath in
          if is_dir info then MkdirAll cwd destPath
          else copyFile path destPath
      end
  end.

Definition copyDir (src dest : filepath.t) : M FS unit :=
  Walk cwd src (copy_visit src dest).

(** [Store] and [Restore] take their directory arguments as clean paths:
    the program passes them the result of [filepath.Join]. *)
Definition Store (key : string) (sourceDir : filepath.t) : M FS unit :=
  wrap "create cache dir: " (MkdirAll cwd (cacheDir key));;
  copyDir sourceDir (cacheDir key).

Definition Restore (key : string) (destDir : filepath.t) : M FS unit := λ fs,
  if negb (Exists key fs) then (Err ("cache key not found: " +:+ key), fs)
  else (wrap "create dest dir: " (MkdirAll cwd destDir);;
        copyDir (cacheDir key) destDir) fs.

End with_cwd.

(** One visit of the walk in [copyDir]: the argument is the path of the
    entry relative to the source, and the entry. *)
Definition visit (cwd : list string) (src dest : filepath.t) (re : list string * entry)
    : M FS unit :=
  copy_visit cwd src dest (filepath.descend src re.1) (Some re.2) None.

(** The pattern of [Store] and of [Restore]: make the destination, then
    copy the source tree into it. *)
Definition mkdir_copy (cwd : list string) (src dest : filepath.t) (pre : string)
    : M FS unit :=
  wrap pre (MkdirAll cwd dest);; copyDir cwd src dest.

(** What a copy from [ks] to [kd], started in [fs], is to leave at each
    path: below the destination the source's entry where the source has
    one, a directory on the way down to the destination, and what was there
    before everywhere else. *)
Definition target (ks kd : list string) (fs : FS) (q : list string) : option entry :=
  match strip_prefix kd q with
  | Some r => match fs !! (ks ++ r) with Some e => Some e | None => fs !! q end
  | None => if bool_decide (q `prefix_of` kd) then Some Directory else fs !! q
  end.

(** A state on the way there: every path holds its target already, or
    still what [fs] had. *)
Definition on_the_way (ks kd : list string) (fs cur : FS) : Prop :=
  ∀ q, cur !! q = target ks kd fs q ∨ cur !! q = fs !! q.

(** Every name at or below [k] lets [validatePath] pass. *)
Definition names_pass (fs : FS) (k : list string) : Prop :=
  Forall (λ re, Forall nodots re.1) (descendants fs k).

Global Instance names_pass_dec fs k : Decision (names_pass fs k).
Proof. unfold names_pass. apply _. Defined.

End cache.

(** * Package docker *)

Module docker.
Import os sys.

Definition tag_char (c : ascii) : bool :=
  Str.is_alnum c || Ascii.eqb c "." || Ascii.eqb c "_" || Ascii.eqb c "-".

Definition repo_char (c : ascii) : bool := tag_char c || Ascii.eqb c "/".

(** The regular expression [^[a-zA-Z0-9._-]+$]: one byte or more, each in
    the class. *)
Definition matches_tag (s : string) : bool :=
  negb (Str.eqb s "") && Str.all_chars tag_char s.

(** The regular expression [^[a-zA-Z0-9._/-]+$]. *)
Definition matches_repo (s : string) : bool :=
  negb (Str.eqb s "") && Str.all_chars repo_char s.

Definition validateDockerTag (tag : string) : option error :=
  if negb (matches_tag tag) || Str.HasPrefix tag "." || Str.HasPrefix tag "-"
  then Some ("invalid Docker tag: " +:+ tag)
  else None.

Definition validateRepositoryName (repo : string) : option error :=
  if negb (matches_repo repo)
  then Some ("invalid repository name: " +:+ repo)
  else None.

(** The characters a repository name may hold, as the specification lists
    them: alphanumerics, dot, dash, underscore, slash. *)
Definition allow_listed (c : ascii) : Prop :=
  Str.is_alnum c = true ∨ c = "."%char ∨ c = "-"%char ∨ c = "_"%char ∨ c = "/"%char.

Definition docker_cmd (args : list string) (dir : option filepath.t) : Cmd :=
  {| prog := "docker"; args := args; dir := dir; stdin := "" |}.

Definition default_tags (tags : list string) : list string :=
  match tags with [] => ["latest"] | _ => tags end.

(** The first error of [validateDockerTag] over the tags, as the loop
    returns it. *)
Fixpoint validate_tags (tags : list string) : option error :=
  match tags with
  | [] => None
  | tag :: rest =>
      match validateDockerTag tag with
      | Some e => Some ("security check failed: " +:+ e)
      | None => validate_tags rest
      end
  end.

(** The commands of the build loop of [BuildAndPush] when none fails: one
    build under the first tag, then one [docker tag] for every other. *)
Definition build_cmds (repository : string) (workDir : filepath.t) (tags : list string)
    : list Cmd :=
  match tags with
  | [] => []
  | first :: rest =>
      docker_cmd ["build"; "-t"; repository +:+ ":" +:+ first; "."] (Some workDir) ::
      map (λ tag, docker_cmd ["tag"; repository +:+ ":" +:+ first;
                              repository +:+ ":" +:+ tag] None) rest
  end.

(** What one round of that loop starts, by the index and the tag. *)
Definition item_cmd (repository : string) (workDir : filepath.t) (first : string)
    (it : nat * string) : list Cmd :=
  if Nat.eqb it.1 0
  then [docker_cmd ["build"; "-t"; repository +:+ ":" +:+ it.2; "."] (Some workDir)]
  else [docker_cmd ["tag"; repository +:+ ":" +:+ first; repository +:+ ":" +:+ it.2] None].

(** What [pushToRegistries] starts for one registry and one tag when
    nothing fails: Docker Hub takes the image under its own name, another
    registry first has it tagged with the registry in front. *)
Definition push_item (repository registry tag : string) : list Cmd :=
  if Str.eqb registry "docker.io"
  then [docker_cmd ["push"; repository +:+ ":" +:+ tag] None]
  else [docker_cmd ["tag"; repository +:+ ":" +:+ tag;
                    registry +:+ "/" +:+ repository +:+ ":" +:+ tag] None;
        docker_cmd ["push"; registry +:+ "/" +:+ repository +:+ ":" +:+ tag] None].

(** The commands of [pushToRegistries] when none fails. *)
Definition push_cmds (repository : string) (registries tags : list string) : list Cmd :=
  flat_map (λ registry, flat_map (push_item repository registry) tags) registries.

(** The two commands of [loginToECR]. *)
Definition aws_token (region : string) : Cmd :=
  {| prog := "aws"; args := ["ecr"; "get-login-password"; "--region"; region];
     dir := None; stdin := "" |}.

Definition ecr_login (registry token : string) : Cmd :=
  {| prog := "docker";
     args := ["login"; "--username"; "AWS"; "--password-stdin"; registry];
     dir := None; stdin := token |}.

Section with_env.
Variable env : Env.

(** One round of [for _, tag := range tags] inside the loop over the
    registries of [pushToRegistries]. *)
Definition push_tag (repository registry tag : string) : M World unit :=
  let fullTag :=
    if Str.eqb registry "docker.io" then repository +:+ ":" +:+ tag
    else registry +:+ "/" +:+ repository +:+ ":" +:+ tag in
  (if negb (Str.eqb registry "docker.io") then
     let sourceTag := repository +:+ ":" +:+ tag in
     wrap ("failed to tag image for registry " +:+ registry +:+ ": ")
          (exec env (docker_cmd ["tag"; sourceTag; fullTag] None))
   else ret tt);;
  wrap ("failed to push " +:+ fullTag +:+ " to " +:+ registry +:+ ": ")
       (exec env (docker_cmd ["push"; fullTag] None));;
  log "INFO" "successfully pushed to registry".

Definition pushToRegistries (dockerConfig : config.DockerConfig) (projectPath : string)
    : M World unit :=
  let registries :=
    match config.Registries dockerConfig with
    | [] => ["docker.io"]
    | rs => rs
    end in
  let tags := default_tags (config.Tags dockerConfig) in
  for_each (λ registry,
      log "INFO" "pushing to registry";;
      for_each (push_tag (config.Repository dockerConfig) registry) tags)
    registries.

(** One round of [for i, tag := range tags] in [BuildAndPush]: the image is
    built once, under the first tag, and tagged again for every other. *)
Definition build_or_tag (repository projectPath : string) (workDir : filepath.t)
    (first : string) (it : nat * string) : M World unit :=
  let fullTag := repository +:+ ":" +:+ it.2 in
  if Nat.eqb it.1 0 then
    wrap ("docker build failed for " +:+ projectPath +:+ ": ")
         (exec env (docker_cmd ["build"; "-t"; fullTag; "."] (Some workDir)));;
    log "INFO" "Docker image built successfully"
  else
    wrap ("docker tag failed for " +:+ fullTag +:+ ": ")
         (exec env (docker_cmd ["tag"; repository +:+ ":" +:+ first; fullTag] None)).

(** [BuildAndPush].  [dockerConfig] is a pointer in the source; [None] is
    nil. *)
Definition BuildAndPush (projectPath : string) (dockerConfig : option config.DockerConfig)
    (workspaceRoot : string) : M World unit :=
  match dockerConfig with
  | None => ret tt
  | Some dc =>
      if negb (config.Enabled dc) then ret tt
      else
        match validateRepositoryName (config.Repository dc) with
        | Some e => fail ("security check failed: " +:+ e)
        | None =>
            let workDir := filepath.Join [workspaceRoot; projectPath] in
            let dockerfilePath :=
              if Str.eqb (config.Dockerfile dc) ""
              then filepath.Join [filepath.to_string workDir; "Dockerfile"]
              else filepath.Join [filepath.to_string workDir; config.Dockerfile dc] in
            gone ← look (λ fs, missing (cwd env) fs dockerfilePath);
            if (gone : bool) then
              log "WARN" "Dockerfile not found, skipping Docker build"
            else
              log "INFO" "starting Docker image build";;
              let tags := default_tags (config.Tags dc) in
              match validate_tags tags with
              | Some e => fail e
              | None =>
                  for_each (build_or_tag (config.Repository dc) projectPath workDir
                                         (hd "" tags))
                           (imap pair tags);;
                  if config.Push dc then
                    wrap "failed to push Docker images: " (pushToRegistries dc projectPath)
                  else ret tt
              end
        end
  end.

Definition CheckDockerAvailable : M World unit :=
  wrap "Docker is not available or not running: "
       (exec env (docker_cmd ["version"] None)).

Definition loginToECR (registry : string) : M World unit :=
  let parts := Str.split_on "." registry in
  if (length parts <? 4)%nat then fail ("invalid ECR registry format: " +:+ registry)
  else
    let region := nth 3 parts "" in
    output ← wrap "failed to get ECR login token: "
               (exec_output env {| prog := "aws";
                                   args := ["ecr"; "get-login-password"; "--region"; region];
                                   dir := None; stdin := "" |});
    wrap "failed to login to ECR: "
         (exec env {| prog := "docker";
                      args := ["login"; "--username"; "AWS"; "--password-stdin"; registry];
                      dir := None; stdin := output |});;
    log "INFO" "successfully logged into ECR".

Definition LoginToRegistry (registry : string) : M World unit :=
  let generic := Str.ToUpper (Str.replace_char "." "_" registry) in
  let login (username password : string) : M World unit :=
    if Str.eqb username "" || Str.eqb password "" then
      log "WARN" "no credentials found for registry, skipping login"
    else
      wrap ("failed to login to registry " +:+ registry +:+ ": ")
           (exec env {| prog := "docker";
                        args := ["login"; "-u"; username; "--password-stdin"; registry];
                        dir := None; stdin := password |});;
      log "INFO" "successfully logged into registry" in
  if Str.eqb registry "docker.io" || Str.eqb registry "" then
    login (getenv env "DOCKER_USERNAME") (getenv env "DOCKER_PASSWORD")
  else if Str.Contains registry "ghcr.io" then
    login (getenv env "GITHUB_ACTOR") (getenv env "GITHUB_TOKEN")
  else if Str.Contains registry "amazonaws.com" then
    loginToECR registry
  else
    login (getenv env (generic +:+ "_USERNAME")) (getenv env (generic +:+ "_PASSWORD")).

End with_env.

End docker.

(** * Package runner *)

Module runner.
Import os sys.

(** The regular expression
    [^[a-zA-Z0-9._/-]+:[a-zA-Z0-9._-]+$|^[a-zA-Z0-9._/-]+$]: neither class
    holds the colon, so the first branch asks for one colon, a name before
    it and a tag after it. *)
Definition matches_image (image : string) : bool :=
  docker.matches_repo image ||
  match Str.split_on ":" image with
  | [name; tag] => docker.matches_repo name && docker.matches_tag tag
  | _ => false
  end.

Definition validateDockerImage (image : string) : option error :=
  if negb (matches_image image) then Some ("invalid Docker image name: " +:+ image)
  else None.

Definition validatePath (path : string) : option error :=
  if Str.Contains (filepath.to_string (filepath.Clean path)) ".."
  then Some ("invalid path: path traversal detected in " +:+ path)
  else None.

Definition dockerSpec (task : planner.Task) (pkgManager : string)
    (buildScripts : list string) : string * string :=
  if Str.eqb (planner.Kind task) "dotnet" then
    ("mcr.microsoft.com/dotnet/sdk:" +:+ planner.Version task,
     "dotnet restore && dotnet build -c Release")
  else if Str.eqb (planner.Kind task) "node" then
    let pkgManager := if Str.eqb pkgManager "" then "npm" else pkgManager in
    let buildScripts := match buildScripts with [] => ["build"] | _ => buildScripts end in
    let buildCmd := hd "" buildScripts in
    ("node:" +:+ planner.Version task,
     if Str.eqb pkgManager "pnpm" then
       "corepack enable && pnpm install --frozen-lockfile || pnpm install && pnpm run "
         +:+ buildCmd
     else if Str.eqb pkgManager "yarn" then
       "corepack enable && yarn install --frozen-lockfile || yarn install && yarn run "
         +:+ buildCmd
     else "npm install && npm run " +:+ buildCmd)
  else ("alpine:latest", "echo unsupported task kind").

(** [RunTask]: [workspaceRoot] is [opts.WorkspaceRoot]; the logger of
    [opts] is the one logger of the model. *)
Definition RunTask (env : Env) (task : planner.Task) (workspaceRoot pkgManager : string)
    (buildScripts : list string) : M World unit :=
  match validatePath workspaceRoot with
  | Some e => fail ("invalid workspace root: " +:+ e)
  | None =>
      let workDir := filepath.Join [workspaceRoot; planner.Path task] in
      wrap ("task path missing: " +:+ planner.Path task +:+ ": ")
           (on_fs (Stat (cwd env) workDir));;
      let '(image, command) := dockerSpec task pkgManager buildScripts in
      match validateDockerImage image with
      | Some e => fail ("security check failed: " +:+ e)
      | None =>
          log "DEBUG" "docker run spec";;
          let args :=
            ["run"; "--rm";
             "-v"; workspaceRoot +:+ ":/workspace";
             "-w"; filepath.to_string (filepath.Join ["/workspace"; planner.Path task]);
             image; "bash"; "-lc"; command] in
          wrap "docker build failed: " (exec env (docker.docker_cmd args None))
      end
  end.

End runner.

(** * Package artifact *)

Module artifact.
Import os sys.

Record Manifest := {
  Project : string;
  Kind : string;
  Toolchain : string;
  Version : string;
  Hash : string;
  BuildTimeMs : Z;
  Reused : bool;
  CreatedAt : string
}.

Definition chr (n : N) : string := String (ascii_of_N n) EmptyString.
Definition quote : string := chr 34.
Definition backslash : string := chr 92.
Definition newline : string := chr 10.

(** The escapes of [encoding/json] for one byte: the quote, the backslash,
    the control characters, and the three characters of HTML; bytes beyond
    ASCII pass as they are (the encoder would replace invalid UTF-8). *)
Definition json_escape (c : ascii) : string :=
  let n := N_of_ascii c in
  if N.eqb n 34 then backslash +:+ quote
  else if N.eqb n 92 then backslash +:+ backslash
  else if N.eqb n 10 then backslash +:+ "n"
  else if N.eqb n 13 then backslash +:+ "r"
  else if N.eqb n 9 then backslash +:+ "t"
  else if N.ltb n 32 || N.eqb n 60 || N.eqb n 62 || N.eqb n 38 then
    backslash +:+ "u00" +:+ sha256.hex [n]
  else String c EmptyString.

Definition json_string (s : string) : string :=
  quote +:+ String.concat "" (map json_escape (list_ascii_of_string s)) +:+ quote.

Definition json_field (name value : string) : string :=
  "  " +:+ quote +:+ name +:+ quote +:+ ": " +:+ value.

(** [json.MarshalIndent(m, "", "  ")]. *)
Definition MarshalIndent (m : Manifest) : string :=
  "{" +:+ newline +:+
  String.concat ("," +:+ newline)
    [json_field "project" (json_string (Project m));
     json_field "kind" (json_string (Kind m));
     json_field "toolchain" (json_string (Toolchain m));
     json_field "version" (json_string (Version m));
     json_field "hash" (json_string (Hash m));
     json_field "buildTimeMs" (Str.of_Z (BuildTimeMs m));
     json_field "reused" (if Reused m then "true" else "false");
     json_field "createdAt" (json_string (CreatedAt m))] +:+
  newline +:+ "}".

Definition with_CreatedAt (m : Manifest) (t : string) : Manifest :=
  {| Project := Project m; Kind := Kind m; Toolchain := Toolchain m;
     Version := Version m; Hash := Hash m; BuildTimeMs := BuildTimeMs m;
     Reused := Reused m; CreatedAt := t |}.

Definition WriteManifest (env : Env) (outDir : filepath.t) (m : Manifest) : M World unit :=
  on_fs (MkdirAll (cwd env) outDir);;
  t ← now env;
  let data := MarshalIndent (with_CreatedAt m (format_time env t)) in
  let path := filepath.child outDir "manifest.json" in
  wrap "write manifest: " (on_fs (WriteFile (cwd env) path data)).

End artifact.

(** * Package main *)

Module main.
Import os sys.

(** The command-line flags, parsed. *)
Record Flags := {
  flagConfig : string;
  flagConcurrency : Z;
  flagJSON : bool;
  flagNoCache : bool;
  flagOnly : string;
  flagDryRun : bool;
  flagVersion : bool;
  flagNoDocker : bool;
  flagPushImages : bool
}.

Definition ExitSuccess : Z := 0.
Definition ExitBuildFailure : Z := 1.
Definition ExitConfigError : Z := 2.
Definition ExitInternalError : Z := 3.

Definition parseOnly (flags : Flags) : gset string :=
  if Str.eqb (flagOnly flags) "" then ∅
  else list_to_set
         (filter (λ p, p ≠ "") (map Str.TrimSpace (Str.split_on "," (flagOnly flags)))).

Definition printPlan (p : planner.Plan) : M World unit :=
  emit (Print ("Plan: " +:+ Str.of_Z (Z.of_nat (length (planner.Tasks p))) +:+
               " task(s)" +:+ artifact.newline));;
  for_each (λ t, emit (Print (" - " +:+ planner.Path t +:+ " | kind=" +:+ planner.Kind t +:+
                              " version=" +:+ planner.Version t +:+ artifact.newline)))
           (planner.Tasks p).

Section with_env.
Variable env : Env.
Variable flags : Flags.

Definition load_config : M World config.Root :=
  wrap "load config: "
       (on_fs (config.Load (cwd env) (yaml_unmarshal env) (flagConfig flags))).

Definition runPlan : M World unit :=
  cfg ← load_config;
  let plan := planner.Expand cfg (parseOnly flags) in
  log "INFO" "plan generated";;
  printPlan plan.

(** The first matrix entry of the task's path and kind, as the loop with
    [break] finds it. *)
Definition entry_for (cfg : config.Root) (task : planner.Task) : option config.MatrixEntry :=
  List.find (λ me, Str.eqb (config.Path me) (planner.Path task) &&
                   Str.eqb (config.Type_ me) (planner.Kind task))
            (config.Matrix cfg).

Definition docker_enabled (d : option config.DockerConfig) : bool :=
  match d with Some dc => config.Enabled dc | None => false end.

(** [if *flagPushImages { dockerCfg.Push = true }]: the assignment goes
    through the pointer into the configuration, where it stays; the flag
    does not change during a run, so every later reader sees what this
    override gives. *)
Definition override_push (d : option config.DockerConfig) : option config.DockerConfig :=
  match d with
  | Some dc =>
      if flagPushImages flags then
        Some {| config.Enabled := config.Enabled dc;
                config.Repository := config.Repository dc;
                config.Tags := config.Tags dc;
                config.Push := true;
                config.Registries := config.Registries dc;
                config.Dockerfile := config.Dockerfile dc |}
      else Some dc
  | None => None
  end.

(** The image step after a successful build: a failure is logged, twice,
    and goes no further. *)
Definition publish_step (workspaceRoot : string) (task : planner.Task)
    (dockerCfg : option config.DockerConfig) : M World unit :=
  if negb (flagNoDocker flags) && docker_enabled dockerCfg then
    r ← try (docker.BuildAndPush env (planner.Path task) (override_push dockerCfg)
                                 workspaceRoot);
    match r with
    | Err _ =>
        log "ERROR" "Docker image build/push failed";;
        log "WARN" "continuing with build despite Docker failure"
    | Ok _ => ret tt
    end
  else ret tt.

(** The cache step after a successful build: a failure is logged and goes
    no further. *)
Definition store_step (cacheKey : string) (outDir : filepath.t) : M World unit :=
  if negb (flagNoCache flags) then
    r ← try (on_fs (cache.Store (cwd env) cacheKey outDir));
    match r with
    | Err _ => log "ERROR" "cache store failed"
    | Ok _ => ret tt
    end
  else ret tt.

(** The [else] branch of the cache check: build, publish, store. *)
Definition build_branch (cfg : config.Root) (workspaceRoot : string) (task : planner.Task)
    (cacheKey : string) (outDir : filepath.t) : M World unit :=
  log "INFO" "build start";;
  let me := entry_for cfg task in
  let pkgMgr := from_option config.PackageManager "" me in
  let scripts := from_option config.BuildScripts [] me in
  let dockerCfg := me ≫= config.Docker in
  runErr ← try (runner.RunTask env task workspaceRoot pkgMgr scripts);
  match runErr with
  | Err e => log "ERROR" "build failed";; fail e
  | Ok _ =>
      publish_step workspaceRoot task dockerCfg;;
      store_step cacheKey outDir
  end.

(** The [then] branch of the cache check. *)
Definition restore_branch (cacheKey : string) (outDir : filepath.t) : M World unit :=
  log "INFO" "cache hit";;
  r ← try (on_fs (cache.Restore (cwd env) cacheKey outDir));
  match r with
  | Err e => log "ERROR" "cache restore failed";; fail e
  | Ok _ => ret tt
  end.

Definition manifest_of (task : planner.Task) (cacheKey : string) (elapsed : Z)
    (reused : bool) : artifact.Manifest :=
  {| artifact.Project := planner.Path task;
     artifact.Kind := planner.Kind task;
     artifact.Toolchain := planner.Kind task;
     artifact.Version := planner.Version task;
     artifact.Hash := cacheKey;
     artifact.BuildTimeMs := Z.quot elapsed 1000000;
     artifact.Reused := reused;
     artifact.CreatedAt := "" |}.

(** The end of the goroutine, on both paths: the manifest, whose error is
    dropped, and the closing log line. *)
Definition finish (start : Z) (task : planner.Task) (cacheKey : string)
    (outDir : filepath.t) (reused : bool) : M World unit :=
  stop ← now env;
  try (artifact.WriteManifest env outDir
         (manifest_of task cacheKey (stop - start) reused));;
  if reused then log "INFO" "build reused" else log "INFO" "build complete".

(** [!*flagNoCache && cache.Exists(cacheKey)]. *)
Definition cache_hit (cacheKey : string) (w : World) : bool :=
  negb (flagNoCache flags) && cache.Exists (cwd env) cacheKey (fs w).

(** The body of the goroutine started for one task.  An error result is
    the error the goroutine sends on [errCh]. *)
Definition runTask (cfg : config.Root) (workspaceRoot : string) (task : planner.Task)
    : M World unit :=
  start ← now env;
  kerr ← look (cache.Key (cwd env) task workspaceRoot);
  match kerr.2 with
  | Some e => log "ERROR" "cache key generation failed";; fail e
  | None =>
      let cacheKey := kerr.1 in
      let outDir := filepath.Join ["out"; planner.Path task; planner.Version task] in
      hit ← (λ w, (Ok (cache_hit cacheKey w), w));
      if (hit : bool) then
        restore_branch cacheKey outDir;;
        finish start task cacheKey outDir true
      else
        build_branch cfg workspaceRoot task cacheKey outDir;;
        finish start task cacheKey outDir false
  end.

(** The matrix entries with an enabled image for the tasks of the plan, as
    the two nested loops of the Docker check meet them. *)
Definition docker_entries (cfg : config.Root) (plan : planner.Plan)
    : list config.MatrixEntry :=
  flat_map (λ task,
      filter (λ me, Str.eqb (config.Path me) (planner.Path task) = true ∧
                    Str.eqb (config.Type_ me) (planner.Kind task) = true ∧
                    docker_enabled (config.Docker me) = true)
             (config.Matrix cfg))
    (planner.Tasks plan).

Definition registries_of (me : config.MatrixEntry) : list string :=
  match config.Docker me with
  | Some dc => match config.Registries dc with [] => ["docker.io"] | rs => rs end
  | None => []
  end.

(** The Docker check before the builds.  The registries are the keys of a
    Go map, ranged over in no specified order; the model takes them in
    order of first appearance. *)
Definition preflight (cfg : config.Root) (plan : planner.Plan) : M World unit :=
  if flagNoDocker flags then ret tt
  else
    let entries := docker_entries cfg plan in
    match entries with
    | [] => ret tt
    | _ =>
        wrap "Docker is required but not available: " (docker.CheckDockerAvailable env);;
        for_each (λ registry,
            r ← try (docker.LoginToRegistry env registry);
            match r with
            | Err _ => log "WARN" "failed to login to registry"
            | Ok _ => ret tt
            end)
          (remove_dups (flat_map registries_of entries))
    end.

(** The tasks of the plan, each run to its end, and the errors that reach
    [errCh].  The goroutines are run one after the other, in plan order:
    the one schedule of [--concurrency 1], and one of the schedules of any
    other setting; the semaphore that admits them, and with it the
    concurrency flag and the number of cores, has nothing left to decide. *)
Fixpoint run_tasks (cfg : config.Root) (workspaceRoot : string) (tasks : list planner.Task)
    : M World (list error) :=
  match tasks with
  | [] => ret []
  | task :: rest =>
      r ← try (runTask cfg workspaceRoot task);
      errs ← run_tasks cfg workspaceRoot rest;
      ret (match r with Err e => e :: errs | Ok _ => errs end)
  end.

Definition runBuild : M World unit :=
  if flagDryRun flags then runPlan
  else
    cfg ← load_config;
    let plan := planner.Expand cfg (parseOnly flags) in
    log "INFO" "starting builds";;
    let workspaceRoot := Getwd env in
    preflight cfg plan;;
    errs ← run_tasks cfg workspaceRoot (planner.Tasks plan);
    match errs with
    | _ :: _ => fail "one or more builds failed"
    | [] => log "INFO" "all tasks completed"
    end.

(** [runClean]; [os.RemoveAll] does not fail in the model. *)
Definition runClean : M World unit :=
  wrap "failed to remove cache directory: "
       (on_fs (RemoveAll (cwd env) (filepath.Rel [".buildcache"])));;
  wrap "failed to remove output directory: "
       (on_fs (RemoveAll (cwd env) (filepath.Rel ["out"])));;
  log "INFO" "clean completed".

(** [validatePath] of this package. *)
Definition validatePath (path : string) : option error :=
  if Str.Contains (filepath.to_string (filepath.Clean path)) ".."
  then Some ("invalid path: path traversal detected in " +:+ path)
  else None.

(** What [runInspect] prints for a manifest without [--json]. *)
Definition inspect_lines (key : string) (manifest : artifact.Manifest) : list string :=
  ["Manifest for key: " +:+ key;
   "  Project: " +:+ artifact.Project manifest;
   "  Kind: " +:+ artifact.Kind manifest;
   "  Toolchain: " +:+ artifact.Toolchain manifest;
   "  Version: " +:+ artifact.Version manifest;
   "  Hash: " +:+ artifact.Hash manifest;
   "  Build Time: " +:+ Str.of_Z (artifact.BuildTimeMs manifest) +:+ " ms";
   "  Reused: " +:+ (if artifact.Reused manifest then "true" else "false");
   "  Created At: " +:+ artifact.CreatedAt manifest].

(** [runInspect].  [json_unmarshal] is [json.Unmarshal] into a [Manifest],
    a library outside the program.  The manifest of the cache entry is
    taken unless [os.Stat] says it does not exist; then the one below
    [out], when [os.Stat] finds it. *)
Definition runInspect (json_unmarshal : string → result artifact.Manifest) (key : string)
    : M World unit :=
  let cachePath := filepath.Join [".buildcache"; key; "manifest.json"] in
  let outPath := filepath.Join ["out"; key; "manifest.json"] in
  gone ← look (λ fs, missing (cwd env) fs cachePath);
  found ← look (λ fs, bool_decide (is_Some (at_path (cwd env) fs outPath)));
  if (gone : bool) && negb found then fail ("manifest not found for key: " +:+ key)
  else
    let manifestPath := if gone then outPath else cachePath in
    match validatePath (filepath.to_string manifestPath) with
    | Some e => fail ("invalid manifest path: " +:+ e)
    | None =>
        data ← wrap "failed to read manifest: " (on_fs (ReadFile (cwd env) manifestPath));
        (if flagJSON flags then emit (Print data)
         else
           match json_unmarshal data with
           | Err e => fail ("failed to parse manifest: " +:+ e)
           | Ok manifest =>
               for_each (λ l, emit (Print (l +:+ artifact.newline)))
                        (inspect_lines key manifest)
           end);;
        log "INFO" "inspect completed"
    end.

End with_env.

(** The log line that opens the work on a task: a build or a restore. *)
Definition is_attempt (e : Event) : bool :=
  match e with
  | Log _ msg => Str.eqb msg "build start" || Str.eqb msg "cache hit"
  | _ => false
  end.

Definition attempts (w : World) : nat := length (filter (λ e, is_attempt e = true) (trace w)).


(** What [printPlan] writes: a header with the count, then one line for
    each task. *)
Definition plan_lines (p : planner.Plan) : list string :=
  ("Plan: " +:+ Str.of_Z (Z.of_nat (length (planner.Tasks p))) +:+ " task(s)" +:+
     artifact.newline) ::
  map (λ t, " - " +:+ planner.Path t +:+ " | kind=" +:+ planner.Kind t +:+
            " version=" +:+ planner.Version t +:+ artifact.newline) (planner.Tasks p).

(** [fatal]: the exit code chosen for an error (the line it prints on
    standard error is left out). *)
Definition fatal (err : error) : Z :=
  if Str.Contains err "load config" || Str.Contains err "parse yaml" ||
     Str.Contains err "config error"
  then ExitConfigError
  else if Str.Contains err "build failed" || Str.Contains err "one or more builds failed"
  then ExitBuildFailure
  else ExitInternalError.

(** [main] on the command [build]: the exit status of the process. *)
Definition main_build (env : Env) (flags : Flags) (w : World) : Z * World :=
  match runBuild env flags w with
  | (Ok _, w') => (ExitSuccess, w')
  | (Err e, w') => (fatal e, w')
  end.

(** What a successful [runInspect] writes to standard output for a
    manifest file holding [data]. *)
Definition inspect_output (flags : Flags)
    (json_unmarshal : string → result artifact.Manifest) (key data : string) : list string :=
  if flagJSON flags then [data]
  else match json_unmarshal data with
       | Ok manifest => map (λ l, l +:+ artifact.newline) (inspect_lines key manifest)
       | Err _ => []
       end.

Definition version : string := "0.0.1-dev".

(** The exit status after a command: [fatal] ends the process on an
    error, a command that returns lets [main] return. *)
Definition exit_of (m : M World unit) (w : World) : Z * World :=
  match m w with
  | (Ok _, w') => (ExitSuccess, w')
  | (Err e, w') => (fatal e, w')
  end.

(** [main], after [flag.Parse]: [args] are the arguments that are not
    flags. *)
Definition main (env : Env) (flags : Flags)
    (json_unmarshal : string → result artifact.Manifest) (args : list string)
    : World → Z * World :=
  if flagVersion flags then exit_of (emit (Print (version +:+ artifact.newline)))
  else
    let cmd := hd "build" args in
    if Str.eqb cmd "plan" then exit_of (runPlan env flags)
    else if Str.eqb cmd "build" then exit_of (runBuild env flags)
    else if Str.eqb cmd "clean" then exit_of (runClean env)
    else if Str.eqb cmd "version" then exit_of (emit (Print (version +:+ artifact.newline)))
    else if Str.eqb cmd "inspect" then
      match args with
      | _ :: key :: _ => exit_of (runInspect env flags json_unmarshal key)
      | _ => exit_of (fail "inspect command requires a key argument")
      end
    else exit_of (fail ("unknown command: " +:+ cmd)).

End main.

(** * Package detect *)

Module detect.
Import os.


Section with_cwd.
Variable cwd : list string.

(** The project directory is taken as a clean path, as in [cache]. *)
Definition hasFile (projectPath : filepath.t) (filename : string) (fs : FS) : bool :=
  bool_decide (is_Some (at_path cwd fs (filepath.child projectPath filename))).




Definition HasAngularFiles (projectPath : filepath.t) (fs : FS) : bool :=
  hasFile projectPath "angular.json" fs.

Definition HasNextFiles (projectPath : filepath.t) (fs : FS) : bool :=
  existsb (λ candidate, hasFile projectPath candidate fs)
          ["next.config.js"; "next.config.ts"; "next.config.mjs"].

Definition HasViteFiles (projectPath : filepath.t) (fs : FS) : bool :=
  existsb (λ candidate, hasFile projectPath candidate fs)
          ["vite.config.js"; "vite.config.ts"; "vite.config.mjs"].

End with_cwd.

End detect.

(** * A workspace to run the program on

    One project, [api], built with one SDK; the build succeeds and leaves
    its output inside the project directory, as [dotnet build] does. *)

Module example.
Import os sys.

Definition cfg : config.Root :=
  {| config.Runtime :=
       {| config.Dotnet := {| config.Versions := ["6.0.415"] |};
          config.Node := {| config.Versions := ["18.20.2"] |} |};
     config.Matrix :=
       [{| config.Path := "api"; config.Type_ := "dotnet";
           config.Frameworks := []; config.NodeVersions := [];
           config.PackageManager := ""; config.BuildScripts := [];
           config.Docker := None |}];
     config.Defaults := {| config.Concurrency := 0%Z; config.ArtifactDir := "" |} |}.

(** A process that succeeds: [docker run] writes the build output below
    the project directory and changes nothing else. *)
Definition builds (c : Cmd) (fs : FS) : FS :=
  match args c with
  | "run" :: _ =>
      <[ ["ws"; "api"; "bin"; "api.dll"] := File "MZ" ]>
        (<[ ["ws"; "api"; "bin"] := Directory ]> fs)
  | _ => fs
  end.

Definition env : Env :=
  {| cwd := ["ws"];
     getenv := λ _, "";
     run := λ _ c fs, {| succeeded := true; stdout := ""; fs_after := builds c fs |};
     clock := λ tr, (Z.of_nat (length tr) * 1000000)%Z;
     format_time := λ _, "2025-01-15T10:30:00Z";
     yaml_unmarshal := λ _, Ok cfg |}.

Definition flags : main.Flags :=
  {| main.flagConfig := "build.yaml"; main.flagConcurrency := 0%Z;
     main.flagJSON := false; main.flagNoCache := false; main.flagOnly := "";
     main.flagDryRun := false; main.flagVersion := false;
     main.flagNoDocker := false; main.flagPushImages := false |}.

(** A fresh checkout: no [out], no [.buildcache]. *)
Definition fs0 : FS :=
  list_to_map
    [([], Directory); (["ws"], Directory);
     (["ws"; "build.yaml"], File "matrix: [{path: api, type: dotnet}]");
     (["ws"; "api"], Directory);
     (["ws"; "api"; "api.csproj"], File "<Project/>")].

Definition start (fs : FS) : World := {| fs := fs; trace := [] |}.

Definition task : planner.Task :=
  {| planner.Path := "api"; planner.Kind := "dotnet"; planner.Version := "6.0.415" |}.

(** The publish configuration of Scenario D. *)
Definition scenario_D : config.DockerConfig :=
  {| config.Enabled := true; config.Repository := "repo;rm -rf";
     config.Tags := []; config.Push := false; config.Registries := [];
     config.Dockerfile := "" |}.

(** The matrix of Scenario B. *)
Definition cfg_B : config.Root :=
  {| config.Runtime := config.Runtime cfg;
     config.Matrix :=
       [{| config.Path := "api"; config.Type_ := "dotnet";
           config.Frameworks := ["6.0.415"; "8.0.100"]; config.NodeVersions := [];
           config.PackageManager := ""; config.BuildScripts := [];
           config.Docker := None |};
        {| config.Path := "web"; config.Type_ := "node";
           config.Frameworks := []; config.NodeVersions := [];
           config.PackageManager := ""; config.BuildScripts := [];
           config.Docker := None |}];
     config.Defaults := config.Defaults cfg |}.

(** The same checkout after an edit that touches no lock file. *)
Definition fs0_edited : FS :=
  <[ ["ws"; "api"; "Program.cs"] := File "class Program {}" ]> fs0.

(** Two node projects, [1/app] on Node 20.1 and [/app] on Node 20.11. *)
Definition node_entry (path version : string) : config.MatrixEntry :=
  {| config.Path := path; config.Type_ := "node";
     config.Frameworks := []; config.NodeVersions := [version];
     config.PackageManager := ""; config.BuildScripts := [];
     config.Docker := None |}.

Definition cfg_two_apps : config.Root :=
  {| config.Runtime := config.Runtime cfg;
     config.Matrix := [node_entry "1/app" "20.1"; node_entry "/app" "20.11"];
     config.Defaults := config.Defaults cfg |}.

Definition task_a : planner.Task :=
  {| planner.Path := "1/app"; planner.Kind := "node"; planner.Version := "20.1" |}.

Definition task_b : planner.Task :=
  {| planner.Path := "/app"; planner.Kind := "node"; planner.Version := "20.11" |}.

Definition fs_two_apps : FS :=
  list_to_map
    [([], Directory); (["ws"], Directory);
     (["ws"; "1"], Directory); (["ws"; "1"; "app"], Directory);
     (["ws"; "1"; "app"; "package.json"], File "{}");
     (["ws"; "app"], Directory);
     (["ws"; "app"; "package.json"], File "{}")].

(** The key of [task] in this checkout. *)
Definition key : string := "d0bdaa5ec65c".

Definition outDir : filepath.t := filepath.Rel ["out"; "api"; "6.0.415"].

(** The checkout with a cache entry for [task], and with a regular file
    named [out] where the output directory would go. *)
Definition fs_blocked : FS :=
  list_to_map
    [([], Directory); (["ws"], Directory);
     (["ws"; "build.yaml"], File "matrix: [{path: api, type: dotnet}]");
     (["ws"; "api"], Directory);
     (["ws"; "api"; "api.csproj"], File "<Project/>");
     (["ws"; ".buildcache"], Directory);
     (["ws"; ".buildcache"; key], Directory);
     (["ws"; ".buildcache"; key; "manifest.json"], File "{}");
     (["ws"; "out"], File "")].

(** A finished build in [out], and an entry for its key left by an
    earlier build that also produced [old.txt]. *)
Definition fs_stale : FS :=
  list_to_map
    [([], Directory); (["ws"], Directory);
     (["ws"; "out"], Directory); (["ws"; "out"; "api"], Directory);
     (["ws"; "out"; "api"; "6.0.415"], Directory);
     (["ws"; "out"; "api"; "6.0.415"; "manifest.json"], File "{new}");
     (["ws"; ".buildcache"], Directory);
     (["ws"; ".buildcache"; key], Directory);
     (["ws"; ".buildcache"; key; "manifest.json"], File "{old}");
     (["ws"; ".buildcache"; key; "old.txt"], File "stale")].


(** A finished build in [out], no cache yet. *)
Definition fs_built : FS :=
  list_to_map
    [([], Directory); (["ws"], Directory);
     (["ws"; "out"], Directory); (["ws"; "out"; "api"], Directory);
     (["ws"; "out"; "api"; "6.0.415"], Directory);
     (["ws"; "out"; "api"; "6.0.415"; "manifest.json"], File "{}");
     (["ws"; "out"; "api"; "6.0.415"; "bin"], Directory);
     (["ws"; "out"; "api"; "6.0.415"; "bin"; "api.dll"], File "MZ")].


(** The events of a world that are log lines, by their message. *)
Definition logs (w : World) : list string :=
  omap (λ e, match e with Log _ msg => Some msg | _ => None end) (trace w).

(** A working directory without a configuration file. *)
Definition fs_bare : FS := list_to_map [([], Directory); (["ws"], Directory)].

Definition with_flags (dry noDocker json : bool) (only : string) : main.Flags :=
  {| main.flagConfig := "build.yaml"; main.flagConcurrency := 0%Z;
     main.flagJSON := json; main.flagNoCache := false; main.flagOnly := only;
     main.flagDryRun := dry; main.flagVersion := false;
     main.flagNoDocker := noDocker; main.flagPushImages := false |}.

Definition flags_dry : main.Flags := with_flags true false false "".
Definition flags_no_docker : main.Flags := with_flags false true false "".
Definition flags_json : main.Flags := with_flags false false true "".
Definition flags_blank : main.Flags := with_flags false false false " , ,".

(** A JSON decoder that accepts nothing. *)
Definition json_unmarshal (data : string) : result artifact.Manifest :=
  Err "unexpected end of JSON input".

(** An image to build under two tags and push to two registries. *)
Definition publish : config.DockerConfig :=
  {| config.Enabled := true; config.Repository := "acme/api";
     config.Tags := ["1.0"; "latest"]; config.Push := true;
     config.Registries := ["docker.io"; "ghcr.io"]; config.Dockerfile := "" |}.

(** The same with a tag that starts with a dash. *)
Definition publish_bad_tag : config.DockerConfig :=
  {| config.Enabled := true; config.Repository := "acme/api";
     config.Tags := ["1.0"; "-rc"]; config.Push := true;
     config.Registries := ["docker.io"; "ghcr.io"]; config.Dockerfile := "" |}.

Definition cfg_docker : config.Root :=
  {| config.Runtime := config.Runtime cfg;
     config.Matrix :=
       [{| config.Path := "api"; config.Type_ := "dotnet";
           config.Frameworks := []; config.NodeVersions := [];
           config.PackageManager := ""; config.BuildScripts := [];
           config.Docker := Some publish |}];
     config.Defaults := config.Defaults cfg |}.

(** The checkout with a Dockerfile in the project. *)
Definition fs_docker : FS :=
  <[ ["ws"; "api"; "Dockerfile"] := File "FROM scratch" ]> fs0.

(** A machine on which no process succeeds, and the configuration asks for
    an image. *)
Definition env_no_docker : Env :=
  {| cwd := ["ws"];
     getenv := λ _, "";
     run := λ _ _ fs, {| succeeded := false; stdout := ""; fs_after := fs |};
     clock := clock env;
     format_time := format_time env;
     yaml_unmarshal := λ _, Ok cfg_docker |}.

(** A task whose version is not a tag. *)
Definition task_bad : planner.Task :=
  {| planner.Path := "app"; planner.Kind := "node"; planner.Version := "20; rm -rf /" |}.

End example.

(** * Proofs *)

(** The library models, tried on known values. *)
Module sanity.

Example sha256_abc :
  sha256.hex (sha256.Sum "abc") =
  "ba7816bf8f01cfea414140de5dae2223b00361a396177a9cb410ff61f20015ad".
Proof. vm_compute. reflexivity. Qed.

Example sha256_empty :
  sha256.hex (sha256.Sum "") =
  "e3b0c44298fc1c149afbf4c8996fb92427ae41e4649b934ca495991b7852b855".
Proof. vm_compute. reflexivity. Qed.

Example sha256_two_blocks :
  sha256.hex (sha256.Sum "abcdbcdecdefdefgefghfghighijhijkijkljklmklmnlmnomnopnopq") =
  "248d6a61d20638b8e5c026930c3e6039a33ce45964ff2167f6ecedd419db06c1".
Proof. vm_compute. reflexivity. Qed.

Example Clean_dots :
  filepath.to_string (filepath.Clean "a/../../b/./c//d/") = "../b/c/d" ∧
  filepath.to_string (filepath.Clean "/../a/b/..") = "/a" ∧
  filepath.to_string (filepath.Clean "") = "." ∧
  filepath.to_string (filepath.Clean "a/b/../../..") = "..".
Proof. repeat split; vm_compute; reflexivity. Qed.

Example Join_out :
  filepath.Join ["out"; "api"; "6.0.415"] = example.outDir ∧
  filepath.Join ["out"; "/abs/x"; "1.0"] = filepath.Rel ["out"; "abs"; "x"; "1.0"] ∧
  filepath.Join [""; ""] = filepath.Empty ∧
  filepath.Join ["/ws"; ""] = filepath.Abs ["ws"].
Proof. repeat split; vm_compute; reflexivity. Qed.

(** [child] is [Join] with a plain last name. *)
Example Join_child :
  filepath.Join [filepath.to_string (cache.cacheDir example.key); "manifest.json"] =
    filepath.child (cache.cacheDir example.key) "manifest.json" ∧
  filepath.Join [filepath.to_string (filepath.Join ["/ws"; "api"]); "package.json"] =
    filepath.child (filepath.Join ["/ws"; "api"]) "package.json" ∧
  filepath.Join [""; "package.json"] = filepath.child filepath.Empty "package.json".
Proof. repeat split; vm_compute; reflexivity. Qed.

Example Contains_dots :
  Str.Contains "notes..txt" ".." = true ∧ Str.Contains "a.b.c" ".." = false ∧
  Str.Contains "one or more builds failed" "build failed" = false ∧
  Str.Contains "one or more builds failed" "builds failed" = true.
Proof. repeat split; vm_compute; reflexivity. Qed.

Example validate_names :
  docker.validateRepositoryName "ghcr.io/acme/api_v2" = None ∧
  docker.validateRepositoryName "" = Some "invalid repository name: " ∧
  docker.validateDockerTag "1.0-rc_1" = None ∧
  docker.validateDockerTag ".hidden" = Some "invalid Docker tag: .hidden" ∧
  runner.validateDockerImage "mcr.microsoft.com/dotnet/sdk:6.0.415" = None ∧
  runner.validateDockerImage "node:18:20" = Some "invalid Docker image name: node:18:20".
Proof. repeat split; vm_compute; reflexivity. Qed.

Example exit_codes :
  main.fatal "load config: open build.yaml: no such file or directory" = 2%Z ∧
  main.fatal "one or more builds failed" = 1%Z ∧
  main.fatal "unknown command: deploy" = 3%Z ∧
  main.fatal "Docker is required but not available: exit status 1" = 3%Z.
Proof. repeat split; vm_compute; reflexivity. Qed.

End sanity.

Module StrFacts.
Import Str.

Lemma ascii_compare_lt_trans (a b c : ascii) :
  Ascii.compare a b = Lt → Ascii.compare b c = Lt → Ascii.compare a c = Lt.
Proof.
  unfold Ascii.compare. rewrite !N.compare_lt_iff. lia.
Qed.

Lemma compare_refl (s : string) : String.compare s s = Eq.
Proof.
  induction s as [|c s IH]; simpl; [done|].
  unfold Ascii.compare. by rewrite N.compare_refl.
Qed.

Lemma compare_lt_trans (a b c : string) :
  String.compare a b = Lt → String.compare b c = Lt → String.compare a c = Lt.
Proof.
  revert b c. induction a as [|x a IH]; intros [|y b] [|z c]; simpl; try done.
  destruct (Ascii.compare x y) eqn:Hxy; try done.
  - apply Ascii.compare_eq_iff in Hxy as ->.
    destruct (Ascii.compare y z) eqn:Hyz; try done. apply IH.
  - destruct (Ascii.compare y z) eqn:Hyz; try done.
    + apply Ascii.compare_eq_iff in Hyz as ->. by rewrite Hxy.
    + by rewrite (ascii_compare_lt_trans _ _ _ Hxy Hyz).
Qed.

Lemma lt_irrefl (s : string) : ¬ lt s s.
Proof. unfold lt, String.ltb. by rewrite compare_refl. Qed.

Lemma lt_trans (a b c : string) : lt a b → lt b c → lt a c.
Proof.
  unfold lt, String.ltb. intros Hab Hbc.
  destruct (String.compare a b) eqn:H1; try done.
  destruct (String.compare b c) eqn:H2; try done.
  by rewrite (compare_lt_trans _ _ _ H1 H2).
Qed.

Lemma lt_trichotomy (a b : string) : lt a b ∨ a = b ∨ lt b a.
Proof.
  unfold lt, String.ltb. rewrite (String.compare_antisym b a).
  destruct (String.compare a b) eqn:H; simpl; auto.
  right; left. by apply String.compare_eq_iff.
Qed.

Lemma lt_asym (a b : string) : lt a b → ¬ lt b a.
Proof. intros H1 H2. exact (lt_irrefl _ (lt_trans _ _ _ H1 H2)). Qed.

Lemma ltb_false_iff (a b : string) : String.ltb a b = false ↔ a = b ∨ lt b a.
Proof.
  split.
  - intros H. destruct (lt_trichotomy a b) as [Hl|[->|Hl]]; auto.
    unfold lt in Hl. congruence.
  - intros [->|Hl].
    + apply not_true_is_false, lt_irrefl.
    + apply not_true_is_false. intros H. exact (lt_asym _ _ H Hl).
Qed.

End StrFacts.

Module planner_facts.
Import planner StrFacts.

Lemma eqb_true (a b : string) : Str.eqb a b = true ↔ a = b.
Proof. unfold Str.eqb. apply bool_decide_eq_true. Qed.

Lemma eqb_false (a b : string) : Str.eqb a b = false ↔ a ≠ b.
Proof. unfold Str.eqb. apply bool_decide_eq_false. Qed.

Lemma less_spec (a b : Task) :
  less a b = true ↔
  Str.lt (Path a) (Path b) ∨
  (Path a = Path b ∧
   (Str.lt (Kind a) (Kind b) ∨ (Kind a = Kind b ∧ Str.lt (Version a) (Version b)))).
Proof.
  unfold less.
  destruct (Str.eqb (Path a) (Path b)) eqn:Hp.
  - apply eqb_true in Hp.
    destruct (Str.eqb (Kind a) (Kind b)) eqn:Hk.
    + apply eqb_true in Hk. split.
      * intros H. right. split; [done|]. right. done.
      * intros [H|[_ [H|[_ H]]]]; [| |done].
        -- rewrite Hp in H. by destruct (lt_irrefl _ H).
        -- rewrite Hk in H. by destruct (lt_irrefl _ H).
    + apply eqb_false in Hk. split.
      * intros H. right. split; [done|]. by left.
      * intros [H|[_ [H|[H _]]]]; [|done|done].
        rewrite Hp in H. by destruct (lt_irrefl _ H).
  - apply eqb_false in Hp. split.
    + intros H. by left.
    + intros [H|[H _]]; done.
Qed.

Lemma not_after_task_le (a b : Task) : not_after a b ↔ task_le a b.
Proof.
  unfold not_after, task_le. split.
  - intros H.
    destruct (lt_trichotomy (Path a) (Path b)) as [Hp|[Hp|Hp]]; [by left| |].
    + right. split; [done|].
      destruct (lt_trichotomy (Kind a) (Kind b)) as [Hk|[Hk|Hk]]; [by left| |].
      * right. split; [done|].
        destruct (lt_trichotomy (Version a) (Version b)) as [Hv|[Hv|Hv]]; auto.
        assert (less b a = true); [|congruence].
        apply less_spec. right. split; [done|]. right. done.
      * assert (less b a = true); [|congruence].
        apply less_spec. right. split; [done|]. by left.
    + assert (less b a = true); [|congruence].
      apply less_spec. by left.
  - intros H. apply not_true_is_false. intros Hl. apply less_spec in Hl.
    destruct H as [H|[Hp [H|[Hk [H|H]]]]], Hl as [Hl|[Hp' [Hl|[Hk' Hl]]]];
      try (by eapply lt_asym; eauto);
      try (rewrite ?Hp, ?Hk, ?H in Hl; by eapply lt_irrefl; eauto);
      try (rewrite ?Hp', ?Hk' in H; by eapply lt_irrefl; eauto).
Qed.

Lemma task_le_trans (a b c : Task) : task_le a b → task_le b c → task_le a c.
Proof.
  unfold task_le.
  intros [H1|[Hp1 H1]] [H2|[Hp2 H2]].
  - left. by eapply lt_trans.
  - left. by rewrite <- Hp2.
  - left. by rewrite Hp1.
  - right. split; [congruence|].
    destruct H1 as [H1|[Hk1 H1]], H2 as [H2|[Hk2 H2]].
    + left. by eapply lt_trans.
    + left. by rewrite <- Hk2.
    + left. by rewrite Hk1.
    + right. split; [congruence|].
      destruct H1 as [H1|H1], H2 as [H2|H2].
      * left. by eapply lt_trans.
      * left. by rewrite <- H2.
      * left. by rewrite H1.
      * right. congruence.
Qed.

Lemma task_le_antisym (a b : Task) : task_le a b → task_le b a → a = b.
Proof.
  unfold task_le. destruct a as [pa ka va], b as [pb kb vb]; simpl.
  intros [H1|[-> H1]] [H2|[Hp2 H2]];
    try (by destruct (lt_asym _ _ H1 H2));
    try (by destruct (lt_irrefl _ H1));
    try (by destruct (lt_irrefl _ H2)).
  - rewrite Hp2 in H1. by destruct (lt_irrefl _ H1).
  - destruct H1 as [H1|[-> H1]], H2 as [H2|[Hk2 H2]];
      try (by destruct (lt_asym _ _ H1 H2));
      try (by destruct (lt_irrefl _ H1));
      try (by destruct (lt_irrefl _ H2)).
    + rewrite Hk2 in H1. by destruct (lt_irrefl _ H1).
    + destruct H1 as [H1| -> ], H2 as [H2|H2];
        try (by destruct (lt_asym _ _ H1 H2));
        try (by destruct (lt_irrefl _ H2)); try done.
      rewrite H2 in H1. by destruct (lt_irrefl _ H1).
Qed.

Lemma task_le_total (a b : Task) : task_le a b ∨ task_le b a.
Proof.
  unfold task_le.
  destruct (lt_trichotomy (Path a) (Path b)) as [Hp|[Hp|Hp]];
    [by left; left| |by right; left].
  destruct (lt_trichotomy (Kind a) (Kind b)) as [Hk|[Hk|Hk]].
  { left. right. split; [done|]. by left. }
  2:{ right. right. split; [done|]. by left. }
  destruct (lt_trichotomy (Version a) (Version b)) as [Hv|[Hv|Hv]].
  - left. right. split; [done|]. right. split; [done|]. by left.
  - left. right. split; [done|]. right. split; [done|]. by right.
  - right. right. split; [done|]. right. split; [done|]. by left.
Qed.

Global Instance not_after_trans : Transitive not_after.
Proof.
  intros a b c. rewrite !not_after_task_le. apply task_le_trans.
Qed.

Global Instance not_after_total : Total not_after.
Proof.
  intros a b. rewrite !not_after_task_le. apply task_le_total.
Qed.

Global Instance not_after_antisym : AntiSymm (=) not_after.
Proof.
  intros a b. rewrite !not_after_task_le. apply task_le_antisym.
Qed.

Lemma StronglySorted_iff (l : list Task) :
  StronglySorted not_after l ↔ StronglySorted task_le l.
Proof.
  induction l as [|x l IH].
  - split; constructor.
  - rewrite !StronglySorted_cons, IH.
    split; intros [Hf Hs]; (split; [|done]);
      eapply Forall_impl; try exact Hf; intros y; apply not_after_task_le.
Qed.

(** Whatever [sort.Slice] does with elements that compare equal, there is
    one outcome only: a sorted permutation of the tasks is unique. *)
Lemma sorted_by_less_unique (l1 l2 : list Task) :
  l1 ≡ₚ l2 → StronglySorted task_le l1 → StronglySorted task_le l2 → l1 = l2.
Proof.
  intros Hp H1 H2. apply (StronglySorted_unique not_after); [| |done];
    by apply StronglySorted_iff.
Qed.

(** C3. For every configuration and selection filter, the tasks returned by
    [Expand] are sorted by path ascending, then kind ascending, then version
    ascending; and the sequence is determined by the inputs alone: every
    sorted arrangement of the expanded tasks, however the sort treats equal
    elements, is this very sequence. *)
Theorem Expand_sorted_deterministic (cfg : config.Root) (selected : gset string) :
  StronglySorted task_le (Tasks (Expand cfg selected)) ∧
  Tasks (Expand cfg selected) ≡ₚ unsorted cfg selected ∧
  ∀ l : list Task,
    l ≡ₚ unsorted cfg selected → StronglySorted task_le l →
    l = Tasks (Expand cfg selected).
Proof.
  assert (Hs : StronglySorted task_le (Tasks (Expand cfg selected))).
  { apply StronglySorted_iff. simpl. unfold sort_Slice.
    apply StronglySorted_merge_sort; apply _. }
  assert (Hp : Tasks (Expand cfg selected) ≡ₚ unsorted cfg selected).
  { simpl. unfold sort_Slice. apply merge_sort_Permutation. }
  split; [done|]. split; [done|].
  intros l Hl Hsl. apply sorted_by_less_unique; [|done|done].
  by rewrite Hl, Hp.
Qed.

(** Scenario A of the specification. *)
Example scenario_A : Tasks (Expand example.cfg ∅) = [example.task].
Proof. vm_compute. reflexivity. Qed.

(** Scenario B of the specification. *)
Example scenario_B :
  Tasks (Expand example.cfg_B ∅) =
    [{| Path := "api"; Kind := "dotnet"; Version := "6.0.415" |};
     {| Path := "api"; Kind := "dotnet"; Version := "8.0.100" |};
     {| Path := "web"; Kind := "node"; Version := "18.20.2" |}].
Proof. vm_compute. reflexivity. Qed.

(** The selection filter. *)
Example only_web :
  Tasks (Expand example.cfg_B {["web"]}) =
    [{| Path := "web"; Kind := "node"; Version := "18.20.2" |}].
Proof. vm_compute. reflexivity. Qed.

End planner_facts.

Module sha256_facts.
Import sha256.
Local Open Scope N_scope.

Lemma length_be_bytes (n : nat) (x : N) : length (be_bytes n x) = n.
Proof. unfold be_bytes. by rewrite length_map, length_rev, length_seq. Qed.

Lemma be_bytes_byte (n : nat) (x b : N) : In b (be_bytes n x) → b < 256.
Proof.
  unfold be_bytes. rewrite in_map_iff. intros (i & <- & _).
  change 0xff with (N.ones 8). rewrite N.land_ones.
  apply N.mod_lt. done.
Qed.

Lemma length_digest_bytes (s : state) : length (digest_bytes s) = 32%nat.
Proof. unfold digest_bytes. by rewrite !length_app, !length_be_bytes. Qed.

Lemma digest_bytes_byte (s : state) (b : N) : In b (digest_bytes s) → b < 256.
Proof.
  unfold digest_bytes. rewrite !in_app_iff.
  intros [H|[H|[H|[H|[H|[H|[H|H]]]]]]]; by eapply be_bytes_byte.
Qed.

Lemma length_Sum (m : string) : length (Sum m) = 32%nat.
Proof. apply length_digest_bytes. Qed.

Lemma Sum_byte (m : string) (b : N) : In b (Sum m) → b < 256.
Proof. apply digest_bytes_byte. Qed.

Lemma length_string_of_list_ascii (l : list ascii) :
  String.length (string_of_list_ascii l) = length l.
Proof. induction l as [|c l IH]; simpl; congruence. Qed.

Lemma length_hex (bytes : list N) : String.length (hex bytes) = (2 * length bytes)%nat.
Proof.
  unfold hex. rewrite length_string_of_list_ascii.
  induction bytes as [|b bytes IH]; simpl; [done|]. rewrite IH. lia.
Qed.

Lemma hex_digit_lower (n : N) : n < 16 → Str.is_lower_hex (hex_digit n) = true.
Proof.
  intros Hn.
  assert (Hc : n = 0 ∨ n = 1 ∨ n = 2 ∨ n = 3 ∨ n = 4 ∨ n = 5 ∨ n = 6 ∨ n = 7 ∨
               n = 8 ∨ n = 9 ∨ n = 10 ∨ n = 11 ∨ n = 12 ∨ n = 13 ∨ n = 14 ∨ n = 15)
    by lia.
  repeat destruct Hc as [->|Hc]; try reflexivity. subst n. reflexivity.
Qed.

Lemma hex_lower (bytes : list N) :
  (∀ b, In b bytes → b < 256) → Str.all_chars Str.is_lower_hex (hex bytes) = true.
Proof.
  intros Hb. unfold Str.all_chars, hex.
  rewrite list_ascii_of_string_of_list_ascii.
  induction bytes as [|b bytes IH]; simpl; [done|].
  assert (b < 256) as Hlt by (apply Hb; by left).
  rewrite !andb_true_iff. split; [|split].
  - apply hex_digit_lower. rewrite N.shiftr_div_pow2.
    change (2 ^ 4) with 16. apply N.Div0.div_lt_upper_bound. lia.
  - apply hex_digit_lower. change 0xf with (N.ones 4). rewrite N.land_ones.
    apply N.mod_lt. done.
  - apply IH. intros b' Hb'. apply Hb. by right.
Qed.

End sha256_facts.

Module StrMore.

Lemma substring_0_chars (n : nat) (s : string) :
  list_ascii_of_string (String.substring 0 n s) = take n (list_ascii_of_string s).
Proof.
  revert s. induction n as [|n IH]; intros [|c s]; simpl; try done.
  by rewrite IH.
Qed.

Lemma length_chars (s : string) : length (list_ascii_of_string s) = String.length s.
Proof. induction s as [|c s IH]; simpl; congruence. Qed.

Lemma length_substring_0 (n : nat) (s : string) :
  (n ≤ String.length s)%nat → String.length (String.substring 0 n s) = n.
Proof.
  intros Hn. rewrite <- length_chars, substring_0_chars, length_take, length_chars. lia.
Qed.

Lemma all_chars_substring_0 (ok : ascii → bool) (n : nat) (s : string) :
  Str.all_chars ok s = true → Str.all_chars ok (String.substring 0 n s) = true.
Proof.
  unfold Str.all_chars. rewrite substring_0_chars, !forallb_forall.
  intros H c Hc. apply H. apply list_elem_of_In. apply list_elem_of_In in Hc.
  by eapply subseteq_take.
Qed.

End StrMore.

Module cache_facts.
Import os cache.

Lemma digest_length (cwd : list string) (task : planner.Task) (root : string) (fs : FS) :
  String.length (digest cwd task root fs) = 64%nat.
Proof. unfold digest. by rewrite sha256_facts.length_hex, sha256_facts.length_Sum. Qed.

Lemma lock_bytes_agree (cwd : list string) (fs1 fs2 : FS) (f : filepath.t) :
  (ReadFile cwd f fs1).1 = (ReadFile cwd f fs2).1 →
  lock_bytes cwd fs1 f = lock_bytes cwd fs2 f.
Proof.
  unfold lock_bytes. intros H. destruct (validatePath f); [done|].
  destruct (ReadFile cwd f fs1) as [r1 s1], (ReadFile cwd f fs2) as [r2 s2].
  simpl in H. by subst.
Qed.

(** C2. The key is a function of the task, the workspace root and the lock
    and definition files alone: two file-system states in which [Key] finds
    the same lock files with the same contents give the same key, whatever
    else differs between them. *)
Theorem Key_deterministic (cwd : list string) (task : planner.Task) (workspaceRoot : string)
    (fs1 fs2 : FS) :
  let projectDir := filepath.Join [workspaceRoot; planner.Path task] in
  findLockFiles cwd projectDir (planner.Kind task) fs1 =
    findLockFiles cwd projectDir (planner.Kind task) fs2 →
  Forall (λ f, (ReadFile cwd f fs1).1 = (ReadFile cwd f fs2).1)
         (findLockFiles cwd projectDir (planner.Kind task) fs1) →
  Key cwd task workspaceRoot fs1 = Key cwd task workspaceRoot fs2.
Proof.
  intros projectDir Hfiles Hread.
  unfold Key, digest, key_input. fold projectDir. rewrite <- Hfiles.
  enough (map (lock_bytes cwd fs1)
            (sort_paths (findLockFiles cwd projectDir (planner.Kind task) fs1)) =
          map (lock_bytes cwd fs2)
            (sort_paths (findLockFiles cwd projectDir (planner.Kind task) fs1))) as ->
    by done.
  apply map_ext_in. intros f Hf. apply lock_bytes_agree.
  rewrite Forall_forall in Hread. apply Hread.
  apply list_elem_of_In in Hf. unfold sort_paths in Hf.
  by rewrite merge_sort_Permutation in Hf.
Qed.

Lemma Key_deterministic_witness :
  Key ["ws"] example.task "/ws" example.fs0 =
  Key ["ws"] example.task "/ws" example.fs0_edited.
Proof.
  apply (Key_deterministic ["ws"] example.task "/ws" example.fs0 example.fs0_edited).
  - vm_compute. reflexivity.
  - replace (findLockFiles ["ws"] (filepath.Join ["/ws"; planner.Path example.task])
               (planner.Kind example.task) example.fs0)
      with [filepath.Abs ["ws"; "api"; "api.csproj"]] by (vm_compute; reflexivity).
    constructor; [vm_compute; reflexivity|constructor].
Defined.

(** C6, at the failing input.  The two tasks differ in path and in
    version, the planner emits both for one configuration, and [Key] gives
    them one key: it writes kind, version and path into the hash one after
    the other with nothing between them, and both tasks spell
    [node20.11/app]. *)
Theorem Key_collision :
  example.task_a ≠ example.task_b ∧
  planner.Tasks (planner.Expand example.cfg_two_apps ∅) = [example.task_b; example.task_a] ∧
  key_input ["ws"] example.task_a "/ws" example.fs_two_apps =
    key_input ["ws"] example.task_b "/ws" example.fs_two_apps ∧
  Key ["ws"] example.task_a "/ws" example.fs_two_apps =
    Key ["ws"] example.task_b "/ws" example.fs_two_apps.
Proof.
  split; [discriminate|]. split; [vm_compute; reflexivity|].
  split; vm_compute; reflexivity.
Qed.

End cache_facts.

Module main_facts.
Import os sys main.

Ltac run_monad :=
  unfold mbind, M_bind, bind, mret, M_ret, ret, fail, try, now, look, log, emit.



Lemma finish_ok env start task key outDir reused w :
  (finish env start task key outDir reused w).1 = Ok tt.
Proof.
  unfold finish. run_monad.
  destruct (artifact.WriteManifest _ _ _ _) as [r w']. by destruct reused.
Qed.

Lemma run_tasks_ok env flags cfg root tasks w :
  ∃ errs w', run_tasks env flags cfg root tasks w = (Ok errs, w').
Proof.
  revert w. induction tasks as [|t ts IH]; intros w; simpl.
  - by eexists _, _.
  - run_monad. destruct (runTask env flags cfg root t w) as [r w1].
    destruct (IH w1) as (errs & w2 & ->). destruct r; by eexists _, _.
Qed.

Lemma run_tasks_app env flags cfg root pre post w errs1 w1 errs2 w2 :
  run_tasks env flags cfg root pre w = (Ok errs1, w1) →
  run_tasks env flags cfg root post w1 = (Ok errs2, w2) →
  run_tasks env flags cfg root (pre ++ post) w = (Ok (errs1 ++ errs2), w2).
Proof.
  revert w errs1. induction pre as [|t ts IH]; intros w errs1; simpl.
  - run_monad. intros [= <- <-]. done.
  - run_monad. destruct (runTask env flags cfg root t w) as [r w'].
    destruct (run_tasks_ok env flags cfg root ts w') as (errs & w'' & Hts).
    rewrite Hts. intros Heq Hpost.
    assert (w'' = w1) as -> by (destruct r; congruence).
    rewrite (IH _ _ Hts Hpost).
    destruct r; inversion Heq; subst; done.
Qed.

Lemma runTask_unfold env flags cfg root task w :
  runTask env flags cfg root task w =
    let key := (cache.Key (cwd env) task root (fs w)).1 in
    let outDir := filepath.Join ["out"; planner.Path task; planner.Version task] in
    let start := clock env (trace w) in
    if cache_hit env flags key w then
      match restore_branch env key outDir w with
      | (Ok _, w') => finish env start task key outDir true w'
      | (Err e, w') => (Err e, w')
      end
    else
      match build_branch env flags cfg root task key outDir w with
      | (Ok _, w') => finish env start task key outDir false w'
      | (Err e, w') => (Err e, w')
      end.
Proof.
  unfold runTask. run_monad. cbn [fst snd cache.Key].
  by destruct (cache_hit _ _ _ _).
Qed.



Lemma publish_step_failure env flags root task dockerCfg w2 e w3 :
  flagNoDocker flags = false → docker_enabled dockerCfg = true →
  docker.BuildAndPush env (planner.Path task) (override_push flags dockerCfg) root w2 =
    (Err e, w3) →
  publish_step env flags root task dockerCfg w2 =
    (Ok tt, {| fs := fs w3;
               trace := trace w3 ++ [Log "ERROR" "Docker image build/push failed";
                                     Log "WARN" "continuing with build despite Docker failure"] |}).
Proof.
  intros Hnd Hen Hbp. unfold publish_step. rewrite Hnd, Hen. simpl.
  run_monad. rewrite Hbp. simpl. by rewrite <- app_assoc.
Qed.

Lemma runTask_restore_failure env flags cfg root task w e fs' :
  let key := (cache.Key (cwd env) task root (fs w)).1 in
  let outDir := filepath.Join ["out"; planner.Path task; planner.Version task] in
  cache_hit env flags key w = true →
  cache.Restore (cwd env) key outDir (fs w) = (Err e, fs') →
  runTask env flags cfg root task w =
    (Err e, {| fs := fs';
               trace := trace w ++ [Log "INFO" "cache hit";
                                    Log "ERROR" "cache restore failed"] |}).
Proof.
  intros key outDir Hhit Hre.
  rewrite runTask_unfold. cbv zeta. fold key outDir. rewrite Hhit.
  unfold restore_branch. run_monad. unfold on_fs. simpl.
  rewrite Hre. simpl. by rewrite <- app_assoc.
Qed.

Lemma run_tasks_failure env flags cfg root pre task post w0 errs_pre w e w' :
  run_tasks env flags cfg root pre w0 = (Ok errs_pre, w) →
  runTask env flags cfg root task w = (Err e, w') →
  ∃ errs_post w'',
    run_tasks env flags cfg root (pre ++ task :: post) w0 =
      (Ok (errs_pre ++ e :: errs_post), w'').
Proof.
  intros Hpre Ht.
  destruct (run_tasks_ok env flags cfg root post w') as (errs_post & w'' & Hpost).
  exists errs_post, w''. eapply run_tasks_app; [done|].
  simpl. run_monad. by rewrite Ht, Hpost.
Qed.

(** What [runBuild] makes of the errors on [errCh]. *)
Lemma runBuild_aggregate env flags w0 cfg w1 w2 errs w3 :
  flagDryRun flags = false →
  load_config env flags w0 = (Ok cfg, w1) →
  let plan := planner.Expand cfg (parseOnly flags) in
  preflight env flags cfg plan
    {| fs := fs w1; trace := trace w1 ++ [Log "INFO" "starting builds"] |} = (Ok tt, w2) →
  run_tasks env flags cfg (Getwd env) (planner.Tasks plan) w2 = (Ok errs, w3) →
  runBuild env flags w0 =
    match errs with
    | [] => (Ok tt, {| fs := fs w3; trace := trace w3 ++ [Log "INFO" "all tasks completed"] |})
    | _ :: _ => (Err "one or more builds failed", w3)
    end.
Proof.
  intros Hdry Hload plan Hpre Hrun.
  unfold runBuild. rewrite Hdry. run_monad. rewrite Hload. simpl.
  fold plan. rewrite Hpre. simpl in Hrun. rewrite Hrun. by destruct errs.
Qed.



(** C1, at the failing input: a fresh checkout, caching enabled, built
    twice with nothing changed in between.  The first run succeeds, but its
    [Store] comes before the manifest is written and finds no output
    directory to copy, so no entry with a manifest exists afterwards; the
    second run is a miss, builds again, and writes a manifest with
    [reused] false.  Only the third run is a hit. *)
Theorem second_run_is_not_reused :
  let run1 := main_build example.env example.flags (example.start example.fs0) in
  let run2 := main_build example.env example.flags (example.start (fs run1.2)) in
  let run3 := main_build example.env example.flags (example.start (fs run2.2)) in
  run1.1 = ExitSuccess ∧
  example.logs run1.2 =
    ["starting builds"; "build start"; "docker run spec"; "cache store failed";
     "build complete"; "all tasks completed"] ∧
  cache.Key ["ws"] example.task "/ws" (fs run1.2) = (example.key, None) ∧
  cache.Exists ["ws"] example.key (fs run1.2) = false ∧
  run2.1 = ExitSuccess ∧
  example.logs run2.2 =
    ["starting builds"; "build start"; "docker run spec";
     "build complete"; "all tasks completed"] ∧
  fs run2.2 !! ["ws"; "out"; "api"; "6.0.415"; "manifest.json"] =
    Some (File (artifact.MarshalIndent
      {| artifact.Project := "api"; artifact.Kind := "dotnet";
         artifact.Toolchain := "dotnet"; artifact.Version := "6.0.415";
         artifact.Hash := example.key; artifact.BuildTimeMs := 3;
         artifact.Reused := false;
         artifact.CreatedAt := "2025-01-15T10:30:00Z" |})) ∧
  example.logs run3.2 =
    ["starting builds"; "cache hit"; "build reused"; "all tasks completed"].
Proof.
  cbv zeta. repeat split; vm_compute; reflexivity.
Qed.

(** C8, as stated, fails: a run whose only failure is a [Restore] that
    cannot create the output directory exits with code 1, not 3. *)
Lemma restore_failure_exit_is_1_not_3 :
  let w := example.start example.fs_blocked in
  cache.Restore ["ws"] example.key example.outDir example.fs_blocked =
    (Err "create dest dir: mkdir out/api/6.0.415: not a directory", example.fs_blocked) ∧
  example.logs (main_build example.env example.flags w).2 =
    ["starting builds"; "cache hit"; "cache restore failed"] ∧
  (main_build example.env example.flags w).1 = ExitBuildFailure ∧
  (main_build example.env example.flags w).1 ≠ ExitInternalError.
Proof.
  cbv zeta. split; [compute_done|]. split; [compute_done|].
  split; [compute_done|]. vm_compute. discriminate.
Qed.

(** C8, amended.  When the configuration loads, the Docker check passes
    and some task of the plan hits the cache and its [Restore] fails, the
    error reaches [errCh], [runBuild] returns the aggregate error, and the
    process exits with code 1, as it does for a failed build. *)
Theorem restore_failure_exit_code (env : Env) (flags : Flags) (w0 : World)
    (cfg : config.Root) (w1 w2 w : World) (pre post : list planner.Task)
    (task : planner.Task) (errs_pre : list error) (e : error) (fs' : FS) :
  let plan := planner.Expand cfg (parseOnly flags) in
  let key := (cache.Key (cwd env) task (Getwd env) (fs w)).1 in
  let outDir := filepath.Join ["out"; planner.Path task; planner.Version task] in
  flagDryRun flags = false →
  load_config env flags w0 = (Ok cfg, w1) →
  preflight env flags cfg plan
    {| fs := fs w1; trace := trace w1 ++ [Log "INFO" "starting builds"] |} = (Ok tt, w2) →
  planner.Tasks plan = pre ++ task :: post →
  run_tasks env flags cfg (Getwd env) pre w2 = (Ok errs_pre, w) →
  cache_hit env flags key w = true →
  cache.Restore (cwd env) key outDir (fs w) = (Err e, fs') →
  (runBuild env flags w0).1 = Err "one or more builds failed" ∧
  (main_build env flags w0).1 = ExitBuildFailure.
Proof.
  intros plan key outDir Hdry Hload Hpre Hplan Hrun Hhit Hre.
  pose proof (runTask_restore_failure env flags cfg (Getwd env) task w e fs' Hhit Hre)
    as Htask.
  destruct (run_tasks_failure env flags cfg (Getwd env) pre task post w2 errs_pre w e _
              Hrun Htask) as (errs_post & w3 & Hall).
  rewrite <- Hplan in Hall.
  pose proof (runBuild_aggregate env flags w0 cfg w1 w2 _ w3 Hdry Hload Hpre Hall) as Hb.
  assert (runBuild env flags w0 = (Err "one or more builds failed", w3)) as Hb'.
  { rewrite Hb. by destruct errs_pre. }
  unfold main_build. rewrite Hb'. split; [done|]. vm_compute. reflexivity.
Qed.

Lemma restore_failure_exit_code_witness :
  (runBuild example.env example.flags (example.start example.fs_blocked)).1 =
    Err "one or more builds failed" ∧
  (main_build example.env example.flags (example.start example.fs_blocked)).1 =
    ExitBuildFailure.
Proof.
  apply (restore_failure_exit_code example.env example.flags
           (example.start example.fs_blocked) example.cfg
           (example.start example.fs_blocked)
           {| fs := example.fs_blocked; trace := [Log "INFO" "starting builds"] |}
           {| fs := example.fs_blocked; trace := [Log "INFO" "starting builds"] |}
           [] [] example.task []
           "create dest dir: mkdir out/api/6.0.415: not a directory"
           example.fs_blocked).
  - reflexivity.
  - compute_done.
  - compute_done.
  - vm_compute. reflexivity.
  - compute_done.
  - vm_compute. reflexivity.
  - compute_done.
Defined.

(** C10. [Key] never fails: for every task, workspace root and file
    system, a missing project directory or missing lock files included, the
    error it returns is nil; the digest it slices has sixty-four characters,
    so the slice of twelve is in range and the call cannot panic either; and
    the key is twelve lower-case hexadecimal digits.  The scheduler's branch
    for a failed key is therefore dead: what a task does is what the rest of
    the goroutine does. *)
Theorem Key_never_fails (cwd : list string) (task : planner.Task) (workspaceRoot : string)
    (fs : FS) :
  (cache.Key cwd task workspaceRoot fs).2 = None ∧
  (12 ≤ String.length (cache.digest cwd task workspaceRoot fs))%nat ∧
  String.length (cache.Key cwd task workspaceRoot fs).1 = 12%nat ∧
  Str.all_chars Str.is_lower_hex (cache.Key cwd task workspaceRoot fs).1 = true ∧
  ∀ (env : Env) (flags : Flags) (cfg : config.Root) (w : World),
    runTask env flags cfg workspaceRoot task w =
      let key := (cache.Key (sys.cwd env) task workspaceRoot (sys.fs w)).1 in
      let outDir := filepath.Join ["out"; planner.Path task; planner.Version task] in
      let start := clock env (trace w) in
      if cache_hit env flags key w then
        match restore_branch env key outDir w with
        | (Ok _, w') => finish env start task key outDir true w'
        | (Err e, w') => (Err e, w')
        end
      else
        match build_branch env flags cfg workspaceRoot task key outDir w with
        | (Ok _, w') => finish env start task key outDir false w'
        | (Err e, w') => (Err e, w')
        end.
Proof.
  split; [done|]. split; [rewrite cache_facts.digest_length; lia|].
  unfold cache.Key. cbn [fst]. split; [|split].
  - apply StrMore.length_substring_0. rewrite cache_facts.digest_length. lia.
  - apply StrMore.all_chars_substring_0. unfold cache.digest.
    apply sha256_facts.hex_lower, sha256_facts.Sum_byte.
  - intros env flags cfg w. apply runTask_unfold.
Qed.

End main_facts.

Module docker_facts.
Import os sys docker.

Lemma repo_char_allow_listed (c : ascii) : repo_char c = true ↔ allow_listed c.
Proof.
  unfold repo_char, tag_char, allow_listed.
  rewrite !orb_true_iff, !Ascii.eqb_eq. tauto.
Qed.

Lemma all_chars_false (ok : ascii → bool) (s : string) (c : ascii) :
  In c (list_ascii_of_string s) → ok c = false → Str.all_chars ok s = false.
Proof.
  intros Hin Hc. unfold Str.all_chars.
  apply not_true_is_false. intros Hall.
  rewrite forallb_forall in Hall. specialize (Hall c Hin). congruence.
Qed.

Lemma validateRepositoryName_rejects (repo : string) (c : ascii) :
  In c (list_ascii_of_string repo) → ¬ allow_listed c →
  validateRepositoryName repo = Some ("invalid repository name: " +:+ repo).
Proof.
  intros Hin Hc. unfold validateRepositoryName, matches_repo.
  rewrite (all_chars_false repo_char repo c Hin).
  - by rewrite andb_false_r.
  - apply not_true_is_false. by rewrite repo_char_allow_listed.
Qed.

Lemma BuildAndPush_rejects (env : Env) (projectPath workspaceRoot : string)
    (dc : config.DockerConfig) (c : ascii) (w : World) :
  config.Enabled dc = true →
  In c (list_ascii_of_string (config.Repository dc)) →
  ¬ allow_listed c →
  BuildAndPush env projectPath (Some dc) workspaceRoot w =
    (Err ("security check failed: invalid repository name: " +:+ config.Repository dc), w).
Proof.
  intros Hen Hin Hc. unfold BuildAndPush. rewrite Hen. simpl.
  by rewrite (validateRepositoryName_rejects _ c Hin Hc).
Qed.

(** C9. An enabled publish configuration whose repository holds a character
    outside the allow-list makes [BuildAndPush] return the validation error
    and leave the world as it was: no external process was started, no
    event of any kind recorded.  The outcome is an error value, which the
    scheduler logs as a failed publish and does not pass on: the publish
    step of the task ends without error. *)
Theorem BuildAndPush_rejects_repository (env : Env) (projectPath workspaceRoot : string)
    (dc : config.DockerConfig) (c : ascii) (w : World) :
  config.Enabled dc = true →
  In c (list_ascii_of_string (config.Repository dc)) →
  ¬ allow_listed c →
  BuildAndPush env projectPath (Some dc) workspaceRoot w =
    (Err ("security check failed: invalid repository name: " +:+ config.Repository dc), w)
  ∧ commands (BuildAndPush env projectPath (Some dc) workspaceRoot w).2 = commands w
  ∧ ∀ (flags : main.Flags) (task : planner.Task),
      main.flagNoDocker flags = false → planner.Path task = projectPath →
      main.publish_step env flags workspaceRoot task (Some dc) w =
        (Ok tt,
         {| fs := fs w;
            trace := trace w ++ [Log "ERROR" "Docker image build/push failed";
                                 Log "WARN" "continuing with build despite Docker failure"] |}).
Proof.
  intros Hen Hin Hc.
  rewrite (BuildAndPush_rejects env projectPath workspaceRoot dc c w Hen Hin Hc).
  split; [done|]. split; [done|].
  intros flags task Hnd <-.
  eapply main_facts.publish_step_failure; [done|done|].
  unfold main.override_push. destruct (main.flagPushImages flags).
  - exact (BuildAndPush_rejects env (planner.Path task) workspaceRoot
             {| config.Enabled := config.Enabled dc;
                config.Repository := config.Repository dc;
                config.Tags := config.Tags dc;
                config.Push := true;
                config.Registries := config.Registries dc;
                config.Dockerfile := config.Dockerfile dc |} c w Hen Hin Hc).
  - exact (BuildAndPush_rejects env (planner.Path task) workspaceRoot dc c w Hen Hin Hc).
Qed.

Lemma BuildAndPush_rejects_repository_witness :
  BuildAndPush example.env "api" (Some example.scenario_D) "/ws" (example.start example.fs0) =
    (Err "security check failed: invalid repository name: repo;rm -rf",
     example.start example.fs0)
  ∧ commands (BuildAndPush example.env "api" (Some example.scenario_D) "/ws"
                (example.start example.fs0)).2 = []
  ∧ ∀ (flags : main.Flags) (task : planner.Task),
      main.flagNoDocker flags = false → planner.Path task = "api" →
      main.publish_step example.env flags "/ws" task (Some example.scenario_D)
        (example.start example.fs0) =
        (Ok tt,
         {| fs := example.fs0;
            trace := [Log "ERROR" "Docker image build/push failed";
                      Log "WARN" "continuing with build despite Docker failure"] |}).
Proof.
  apply (BuildAndPush_rejects_repository example.env "api" "/ws" example.scenario_D ";"%char).
  - reflexivity.
  - simpl. tauto.
  - intros [H|[H|[H|[H|H]]]]; discriminate H.
Defined.

End docker_facts.

Module filepath_facts.
Import filepath.

Lemma comps_of_child (p : t) (n : string) : comps_of (child p n) = comps_of p ++ [n].
Proof. by destruct p. Qed.

Lemma comps_of_descend (p : t) (rel : list string) :
  comps_of (descend p rel) = comps_of p ++ rel.
Proof.
  unfold descend. revert p. induction rel as [|n rel IH]; intros p; simpl.
  - by rewrite app_nil_r.
  - rewrite IH, comps_of_child. by rewrite <- app_assoc.
Qed.

Lemma descend_Rel (cs rel : list string) : descend (Rel cs) rel = Rel (cs ++ rel).
Proof.
  unfold descend. revert cs. induction rel as [|n rel IH]; intros cs; simpl.
  - by rewrite app_nil_r.
  - rewrite IH. by rewrite <- app_assoc.
Qed.

Lemma descend_Abs (cs rel : list string) : descend (Abs cs) rel = Abs (cs ++ rel).
Proof.
  unfold descend. revert cs. induction rel as [|n rel IH]; intros cs; simpl.
  - by rewrite app_nil_r.
  - rewrite IH. by rewrite <- app_assoc.
Qed.

Lemma descend_app (p : t) (r1 r2 : list string) :
  descend p (r1 ++ r2) = descend (descend p r1) r2.
Proof. unfold descend. by rewrite foldl_app. Qed.

Lemma resolve_step_plain (acc : list string) (c : string) :
  c ≠ ".." → resolve_step acc c = acc ++ [c].
Proof.
  intros Hc. unfold resolve_step, Str.eqb. by rewrite bool_decide_eq_false_2.
Qed.

Lemma foldl_resolve_step_plain (acc rel : list string) :
  ".." ∉ rel → foldl resolve_step acc rel = acc ++ rel.
Proof.
  revert acc. induction rel as [|c rel IH]; intros acc Hrel; simpl.
  - by rewrite app_nil_r.
  - rewrite resolve_step_plain by set_solver.
    rewrite IH by set_solver. by rewrite <- app_assoc.
Qed.

(** Below a path that leads somewhere, plain names lead further down. *)
Lemma resolve_descend (cwd : list string) (p : t) (k rel : list string) :
  resolve cwd p = Some k → ".." ∉ rel →
  resolve cwd (descend p rel) = Some (k ++ rel).
Proof.
  intros Hp Hrel. destruct p as [|cs|cs]; simpl in Hp; [done| |].
  - injection Hp as <-. rewrite descend_Rel. simpl.
    by rewrite foldl_app, foldl_resolve_step_plain.
  - injection Hp as <-. by rewrite descend_Abs.
Qed.

Lemma resolve_child (cwd : list string) (p : t) (k : list string) (n : string) :
  resolve cwd p = Some k → n ≠ ".." → resolve cwd (child p n) = Some (k ++ [n]).
Proof.
  intros Hp Hn. apply (resolve_descend cwd p k [n] Hp).
  intros Hin. apply list_elem_of_singleton in Hin. congruence.
Qed.

Lemma Rel_to_descend (p : t) (rel : list string) : Rel_to p (descend p rel) = Some rel.
Proof.
  unfold Rel_to. rewrite comps_of_descend.
  rewrite take_app_length, drop_app_length.
  assert (is_abs p = is_abs (descend p rel)) as <-.
  { destruct p; [|by rewrite descend_Rel|by rewrite descend_Abs].
    unfold descend. destruct rel as [|n rel]; [done|]. simpl.
    change (foldl child (Rel [n]) rel) with (descend (Rel [n]) rel).
    by rewrite descend_Rel. }
  by rewrite !bool_decide_eq_true_2.
Qed.

Lemma Dir_descend_snoc (p : t) (rel : list string) (n : string) :
  p ≠ Empty → Dir (descend p (rel ++ [n])) = descend p rel.
Proof.
  intros Hp. destruct p as [|cs|cs]; [done| |].
  - rewrite !descend_Rel. simpl. unfold drop_last.
    by rewrite app_assoc, removelast_last.
  - rewrite !descend_Abs. simpl. unfold drop_last.
    by rewrite app_assoc, removelast_last.
Qed.

End filepath_facts.

Module validate_facts.
Import filepath cache.

Lemma prefix_cons (a b : ascii) (s1 s2 : string) :
  String.prefix (String a s1) (String b s2) =
    if ascii_dec a b then String.prefix s1 s2 else false.
Proof. reflexivity. Qed.

Lemma prefix_nil (s : string) : String.prefix "" s = true.
Proof. by destruct s. Qed.

Lemma prefix_dot_slash (s : string) : String.prefix "." (String "/" s) = false.
Proof.
  rewrite prefix_cons. by destruct (ascii_dec "." "/") as [Heq|_]; [discriminate Heq|].
Qed.

Lemma prefix_dots_sep (x : ascii) (c s : string) :
  String.prefix ".." (String x (c +:+ "/" +:+ s)) = String.prefix ".." (String x c).
Proof.
  rewrite !prefix_cons. destruct (ascii_dec "." x) as [_|_]; [|done].
  destruct c as [|y c].
  - change ("" +:+ "/" +:+ s) with (String "/" s). rewrite prefix_dot_slash.
    reflexivity.
  - change (String y c +:+ "/" +:+ s) with (String y (c +:+ "/" +:+ s)).
    rewrite !prefix_cons, !prefix_nil. done.
Qed.

Lemma Contains_cons (x : ascii) (s sub : string) :
  Str.Contains (String x s) sub =
    if String.prefix sub (String x s) then true else Str.Contains s sub.
Proof. reflexivity. Qed.

Lemma Contains_dots_slash (s : string) :
  Str.Contains (String "/" s) ".." = Str.Contains s "..".
Proof.
  rewrite Contains_cons, prefix_cons.
  by destruct (ascii_dec "." "/") as [Heq|_]; [discriminate Heq|].
Qed.

Lemma Contains_dots_sep (c s : string) :
  Str.Contains (c +:+ "/" +:+ s) ".." = Str.Contains c ".." || Str.Contains s "..".
Proof.
  induction c as [|x c IH].
  - change ("" +:+ "/" +:+ s) with (String "/" s). by rewrite Contains_dots_slash.
  - change (String x c +:+ "/" +:+ s) with (String x (c +:+ "/" +:+ s)).
    rewrite !Contains_cons, prefix_dots_sep, IH.
    by destruct (String.prefix ".." (String x c)).
Qed.

Lemma Contains_dots_join (l : list string) :
  Str.Contains (Str.Join l "/") ".." = existsb (λ c, Str.Contains c "..") l.
Proof.
  unfold Str.Join. induction l as [|c l IH]; [done|].
  destruct l as [|c' l].
  - simpl. by rewrite orb_false_r.
  - change (String.concat "/" (c :: c' :: l))
      with (c +:+ "/" +:+ String.concat "/" (c' :: l)).
    by rewrite Contains_dots_sep, IH.
Qed.

Lemma Contains_dots_to_string (p : t) :
  Str.Contains (to_string p) ".." = existsb (λ c, Str.Contains c "..") (comps_of p).
Proof.
  destruct p as [|cs|cs].
  - done.
  - destruct cs as [|c cs]; [done|]. apply (Contains_dots_join (c :: cs)).
  - change (to_string (Abs cs)) with (String "/" (Str.Join cs "/")).
    rewrite Contains_dots_slash. apply Contains_dots_join.
Qed.

Lemma validatePath_None (p : t) : validatePath p = None ↔ Forall nodots (comps_of p).
Proof.
  unfold validatePath. rewrite Contains_dots_to_string.
  destruct (existsb _ _) eqn:E.
  - split; [done|]. intros HF. apply existsb_exists in E as (c & Hin & Hc).
    rewrite Forall_forall in HF. apply list_elem_of_In in Hin.
    specialize (HF c Hin). unfold nodots in HF. congruence.
  - split; [|done]. intros _. apply Forall_forall. intros c Hin.
    unfold nodots. apply not_true_is_false. intros Hc.
    assert (existsb (λ c, Str.Contains c "..") (comps_of p) = true); [|congruence].
    apply existsb_exists. exists c. split; [|done]. by apply list_elem_of_In.
Qed.

Lemma nodots_plain (n : string) : nodots n → n ≠ "..".
Proof. intros H ->. discriminate H. Qed.

Lemma Forall_nodots_plain (l : list string) : Forall nodots l → ".." ∉ l.
Proof.
  intros H Hin. rewrite Forall_forall in H. by apply (nodots_plain _ (H _ Hin)).
Qed.


End validate_facts.

Module os_facts.
Import os.

Lemma elem_of_prefixes (q k : list string) : q ∈ prefixes k ↔ q `prefix_of` k.
Proof.
  unfold prefixes. rewrite list_elem_of_fmap. split.
  - intros (n & -> & _). exists (drop n k). by rewrite take_drop.
  - intros [r ->]. exists (length q). split.
    + by rewrite take_app_length.
    + apply elem_of_seq. rewrite length_app. lia.
Qed.

Lemma lookup_mkdirs (fs : FS) (l : list (list string)) (q : list string) :
  mkdirs fs l !! q = if bool_decide (q ∈ l) then Some Directory else fs !! q.
Proof.
  unfold mkdirs. induction l as [|p l IH]; simpl.
  - done.
  - destruct (decide (p = q)) as [->|Hne].
    + rewrite lookup_insert_eq. rewrite bool_decide_eq_true_2; [done|]. by left.
    + rewrite lookup_insert_ne by done. rewrite IH.
      destruct (bool_decide (q ∈ l)) eqn:E.
      * apply bool_decide_eq_true in E. rewrite bool_decide_eq_true_2; [done|].
        by right.
      * apply bool_decide_eq_false in E. rewrite bool_decide_eq_false_2; [done|].
        intros [?|?]%elem_of_cons; congruence.
Qed.

Lemma no_file_above (fs : FS) (k : list string) :
  existsb (λ q, is_file (fs !! q)) (prefixes k) = false ↔
  ∀ q, q `prefix_of` k → is_file (fs !! q) = false.
Proof.
  split.
  - intros H q Hq. apply not_true_is_false. intros Hf.
    assert (existsb (λ q, is_file (fs !! q)) (prefixes k) = true); [|congruence].
    apply existsb_exists. exists q. split; [|done].
    apply list_elem_of_In. by apply elem_of_prefixes.
  - intros H. apply not_true_is_false. intros Hex.
    apply existsb_exists in Hex as (q & Hin & Hf).
    apply list_elem_of_In, elem_of_prefixes in Hin. rewrite (H q Hin) in Hf. done.
Qed.

(** [MkdirAll], when it succeeds. *)
Lemma MkdirAll_inv (cwd : list string) (p : filepath.t) (fs fs' : FS) :
  MkdirAll cwd p fs = (Ok tt, fs') →
  ∃ k, filepath.resolve cwd p = Some k ∧
       (∀ q, q `prefix_of` k → is_file (fs !! q) = false) ∧
       ∀ q, fs' !! q = if bool_decide (q `prefix_of` k) then Some Directory else fs !! q.
Proof.
  unfold MkdirAll. destruct (filepath.resolve cwd p) as [k|]; [|done].
  destruct (existsb _ _) eqn:E; [done|]. intros Heq.
  assert (fs' = mkdirs fs (prefixes k)) as -> by congruence.
  exists k. split; [done|]. split; [by apply no_file_above|].
  intros q. rewrite lookup_mkdirs.
  by rewrite (bool_decide_ext _ _ (elem_of_prefixes q k)).
Qed.


Lemma MkdirAll_err (cwd : list string) (p : filepath.t) (fs fs' : FS) (e : error) :
  MkdirAll cwd p fs = (Err e, fs') → fs' = fs.
Proof.
  unfold MkdirAll. destruct (filepath.resolve cwd p) as [k|]; [|congruence].
  destruct (existsb _ _); congruence.
Qed.

Lemma strip_prefix_app (k r : list string) : strip_prefix k (k ++ r) = Some r.
Proof.
  unfold strip_prefix. rewrite take_app_length, drop_app_length.
  by rewrite decide_True.
Qed.

Lemma strip_prefix_Some (k q r : list string) : strip_prefix k q = Some r ↔ q = k ++ r.
Proof.
  split.
  - unfold strip_prefix. destruct (decide _) as [Heq|]; [|done].
    intros [= <-]. by rewrite <- Heq at 1; rewrite take_drop.
  - intros ->. apply strip_prefix_app.
Qed.

Lemma strip_prefix_None (k q : list string) :
  strip_prefix k q = None ↔ ¬ k `prefix_of` q.
Proof.
  split.
  - intros H [r ->]. by rewrite strip_prefix_app in H.
  - intros H. destruct (strip_prefix k q) as [r|] eqn:E; [|done].
    apply strip_prefix_Some in E as ->. destruct H. by exists r.
Qed.

(** The entries [filepath.Walk] visits: what exists at and below the root. *)
Lemma elem_of_descendants (fs : FS) (k rel : list string) (e : entry) :
  (rel, e) ∈ descendants fs k ↔ fs !! (k ++ rel) = Some e.
Proof.
  unfold descendants. rewrite merge_sort_Permutation, list_elem_of_omap. split.
  - intros ([q e'] & Hin & Hq). simpl in Hq.
    destruct (strip_prefix k q) as [r|] eqn:E; [|done]. simpl in Hq.
    injection Hq as -> ->. apply strip_prefix_Some in E as ->.
    by apply elem_of_map_to_list in Hin.
  - intros H. exists (k ++ rel, e). split.
    + by apply elem_of_map_to_list.
    + simpl. by rewrite strip_prefix_app.
Qed.

End os_facts.

Module copy_facts.
Import os cache.
Import filepath_facts validate_facts os_facts.

Lemma bind_inv {S A B} (m : M S A) (k : A → M S B) (s s' : S) (b : B) :
  (m ≫= k) s = (Ok b, s') → ∃ a s1, m s = (Ok a, s1) ∧ k a s1 = (Ok b, s').
Proof.
  unfold mbind, M_bind, bind. destruct (m s) as [[a|e] s1]; [|done].
  intros H. by exists a, s1.
Qed.


Lemma prefix_of_app_cases (q k r : list string) :
  q `prefix_of` k ++ r →
  (∃ r1, q = k ++ r1 ∧ r1 `prefix_of` r) ∨ (q `prefix_of` k ∧ ¬ k `prefix_of` q).
Proof.
  intros Hq. destruct (decide (k `prefix_of` q)) as [[r1 ->]|Hn].
  - left. exists r1. split; [done|]. by apply prefix_app_inv in Hq.
  - right. split; [|done].
    destruct (prefix_weak_total q k (k ++ r)) as [H|H]; [done|by exists r|done|done].
Qed.

Lemma prefix_of_snoc (q k : list string) (n : string) :
  q `prefix_of` k ++ [n] ↔ q = k ++ [n] ∨ q `prefix_of` k.
Proof.
  split.
  - intros [r Hr]. destruct r as [|x r _] using rev_ind.
    + left. by rewrite app_nil_r in Hr.
    + right. exists r. rewrite app_assoc in Hr. by apply app_inj_tail in Hr as [-> _].
  - intros [->|[r ->]]; [done|]. exists (r ++ [n]). by rewrite app_assoc.
Qed.

Lemma prefix_of_snoc_assoc (q k r : list string) (n : string) :
  q `prefix_of` k ++ r ++ [n] ↔ q = k ++ r ++ [n] ∨ q `prefix_of` k ++ r.
Proof. rewrite !app_assoc. apply prefix_of_snoc. Qed.

Section copy.
Variable cwd : list string.
Variables src dest : filepath.t.
Variables ks kd : list string.
(** The state in which the copy starts. *)
Variable fs : FS.
Hypothesis Hs : filepath.resolve cwd src = Some ks.
Hypothesis Hd : filepath.resolve cwd dest = Some kd.
Hypothesis Hsrc : fs !! ks = Some Directory.
Hypothesis Hplain : ∀ rel e, fs !! (ks ++ rel) = Some e → ".." ∉ rel.
Hypothesis Hclosed :
  ∀ r1 r2 e, fs !! (ks ++ r1 ++ r2) = Some e → r2 ≠ [] → fs !! (ks ++ r1) = Some Directory.
Hypothesis Hsd : ¬ ks `prefix_of` kd.
Hypothesis Hds : ¬ kd `prefix_of` ks.

Local Abbreviation target := (cache.target ks kd fs).
Local Abbreviation Inv := (on_the_way ks kd fs).
Local Abbreviation visit := (cache.visit cwd src dest).

Lemma src_dest_ne (r1 r2 : list string) : ks ++ r1 ≠ kd ++ r2.
Proof.
  intros Heq.
  destruct (prefix_weak_total ks kd (ks ++ r1)) as [H|H];
    [by exists r1|rewrite Heq; by exists r2|done|done].
Qed.

Lemma src_not_above (r q : list string) : q `prefix_of` kd → ks ++ r ≠ q.
Proof.
  intros [r' Hq] Heq. apply Hsd. exists (r ++ r'). by rewrite app_assoc, Heq.
Qed.

Lemma target_src (r : list string) : target (ks ++ r) = fs !! (ks ++ r).
Proof.
  unfold cache.target.
  destruct (strip_prefix kd (ks ++ r)) as [r'|] eqn:E.
  - apply strip_prefix_Some in E. by destruct (src_dest_ne _ _ E).
  - rewrite bool_decide_eq_false_2; [done|].
    intros H. by apply (src_not_above r (ks ++ r)).
Qed.

Lemma inv_src (cur : FS) (r : list string) : Inv cur → cur !! (ks ++ r) = fs !! (ks ++ r).
Proof. intros H. destruct (H (ks ++ r)) as [->| ->]; [apply target_src|done]. Qed.

(** On the way down to a copied entry the target is a directory, and at
    the entry it is the entry. *)
Lemma target_above (q rel : list string) (e : entry) :
  fs !! (ks ++ rel) = Some e → q `prefix_of` kd ++ rel →
  target q = Some (if decide (q = kd ++ rel) then e else Directory).
Proof.
  intros He Hq. unfold cache.target.
  destruct (prefix_of_app_cases _ _ _ Hq) as [(r1 & -> & [r2 ->])|[Hq1 Hq2]].
  - rewrite strip_prefix_app. destruct r2 as [|x r2].
    + rewrite app_nil_r in *. rewrite He. by rewrite decide_True.
    + rewrite (Hclosed r1 (x :: r2) e He) by done.
      rewrite decide_False; [done|]. intros Heq. apply app_inv_head in Heq.
      assert (length r1 = length (r1 ++ x :: r2)) as Hl by congruence.
      rewrite length_app in Hl. simpl in Hl. lia.
  - apply strip_prefix_None in Hq2 as Hstrip. rewrite Hstrip.
    rewrite bool_decide_eq_true_2 by done.
    rewrite decide_False; [done|]. intros ->. apply Hq2. by exists rel.
Qed.

Lemma target_above_dir (q rel : list string) :
  fs !! (ks ++ rel) = Some Directory → q `prefix_of` kd ++ rel →
  target q = Some Directory.
Proof. intros He Hq. rewrite (target_above q rel Directory He Hq). by destruct (decide _). Qed.

Lemma visit_unfold (rel : list string) (e : entry) :
  visit (rel, e) =
    if is_dir (Some e) then MkdirAll cwd (filepath.descend dest rel)
    else copyFile cwd (filepath.descend src rel) (filepath.descend dest rel).
Proof. unfold cache.visit, copy_visit. simpl. by rewrite Rel_to_descend. Qed.

Lemma file_below (rel : list string) (data : string) :
  fs !! (ks ++ rel) = Some (File data) →
  ∃ rel' n, rel = rel' ++ [n] ∧ fs !! (ks ++ rel') = Some Directory.
Proof.
  intros He. destruct rel as [|n rel' _] using rev_ind.
  - rewrite app_nil_r in He. congruence.
  - exists rel', n. split; [done|]. by apply (Hclosed rel' [n] (File data)).
Qed.

(** One visit of the walk, when it succeeds: every path from the root
    down to the visited entry's copy now holds its target, nothing else has
    changed. *)
Lemma visit_inv (cur cur' : FS) (rel : list string) (e : entry) :
  Inv cur → fs !! (ks ++ rel) = Some e →
  visit (rel, e) cur = (Ok tt, cur') →
  ∀ q, cur' !! q = if bool_decide (q `prefix_of` kd ++ rel) then target q else cur !! q.
Proof.
  intros HI He Hv q. rewrite visit_unfold in Hv.
  pose proof (Hplain rel e He) as Hrel.
  pose proof (filepath_facts.resolve_descend cwd dest kd rel Hd Hrel) as Hkd.
  destruct e as [data|]; simpl in Hv.
  - destruct (file_below rel data He) as (rel' & n & -> & Hparent).
    unfold copyFile in Hv.
    destruct (validatePath (filepath.descend src (rel' ++ [n]))); [done|].
    destruct (validatePath (filepath.descend dest (rel' ++ [n]))); [done|].
    apply bind_inv in Hv as ([] & c0 & Hopen & Hv).
    apply bind_inv in Hv as ([] & c1 & Hmk & Hv).
    apply bind_inv in Hv as ([] & c2 & Hcr & Hcp).
    assert (c0 = cur) as ->.
    { unfold Open in Hopen. destruct (at_path _ _ _); congruence. }
    rewrite Dir_descend_snoc in Hmk by (intros ->; done).
    apply MkdirAll_inv in Hmk as (k & Hk & _ & Hc1).
    rewrite (filepath_facts.resolve_descend cwd dest kd rel' Hd) in Hk
      by (intros Hin; apply Hrel; set_solver).
    injection Hk as <-.
    assert (c2 = <[kd ++ rel' ++ [n] := File ""]> c1) as ->.
    { unfold Create in Hcr. rewrite Hkd in Hcr.
      destruct (c1 !! (kd ++ rel' ++ [n])) as [[|]|];
        destruct (c1 !! filepath.drop_last (kd ++ rel' ++ [n])) as [[|]|]; congruence. }
    assert (cur' = <[kd ++ rel' ++ [n] := File data]> (<[kd ++ rel' ++ [n] := File ""]> c1))
      as ->.
    { unfold Copy, at_path in Hcp.
      rewrite (filepath_facts.resolve_descend cwd src ks _ Hs Hrel) in Hcp. simpl in Hcp.
      rewrite Hkd in Hcp.
      rewrite lookup_insert_ne in Hcp by apply not_eq_sym, src_dest_ne.
      rewrite Hc1 in Hcp.
      rewrite bool_decide_eq_false_2 in Hcp.
      2:{ intros Hp. destruct (prefix_weak_total ks kd (kd ++ rel')) as [H|H];
            [by etrans; [by exists (rel' ++ [n])|]|by exists rel'|done|done]. }
      rewrite (inv_src cur _ HI), He in Hcp. congruence. }
    rewrite (bool_decide_ext _ _ (prefix_of_snoc_assoc q kd rel' n)).
    destruct (decide (q = kd ++ rel' ++ [n])) as [->|Hne].
    + rewrite lookup_insert_eq.
      rewrite bool_decide_eq_true_2 by (by left).
      rewrite (target_above _ (rel' ++ [n]) (File data) He) by done.
      by rewrite decide_True.
    + rewrite !lookup_insert_ne by done. rewrite Hc1.
      destruct (decide (q `prefix_of` kd ++ rel')) as [Hp|Hp].
      * rewrite bool_decide_eq_true_2 by done.
        rewrite bool_decide_eq_true_2 by (by right).
        by rewrite (target_above_dir q rel' Hparent Hp).
      * rewrite bool_decide_eq_false_2 by done.
        rewrite bool_decide_eq_false_2; [done|]. by intros [?|?].
  - apply MkdirAll_inv in Hv as (k & Hk & _ & Hc1).
    rewrite Hkd in Hk. injection Hk as <-. rewrite Hc1.
    destruct (bool_decide (q `prefix_of` kd ++ rel)) eqn:E; [|done].
    apply bool_decide_eq_true in E. by rewrite (target_above_dir q rel He E).
Qed.

Lemma visit_keeps_inv (cur cur' : FS) (rel : list string) (e : entry) :
  Inv cur → fs !! (ks ++ rel) = Some e →
  visit (rel, e) cur = (Ok tt, cur') →
  Inv cur' ∧ (∀ q, cur !! q = target q → cur' !! q = target q) ∧
  (∀ q, q `prefix_of` kd ++ rel → cur' !! q = target q).
Proof.
  intros HI He Hv. pose proof (visit_inv cur cur' rel e HI He Hv) as Hc.
  split; [|split].
  - intros q. rewrite Hc. destruct (bool_decide _); [by left|apply HI].
  - intros q Hq. rewrite Hc. by destruct (bool_decide _).
  - intros q Hq. rewrite Hc. by rewrite bool_decide_eq_true_2.
Qed.

(** The whole walk, when it succeeds. *)
Lemma walk_inv (l : list (list string * entry)) (cur cur' : FS) :
  Inv cur → (∀ rel e, (rel, e) ∈ l → fs !! (ks ++ rel) = Some e) →
  for_each visit l cur = (Ok tt, cur') →
  Inv cur' ∧ (∀ q, cur !! q = target q → cur' !! q = target q) ∧
  (∀ rel e q, (rel, e) ∈ l → q `prefix_of` kd ++ rel → cur' !! q = target q).
Proof.
  revert cur. induction l as [|[rel e] l IH]; intros cur HI Hl Hw; simpl in Hw.
  - injection Hw as <-. split; [done|]. split; [done|]. intros ??? Hin. inv Hin.
  - apply bind_inv in Hw as ([] & c1 & Hv & Hw).
    destruct (visit_keeps_inv cur c1 rel e HI) as (HI1 & Hkeep1 & Hnew1);
      [apply Hl; by left|done|].
    destruct (IH c1 HI1) as (HI' & Hkeep & Hnew); [intros; apply Hl; by right|done|].
    split; [done|]. split; [by auto|].
    intros rel0 e0 q [[= -> ->]|Hin]%elem_of_cons Hq.
    + by apply Hkeep, Hnew1.
    + by eapply Hnew.
Qed.

Section success.
Hypothesis Hvs : validatePath src = None.
Hypothesis Hvd : validatePath dest = None.
Hypothesis Hnames : ∀ rel e, fs !! (ks ++ rel) = Some e → Forall nodots rel.
Hypothesis Hwithin : ∀ r e, fs !! (kd ++ r) = Some e → fs !! (ks ++ r) = Some e.
Hypothesis Habove : ∀ q, q `prefix_of` kd → is_file (fs !! q) = false.




End success.

Lemma inv_start : Inv fs.
Proof. intros q. by right. Qed.

Lemma copyDir_unfold :
  copyDir cwd src dest fs = for_each visit (descendants fs ks) fs.
Proof. unfold copyDir, Walk. by rewrite Hs, Hsrc. Qed.

(** [copyDir], when it succeeds, leaves the target. *)
Lemma copyDir_inv (fs' : FS) :
  copyDir cwd src dest fs = (Ok tt, fs') → ∀ q, fs' !! q = target q.
Proof.
  rewrite copyDir_unfold. intros Hw q.
  destruct (walk_inv (descendants fs ks) fs fs' inv_start) as (HI & _ & Hnew); [|done|].
  { intros rel e. apply elem_of_descendants. }
  destruct (HI q) as [Hq|Hq]; [done|]. rewrite Hq. unfold cache.target.
  destruct (strip_prefix kd q) as [r|] eqn:E.
  - apply strip_prefix_Some in E as ->.
    destruct (fs !! (ks ++ r)) as [e|] eqn:Er; [|done].
    rewrite <- Hq. rewrite (Hnew r e (kd ++ r)); [|by apply elem_of_descendants|done].
    unfold cache.target. by rewrite strip_prefix_app, Er.
  - destruct (bool_decide (q `prefix_of` kd)) eqn:Ep; [|done].
    apply bool_decide_eq_true in Ep.
    rewrite <- Hq. rewrite (Hnew [] Directory q).
    + unfold cache.target. by rewrite E, bool_decide_eq_true_2.
    + apply elem_of_descendants. by rewrite app_nil_r.
    + by rewrite app_nil_r.
Qed.


End copy.
End copy_facts.

Module store_facts.
Import os cache.
Import filepath_facts validate_facts os_facts copy_facts.

Lemma wf_plain (fs : FS) (k rel : list string) (e : entry) :
  wf fs → fs !! (k ++ rel) = Some e → ".." ∉ rel.
Proof.
  intros [_ Hwf] He Hin. destruct (Hwf _ _ He) as [_ Hk]. apply Hk.
  apply elem_of_app. by right.
Qed.

Lemma wf_parent (fs : FS) (k : list string) (x : string) (e : entry) :
  wf fs → fs !! (k ++ [x]) = Some e → fs !! k = Some Directory.
Proof.
  intros [_ Hwf] He. destruct (Hwf _ _ He) as [Hp _].
  unfold filepath.drop_last in Hp. by rewrite removelast_last in Hp.
Qed.

Lemma wf_closed (fs : FS) (k r1 r2 : list string) (e : entry) :
  wf fs → fs !! (k ++ r1 ++ r2) = Some e → r2 ≠ [] → fs !! (k ++ r1) = Some Directory.
Proof.
  intros Hwf. revert e. induction r2 as [|x r2 IH] using rev_ind; intros e He Hne; [done|].
  rewrite !app_assoc in He. apply (wf_parent _ _ _ _ Hwf) in He.
  destruct r2 as [|y r2]; [by rewrite app_nil_r in He|].
  rewrite <- app_assoc in He. by apply (IH Directory).
Qed.



Lemma clear_way_spec (fs : FS) (k : list string) :
  clear_way fs k ↔ ∀ q, q `prefix_of` k → is_file (fs !! q) = false.
Proof.
  unfold clear_way. rewrite Forall_forall. split.
  - intros H q Hq. by apply H, elem_of_prefixes.
  - intros H q Hq. by apply H, elem_of_prefixes.
Qed.

Lemma Exists_spec (cwd : list string) (key : string) (kc : list string) (fs : FS) :
  filepath.resolve cwd (cacheDir key) = Some kc →
  Exists cwd key fs = bool_decide (is_Some (fs !! (kc ++ ["manifest.json"]))).
Proof.
  intros Hkc. unfold Exists, at_path.
  rewrite (resolve_child cwd _ kc "manifest.json" Hkc) by done. done.
Qed.

(** A directory made on the way to [k] leaves everything that is neither
    above nor at [k] as it was. *)
Section after_mkdir.
Variables (fs fsm : FS) (k : list string).
Hypothesis Hm : ∀ q, fsm !! q = if bool_decide (q `prefix_of` k) then Some Directory else fs !! q.

Lemma after_mkdir_other (k' r : list string) :
  ¬ k' `prefix_of` k → fsm !! (k' ++ r) = fs !! (k' ++ r).
Proof.
  intros Hn. rewrite Hm. rewrite bool_decide_eq_false_2; [done|].
  intros [r' Hr]. apply Hn. exists (r ++ r'). by rewrite app_assoc.
Qed.

Lemma after_mkdir_below (r : list string) :
  r ≠ [] → fsm !! (k ++ r) = fs !! (k ++ r).
Proof.
  intros Hr. rewrite Hm. rewrite bool_decide_eq_false_2; [done|].
  intros [r' Hr']. rewrite <- app_assoc in Hr'.
  rewrite <- (app_nil_r k) in Hr' at 1. apply app_inv_head in Hr'.
  by destruct r.
Qed.

End after_mkdir.

Section mkdir_copy.
Variable cwd : list string.
Variables (src dest : filepath.t) (ks kd : list string) (fs : FS) (pre : string).
Hypothesis Hs : filepath.resolve cwd src = Some ks.
Hypothesis Hd : filepath.resolve cwd dest = Some kd.
Hypothesis Hapart : apart ks kd.
Hypothesis Hsrc : fs !! ks = Some Directory.
Hypothesis Hplain : ∀ rel e, fs !! (ks ++ rel) = Some e → ".." ∉ rel.
Hypothesis Hclosed :
  ∀ r1 r2 e, fs !! (ks ++ r1 ++ r2) = Some e → r2 ≠ [] → fs !! (ks ++ r1) = Some Directory.

Local Abbreviation mkdir_copy := (cache.mkdir_copy cwd src dest pre).

Lemma mkdir_copy_inv (fs' : FS) :
  mkdir_copy fs = (Ok tt, fs') →
  (∀ rel, fs' !! (kd ++ rel) =
          match fs !! (ks ++ rel) with Some e => Some e | None => fs !! (kd ++ rel) end) ∧
  (∀ q, ¬ kd `prefix_of` q →
        fs' !! q = if bool_decide (q `prefix_of` kd) then Some Directory else fs !! q).
Proof.
  destruct Hapart as [Hsd Hds]. intros HS. unfold cache.mkdir_copy in HS.
  apply bind_inv in HS as ([] & fsm & Hmk & Hcp).
  assert (MkdirAll cwd dest fs = (Ok tt, fsm)) as Hmk'.
  { unfold wrap in Hmk. destruct (MkdirAll cwd dest fs) as [[[]|e] s]; congruence. }
  apply MkdirAll_inv in Hmk' as (k & Hk & _ & Hm).
  rewrite Hd in Hk. injection Hk as <-.
  pose proof (after_mkdir_other fs fsm kd Hm ks) as Hsame.
  assert (∀ q, fs' !! q = target ks kd fsm q) as Ht.
  { apply (copyDir_inv cwd src dest ks kd fsm); try done.
    - rewrite <- (app_nil_r ks), Hsame by done. by rewrite app_nil_r.
    - intros rel e. rewrite Hsame by done. apply Hplain.
    - intros r1 r2 e. rewrite (Hsame (r1 ++ r2)), (Hsame r1) by done. apply Hclosed. }
  split.
  - intros rel. rewrite Ht. unfold cache.target. rewrite strip_prefix_app.
    rewrite Hsame by done. destruct (fs !! (ks ++ rel)) as [e|] eqn:E; [done|].
    destruct rel as [|x rel]; [rewrite app_nil_r in E; congruence|].
    by apply (after_mkdir_below fs fsm kd Hm).
  - intros q Hq. rewrite Ht. unfold cache.target.
    apply strip_prefix_None in Hq. rewrite Hq.
    destruct (bool_decide (q `prefix_of` kd)) eqn:E; [done|].
    rewrite Hm. by rewrite E.
Qed.


End mkdir_copy.

Lemma Store_is_mkdir_copy (cwd : list string) (key : string) (sourceDir : filepath.t) :
  Store cwd key sourceDir =
  mkdir_copy cwd sourceDir (cacheDir key) "create cache dir: ".
Proof. reflexivity. Qed.

Lemma Restore_is_mkdir_copy (cwd : list string) (key : string) (destDir : filepath.t)
    (fs : FS) :
  Exists cwd key fs = true →
  Restore cwd key destDir fs =
  mkdir_copy cwd (cacheDir key) destDir "create dest dir: " fs.
Proof. unfold Restore. by intros ->. Qed.



(** C7, as stated, fails: a file of the prior entry that the new source
    lacks is still in the entry after a successful [Store]. *)
Lemma Store_keeps_prior_files :
  let after := Store ["ws"] example.key example.outDir example.fs_stale in
  after.1 = Ok tt ∧
  example.fs_stale !! ["ws"; "out"; "api"; "6.0.415"; "old.txt"] = None ∧
  after.2 !! ["ws"; ".buildcache"; example.key; "old.txt"] = Some (File "stale") ∧
  after.2 !! ["ws"; ".buildcache"; example.key; "manifest.json"] =
    example.fs_stale !! ["ws"; "out"; "api"; "6.0.415"; "manifest.json"].
Proof. cbv zeta. repeat split; vm_compute; reflexivity. Qed.

(** C7, amended.  After [Store] succeeds, from a source directory that
    lies apart from the entry, every path of the source is in the entry
    with the source's content, a same-named file of the prior entry being
    overwritten, and every path of the prior entry that the source lacks is
    still there, unchanged: the source is merged into the entry. *)
Theorem Store_merges_into_entry (cwd : list string) (key : string) (sourceDir : filepath.t)
    (fs fs' : FS) (ka kc : list string) :
  wf fs →
  filepath.resolve cwd sourceDir = Some ka →
  filepath.resolve cwd (cacheDir key) = Some kc →
  apart ka kc →
  fs !! ka = Some Directory →
  Store cwd key sourceDir fs = (Ok tt, fs') →
  ∀ rel, fs' !! (kc ++ rel) =
         match fs !! (ka ++ rel) with
         | Some e => Some e
         | None => fs !! (kc ++ rel)
         end.
Proof.
  intros Hwf Hka Hkc Hap Hdir HS. rewrite Store_is_mkdir_copy in HS.
  apply (mkdir_copy_inv cwd sourceDir (cacheDir key) ka kc fs _ Hka Hkc Hap Hdir) in HS.
  - apply HS.
  - intros rel e. by apply wf_plain.
  - intros r1 r2 e. by apply wf_closed.
Qed.

Lemma Store_merges_into_entry_witness :
  (Store ["ws"] example.key example.outDir example.fs_stale).2
    !! (["ws"; ".buildcache"; example.key] ++ ["old.txt"]) =
  match example.fs_stale !! (["ws"; "out"; "api"; "6.0.415"] ++ ["old.txt"]) with
  | Some e => Some e
  | None => example.fs_stale !! (["ws"; ".buildcache"; example.key] ++ ["old.txt"])
  end.
Proof.
  apply (Store_merges_into_entry ["ws"] example.key example.outDir example.fs_stale).
  - compute_done.
  - reflexivity.
  - reflexivity.
  - compute_done.
  - vm_compute. reflexivity.
  - compute_done.
Defined.




End store_facts.

(** ** The plan as a set, and the selection *)
Module expand_facts.
Import planner.

Lemma elem_of_emit (path kind : string) (versions : list string) (t : Task) :
  t ∈ emit path kind versions ↔
  Path t = path ∧ Kind t = kind ∧ Version t ≠ "" ∧ Version t ∈ versions.
Proof.
  unfold emit. rewrite list_elem_of_In, in_flat_map. split.
  - intros (v & Hv & Ht). apply list_elem_of_In in Hv.
    destruct (Str.eqb v "") eqn:E; [destruct Ht|].
    apply planner_facts.eqb_false in E.
    destruct Ht as [<-|[]]. done.
  - intros (<- & <- & Hne & Hv). exists (Version t). split; [by apply list_elem_of_In|].
    apply planner_facts.eqb_false in Hne. rewrite Hne. left. by destruct t.
Qed.

Lemma elem_of_expand_entry (cfg : config.Root) (selected : gset string)
    (m : config.MatrixEntry) (t : Task) :
  t ∈ expand_entry cfg selected m ↔
  (size selected = 0 ∨ config.Path m ∈ selected) ∧
  Path t = config.Path m ∧ Kind t = config.Type_ m ∧ Version t ≠ "" ∧
  ((config.Type_ m = "dotnet" ∧
    Version t ∈ (if is_empty (config.Frameworks m)
                 then config.Versions (config.Dotnet (config.Runtime cfg))
                 else config.Frameworks m)) ∨
   (config.Type_ m = "node" ∧
    Version t ∈ (if is_empty (config.NodeVersions m)
                 then config.Versions (config.Node (config.Runtime cfg))
                 else config.NodeVersions m))).
Proof.
  unfold expand_entry.
  destruct (bool_decide (0 < size selected)) eqn:Hs;
    destruct (bool_decide (config.Path m ∈ selected)) eqn:Hp; cbn [andb negb];
    [apply bool_decide_eq_true in Hs | apply bool_decide_eq_true in Hs
    |apply bool_decide_eq_false in Hs | apply bool_decide_eq_false in Hs];
    [apply bool_decide_eq_true in Hp | apply bool_decide_eq_false in Hp
    |apply bool_decide_eq_true in Hp | apply bool_decide_eq_false in Hp].
  2: { split; [by intros ?%elem_of_nil|]. intros ([?|?] & _); [lia|done]. }
  all: assert (Hsel : size selected = 0 ∨ config.Path m ∈ selected)
         by (first [by right | left; lia]).
  all: destruct (Str.eqb (config.Type_ m) "dotnet") eqn:Hd;
       [apply planner_facts.eqb_true in Hd
       |apply planner_facts.eqb_false in Hd;
        destruct (Str.eqb (config.Type_ m) "node") eqn:Hn;
        [apply planner_facts.eqb_true in Hn|apply planner_facts.eqb_false in Hn]].
  all: rewrite ?elem_of_emit, ?elem_of_nil.
  all: split;
       [ intros H; try done; destruct H as (? & ? & ? & ?);
         repeat split; try done; try congruence; eauto
       | intros (_ & ? & ? & ? & [[? ?]|[? ?]]); try congruence; try done ].
  all: repeat split; try done; congruence.
Qed.

(** X1. The tasks of a plan, as a set: a task is planned exactly when some
    matrix entry of its path and kind passes the selection (an empty
    selection passes every entry), the kind is [dotnet] or [node], and its
    version is a non-empty one of the entry's own versions or, when the
    entry lists none, of the runtime defaults of that kind. *)
Theorem Expand_tasks (cfg : config.Root) (selected : gset string) (t : Task) :
  t ∈ Tasks (Expand cfg selected) ↔
  ∃ m, m ∈ config.Matrix cfg ∧
       (size selected = 0 ∨ config.Path m ∈ selected) ∧
       Path t = config.Path m ∧ Kind t = config.Type_ m ∧ Version t ≠ "" ∧
       ((config.Type_ m = "dotnet" ∧
         Version t ∈ (if is_empty (config.Frameworks m)
                      then config.Versions (config.Dotnet (config.Runtime cfg))
                      else config.Frameworks m)) ∨
        (config.Type_ m = "node" ∧
         Version t ∈ (if is_empty (config.NodeVersions m)
                      then config.Versions (config.Node (config.Runtime cfg))
                      else config.NodeVersions m))).
Proof.
  cbn [Tasks Expand]. unfold sort_Slice. rewrite merge_sort_Permutation.
  unfold unsorted. rewrite list_elem_of_In, in_flat_map. split.
  - intros (m & Hm & Ht). exists m. split; [by apply list_elem_of_In|].
    by apply elem_of_expand_entry, list_elem_of_In.
  - intros (m & Hm & Ht). exists m. split; [by apply list_elem_of_In|].
    by apply list_elem_of_In, elem_of_expand_entry.
Qed.

Lemma filter_path_emit (selected : gset string) (path kind : string)
    (versions : list string) :
  filter (λ t, Path t ∈ selected) (emit path kind versions) =
    if decide (path ∈ selected) then emit path kind versions else [].
Proof.
  unfold emit. induction versions as [|v vs IH]; cbn [flat_map].
  - by destruct (decide _).
  - rewrite filter_app, IH. destruct (Str.eqb v ""); [done|].
    rewrite filter_cons. cbn [Path]. by destruct (decide (path ∈ selected)).
Qed.

Lemma filter_expand_entry (cfg : config.Root) (selected : gset string)
    (m : config.MatrixEntry) :
  0 < size selected →
  filter (λ t, Path t ∈ selected) (expand_entry cfg ∅ m) = expand_entry cfg selected m.
Proof.
  intros Hs. unfold expand_entry. rewrite size_empty.
  rewrite (bool_decide_eq_false_2 (0 < 0)) by lia. cbn [andb].
  rewrite (bool_decide_eq_true_2 _ Hs). cbn [andb].
  destruct (Str.eqb (config.Type_ m) "dotnet");
    [|destruct (Str.eqb (config.Type_ m) "node")].
  all: rewrite ?filter_path_emit, ?filter_nil.
  all: destruct (decide (config.Path m ∈ selected)) as [Hp|Hp];
       [rewrite (bool_decide_eq_true_2 _ Hp)|rewrite (bool_decide_eq_false_2 _ Hp)];
       done.
Qed.

Lemma filter_flat_map {A B} (P : B → Prop) `{∀ b, Decision (P b)} (f : A → list B)
    (l : list A) :
  filter P (flat_map f l) = flat_map (λ a, filter P (f a)) l.
Proof. induction l as [|a l IH]; [done|]. cbn [flat_map]. by rewrite filter_app, IH. Qed.

Lemma filter_unsorted (cfg : config.Root) (selected : gset string) :
  0 < size selected →
  filter (λ t, Path t ∈ selected) (unsorted cfg ∅) = unsorted cfg selected.
Proof.
  intros Hs. unfold unsorted. rewrite filter_flat_map.
  induction (config.Matrix cfg) as [|m l IH]; [done|].
  cbn [flat_map]. by rewrite IH, filter_expand_entry.
Qed.

Lemma StronglySorted_filter {A} (R : A → A → Prop) (P : A → Prop) `{∀ a, Decision (P a)}
    (l : list A) :
  StronglySorted R l → StronglySorted R (filter P l).
Proof.
  induction 1 as [|a l Hl IH Ha]; [constructor|].
  rewrite filter_cons. destruct (decide (P a)); [|done].
  constructor; [done|]. apply list.Forall_forall. intros b Hb.
  apply list_elem_of_filter in Hb as [_ Hb].
  rewrite list.Forall_forall in Ha. by apply Ha.
Qed.

(** X2. A selection only filters: the plan for a non-empty selection is
    the plan for everything, with the tasks of other paths left out and the
    order kept. *)
Theorem Expand_selection (cfg : config.Root) (selected : gset string) :
  0 < size selected →
  Tasks (Expand cfg selected) =
    filter (λ t, Path t ∈ selected) (Tasks (Expand cfg ∅)).
Proof.
  intros Hs. cbn [Tasks Expand]. unfold sort_Slice. symmetry.
  apply planner_facts.sorted_by_less_unique.
  - rewrite !merge_sort_Permutation. by rewrite (filter_unsorted _ _ Hs).
  - apply StronglySorted_filter, planner_facts.StronglySorted_iff.
    apply StronglySorted_merge_sort; apply _.
  - apply planner_facts.StronglySorted_iff. apply StronglySorted_merge_sort; apply _.
Qed.

Lemma Expand_selection_witness :
  Tasks (Expand example.cfg_B {["web"]}) =
    filter (λ t, Path t ∈ ({["web"]} : gset string)) (Tasks (Expand example.cfg_B ∅)).
Proof. apply (Expand_selection example.cfg_B {["web"]}). rewrite size_singleton. lia. Defined.

End expand_facts.

(** ** [strings.Split] and [strings.Join] *)
Module split_facts.
Import Str.

Lemma has_char_cons (c x : ascii) (s : string) :
  has_char c (String x s) = Ascii.eqb c x || has_char c s.
Proof. done. Qed.

Lemma append_cons (x : ascii) (a b : string) : String x a +:+ b = String x (a +:+ b).
Proof. done. Qed.

Lemma append_nil (b : string) : "" +:+ b = b.
Proof. done. Qed.


Lemma split_on_nonempty (sep : ascii) (s : string) : split_on sep s ≠ [].
Proof.
  induction s as [|c s IH]; [done|]. cbn [split_on].
  destruct (Ascii.eqb c sep); [done|]. by destruct (split_on sep s).
Qed.

Lemma split_on_plain (sep : ascii) (a : string) :
  has_char sep a = false → split_on sep a = [a].
Proof.
  induction a as [|c a IH]; [done|]. rewrite has_char_cons.
  intros [Hc Ha]%orb_false_elim. cbn [split_on].
  rewrite Ascii.eqb_sym, Hc. by rewrite (IH Ha).
Qed.

Lemma split_on_app (sep : ascii) (a b : string) :
  has_char sep a = false →
  split_on sep (a +:+ String sep b) = a :: split_on sep b.
Proof.
  induction a as [|c a IH].
  - intros _. rewrite append_nil. cbn [split_on]. by rewrite Ascii.eqb_refl.
  - rewrite has_char_cons. intros [Hc Ha]%orb_false_elim.
    rewrite append_cons. cbn [split_on]. rewrite Ascii.eqb_sym, Hc. by rewrite (IH Ha).
Qed.

Lemma split_on_pieces (sep : ascii) (s : string) :
  Forall (λ p, has_char sep p = false) (split_on sep s).
Proof.
  induction s as [|c s IH]; [by repeat constructor|]. cbn [split_on].
  destruct (Ascii.eqb c sep) eqn:E; [by constructor|].
  destruct (split_on sep s) as [|w ws]; [by repeat constructor; rewrite has_char_cons,
    Ascii.eqb_sym, E|].
  inversion IH as [|? ? Hw Hws]; subst. constructor; [|done].
  by rewrite has_char_cons, Ascii.eqb_sym, E.
Qed.

Lemma Join_cons (x : string) (l : list string) (sep : string) :
  l ≠ [] → Join (x :: l) sep = x +:+ sep +:+ Join l sep.
Proof. by destruct l. Qed.

Lemma split_on_Join (sep : ascii) (cs : list string) :
  cs ≠ [] → Forall (λ p, has_char sep p = false) cs →
  split_on sep (Join cs (String sep "")) = cs.
Proof.
  induction cs as [|c cs IH]; [done|]. intros _ Hcs.
  inversion Hcs as [|? ? Hc Hcs']; subst.
  destruct cs as [|c' cs].
  - cbn. by apply split_on_plain.
  - rewrite Join_cons by done. rewrite append_cons, append_nil.
    rewrite split_on_app by done. by rewrite IH.
Qed.

Lemma prefix_app (p s : string) : String.prefix p (p +:+ s) = true.
Proof.
  induction p as [|c p IH]; [by destruct s|]. rewrite append_cons.
  rewrite validate_facts.prefix_cons. by destruct (ascii_dec c c).
Qed.

Lemma Contains_prefix (p s : string) : Contains (p +:+ s) p = true.
Proof. destruct (p +:+ s) eqn:E; cbn [Contains]; rewrite <- E, prefix_app; done. Qed.

End split_facts.

(** ** [filepath.Clean] gives clean paths and keeps them *)
Module clean_facts.
Import filepath.

Lemma replicate_snoc {A} (n : nat) (x : A) : replicate n x ++ [x] = replicate (S n) x.
Proof. induction n as [|n IH]; [done|]. cbn. by rewrite IH. Qed.

Lemma plain_step (rooted : bool) (acc : list string) (c : string) :
  plain c → clean_step rooted acc c = acc ++ [c].
Proof.
  intros (H1 & H2 & H3 & _). unfold clean_step.
  rewrite (proj2 (planner_facts.eqb_false c "") H1).
  rewrite (proj2 (planner_facts.eqb_false c ".") H2).
  by rewrite (proj2 (planner_facts.eqb_false c "..") H3).
Qed.

Lemma foldl_plain (rooted : bool) (acc rest : list string) :
  Forall plain rest → foldl (clean_step rooted) acc rest = acc ++ rest.
Proof.
  revert acc. induction rest as [|c rest IH]; intros acc H.
  - by rewrite app_nil_r.
  - inversion H; subst. cbn [foldl]. rewrite plain_step by done.
    rewrite IH by done. by rewrite <- app_assoc.
Qed.

Lemma last_replicate {A} (n : nat) (x : A) : last (replicate (S n) x) = Some x.
Proof. induction n as [|n IH]; [done|]. by rewrite replicate_S, last_cons, IH. Qed.

Lemma dots_step (k : nat) :
  clean_step false (replicate k "..") ".." = replicate (S k) "..".
Proof.
  unfold clean_step. cbn [orb]. change (Str.eqb ".." "") with false.
  change (Str.eqb ".." ".") with false. change (Str.eqb ".." "..") with true. cbn [orb].
  destruct k as [|k]; [done|]. rewrite last_replicate.
  change (Str.eqb ".." "..") with true. cbv iota. apply replicate_snoc.
Qed.

Lemma foldl_dots (k n : nat) :
  foldl (clean_step false) (replicate k "..") (replicate n "..") = replicate (k + n) "..".
Proof.
  revert k. induction n as [|n IH]; intros k.
  - by rewrite Nat.add_0_r.
  - cbn [replicate foldl]. rewrite dots_step, IH. f_equal. lia.
Qed.

Lemma foldl_clean_comps (rooted : bool) (cs : list string) :
  clean_comps rooted cs → foldl (clean_step rooted) [] cs = cs.
Proof.
  intros (n & rest & -> & Hrest & Hn). rewrite foldl_app.
  destruct rooted.
  - rewrite (Hn eq_refl). cbn [replicate foldl]. by rewrite foldl_plain.
  - change (@nil string) with (replicate 0 "..") at 1.
    rewrite (foldl_dots 0 n). cbn [Nat.add]. by rewrite foldl_plain.
Qed.

Lemma clean_comps_nil (rooted : bool) : clean_comps rooted [].
Proof. exists 0%nat, []. by repeat split. Qed.

Lemma last_app_plain (n : nat) (rest : list string) (top : string) :
  Forall plain rest → last (replicate n ".." ++ rest) = Some top →
  (rest = [] ∧ top = ".." ∧ n ≠ 0%nat) ∨
  (∃ rest', rest = rest' ++ [top] ∧ top ≠ "..").
Proof.
  intros Hrest Hl. destruct (decide (rest = [])) as [->|Hne].
  - rewrite app_nil_r in Hl. left. destruct n as [|n]; [done|].
    rewrite last_replicate in Hl. by inversion Hl.
  - right. destruct (exists_last Hne) as (rest' & x & ->).
    rewrite app_assoc, last_snoc in Hl. inversion Hl; subst. exists rest'. split; [done|].
    apply Forall_app in Hrest as [_ Hx]. inversion Hx as [|? ? (_ & _ & H3 & _)]; subst. done.
Qed.

Lemma clean_step_clean (rooted : bool) (acc : list string) (c : string) :
  clean_comps rooted acc → Str.has_char "/" c = false →
  clean_comps rooted (clean_step rooted acc c).
Proof.
  intros Hacc Hc. unfold clean_step.
  destruct (Str.eqb c "") eqn:E1; [done|].
  destruct (Str.eqb c ".") eqn:E2; [done|]. cbn [orb].
  apply planner_facts.eqb_false in E1, E2.
  destruct (Str.eqb c "..") eqn:E3.
  - destruct Hacc as (n & rest & -> & Hrest & Hn).
    destruct (last (replicate n ".." ++ rest)) as [top|] eqn:Hl.
    + apply last_app_plain in Hl as [(-> & -> & Hn0)|(rest' & -> & Htop)]; [| |done].
      * change (Str.eqb ".." "..") with true. cbv iota. rewrite app_nil_r.
        destruct rooted; [by specialize (Hn eq_refl)|].
        rewrite replicate_snoc. exists (S n), []. rewrite app_nil_r. by repeat split.
      * rewrite (proj2 (planner_facts.eqb_false top "..") Htop).
        unfold drop_last. rewrite app_assoc, removelast_last.
        exists n, rest'. apply Forall_app in Hrest as [Hrest _]. by repeat split.
    + apply last_None in Hl. apply app_eq_nil in Hl as [Hn0 ->].
      destruct rooted.
      * exists n, []. by repeat split.
      * exists 1%nat, []. by repeat split.
  - apply planner_facts.eqb_false in E3.
    destruct Hacc as (n & rest & -> & Hrest & Hn).
    exists n, (rest ++ [c]). rewrite app_assoc. repeat split; [|done].
    apply Forall_app. split; [done|]. by repeat constructor.
Qed.

Lemma foldl_clean_step_clean (rooted : bool) (acc pieces : list string) :
  clean_comps rooted acc → Forall (λ p, Str.has_char "/" p = false) pieces →
  clean_comps rooted (foldl (clean_step rooted) acc pieces).
Proof.
  revert acc. induction pieces as [|c pieces IH]; intros acc Hacc Hp; [done|].
  inversion Hp; subst. cbn [foldl]. apply IH; [|done]. by apply clean_step_clean.
Qed.

Lemma Clean_is_clean (s : string) : is_clean (Clean s).
Proof.
  unfold Clean. cbv zeta.
  pose proof (foldl_clean_step_clean (Str.HasPrefix s "/") []
                (Str.split_on "/" s) (clean_comps_nil _) (split_facts.split_on_pieces _ _)).
  by destruct (Str.HasPrefix s "/").
Qed.

Lemma Clean_rooted (s : string) :
  Clean s = (if Str.HasPrefix s "/" then Abs else Rel) (comps_of (Clean s)).
Proof. unfold Clean. cbv zeta. by destruct (Str.HasPrefix s "/"). Qed.

Lemma clean_comps_no_slash (rooted : bool) (cs : list string) :
  clean_comps rooted cs → Forall (λ p, Str.has_char "/" p = false) cs.
Proof.
  intros (n & rest & -> & Hrest & _). apply Forall_app. split.
  - apply Forall_replicate. done.
  - eapply Forall_impl; [done|]. by intros ? (_ & _ & _ & ?).
Qed.

Lemma clean_comps_head (rooted : bool) (c : string) (cs : list string) :
  clean_comps rooted (c :: cs) → ∃ x c', c = String x c' ∧ x ≠ "/"%char.
Proof.
  intros (n & rest & E & Hrest & _). destruct n as [|n].
  - cbn in E. subst rest. inversion Hrest as [|? ? (H1 & _ & _ & H4)]; subst.
    destruct c as [|x c']; [done|]. exists x, c'. split; [done|].
    rewrite split_facts.has_char_cons in H4. apply orb_false_elim in H4 as [H4 _].
    intros ->. by rewrite Ascii.eqb_refl in H4.
  - cbn in E. inversion E; subst. by exists "."%char, ".".
Qed.

Lemma Clean_to_string (p : t) : is_clean p → Clean (to_string p) = p.
Proof.
  destruct p as [|cs|cs]; [done| |]; cbn [is_clean]; intros Hc.
  - destruct cs as [|c cs]; [by vm_compute|].
    cbn [to_string]. unfold Clean. cbv zeta.
    assert (Hp : Str.HasPrefix (Str.Join (c :: cs) "/") "/" = false).
    { destruct (clean_comps_head _ _ _ Hc) as (x & c' & -> & Hx).
      unfold Str.HasPrefix, Str.Join. destruct cs; cbn [String.concat];
        rewrite ?split_facts.append_cons, validate_facts.prefix_cons;
        by destruct (ascii_dec "/" x). }
    rewrite Hp. f_equal.
    rewrite (split_facts.split_on_Join "/") by (done || by eapply clean_comps_no_slash).
    by apply foldl_clean_comps.
  - cbn [to_string]. unfold Clean. cbv zeta.
    change ("/" +:+ Str.Join cs "/") with (String "/" (Str.Join cs "/")).
    assert (Hp : Str.HasPrefix (String "/" (Str.Join cs "/")) "/" = true).
    { unfold Str.HasPrefix. rewrite validate_facts.prefix_cons.
      destruct (ascii_dec "/" "/"); [apply validate_facts.prefix_nil|done]. }
    rewrite Hp. f_equal.
    change (String "/" (Str.Join cs "/")) with ("" +:+ String "/" (Str.Join cs "/")).
    rewrite split_facts.split_on_app by done. cbn [foldl]. 
    change (clean_step true [] "") with (@nil string).
    destruct cs as [|c cs]; [done|].
    rewrite (split_facts.split_on_Join "/") by (done || by eapply clean_comps_no_slash).
    by apply foldl_clean_comps.
Qed.

(** [Clean] is idempotent. *)
Lemma Clean_idempotent (s : string) : Clean (to_string (Clean s)) = Clean s.
Proof. apply Clean_to_string, Clean_is_clean. Qed.

Lemma Join_plain (cs : list string) :
  cs ≠ [] → Forall plain cs → Join cs = Rel cs.
Proof.
  intros Hne Hcs. unfold Join.
  assert (Hf : filter (λ e, e ≠ "") cs = cs).
  { clear Hne. induction Hcs as [|c cs (H1 & _) _ IH]; [done|].
    rewrite filter_cons. destruct (decide (c ≠ "")); [by rewrite IH|done]. }
  rewrite Hf. destruct cs as [|c cs]; [done|].
  change (Str.Join (c :: cs) "/") with (to_string (Rel (c :: cs))).
  apply Clean_to_string. exists 0%nat, (c :: cs). by repeat split.
Qed.

End clean_facts.

(** ** What a computation adds to the trace *)
Module trace_facts.
Import os sys.

Section appends.
Context (P : Event → Prop).

Lemma appends_ret {A} (a : A) : appends P (ret a).
Proof. intros w. exists []. by rewrite app_nil_r. Qed.

Lemma appends_fail {A} (e : error) : appends P (fail (A := A) e).
Proof. intros w. exists []. by rewrite app_nil_r. Qed.

Lemma appends_bind {A B} (m : M World A) (k : A → M World B) :
  appends P m → (∀ a, appends P (k a)) → appends P (m ≫= k).
Proof.
  intros Hm Hk w. unfold mbind, M_bind, bind.
  destruct (Hm w) as (evs1 & E1 & H1). destruct (m w) as [[a|e] w1]; cbn [snd] in *.
  - destruct (Hk a w1) as (evs2 & E2 & H2). exists (evs1 ++ evs2).
    rewrite E2, E1, app_assoc. split; [done|]. by apply Forall_app.
  - by exists evs1.
Qed.

Lemma appends_wrap {A} (pre : string) (m : M World A) : appends P m → appends P (wrap pre m).
Proof.
  intros Hm w. unfold wrap. destruct (Hm w) as (evs & E & H).
  destruct (m w) as [[a|e] w1]; by exists evs.
Qed.

Lemma appends_try {A} (m : M World A) : appends P m → appends P (try m).
Proof.
  intros Hm w. unfold try. destruct (Hm w) as (evs & E & H).
  destruct (m w) as [r w1]; by exists evs.
Qed.

Lemma appends_emit (e : Event) : P e → appends P (emit e).
Proof. intros He w. exists [e]. split; [done|]. by repeat constructor. Qed.

Lemma appends_log (level msg : string) : P (Log level msg) → appends P (log level msg).
Proof. apply appends_emit. Qed.

Lemma appends_on_fs {A} (m : M FS A) : appends P (on_fs m).
Proof.
  intros w. unfold on_fs. destruct (m (fs w)) as [r fs']. exists [].
  by rewrite app_nil_r.
Qed.

Lemma appends_look {A} (f : FS → A) : appends P (look f).
Proof. intros w. exists []. by rewrite app_nil_r. Qed.

Lemma appends_pure {A} (f : World → A) : appends P (λ w, (Ok (f w), w)).
Proof. intros w. exists []. by rewrite app_nil_r. Qed.

Lemma appends_now (env : Env) : appends P (now env).
Proof. intros w. exists []. by rewrite app_nil_r. Qed.

Lemma appends_exec_output (env : Env) (c : Cmd) : P (Exec c) → appends P (exec_output env c).
Proof.
  intros Hc w. unfold exec_output. exists [Exec c].
  destruct (succeeded _); (split; [done|by repeat constructor]).
Qed.

Lemma appends_exec (env : Env) (c : Cmd) : P (Exec c) → appends P (exec env c).
Proof.
  intros Hc. unfold exec. apply appends_bind; [by apply appends_exec_output|].
  intros _. apply appends_ret.
Qed.

Lemma appends_for_each {A} (f : A → M World unit) (l : list A) :
  (∀ x, x ∈ l → appends P (f x)) → appends P (for_each f l).
Proof.
  induction l as [|x l IH]; intros Hf; cbn [for_each].
  - apply appends_ret.
  - apply appends_bind; [apply Hf; by left|]. intros _. apply IH.
    intros y Hy. apply Hf. by right.
Qed.

End appends.

Lemma appends_mono {A} (P Q : Event → Prop) (m : M World A) :
  (∀ e, P e → Q e) → appends P m → appends Q m.
Proof.
  intros HPQ Hm w. destruct (Hm w) as (evs & E & H). exists evs. split; [done|].
  by eapply Forall_impl.
Qed.

(** What adds no [Exec] event starts no process. *)
Lemma appends_commands {A} (m : M World A) :
  appends silent m → ∀ w, commands (m w).2 = commands w.
Proof.
  intros Hm w. destruct (Hm w) as (evs & E & H). unfold commands. rewrite E, omap_app.
  assert (omap (λ e, match e with Exec c => Some c | _ => None end) evs = []) as ->.
  { clear E. induction H as [|e evs He _ IH]; [done|]. cbn [omap].
    by destruct e; [destruct He|..]. }
  by rewrite app_nil_r.
Qed.

End trace_facts.

(** ** Loading the configuration *)
Module config_facts.
Import os.

Lemma Load_keeps_fs (cwd : list string) (unmarshal : string → result config.Root)
    (path : string) (fs : FS) :
  (config.Load cwd unmarshal path fs).2 = fs.
Proof.
  unfold config.Load. destruct (config.validatePath path); [done|].
  unfold mbind, M_bind, bind, ReadFile.
  destruct (at_path cwd fs _) as [[data|]|]; [|done|done].
  by destruct (unmarshal data).
Qed.

Lemma to_string_Abs (cs : list string) :
  Str.HasPrefix (filepath.to_string (filepath.Abs cs)) "/" = true.
Proof.
  cbn [filepath.to_string].
  change ("/" +:+ Str.Join cs "/") with (String "/" (Str.Join cs "/")).
  unfold Str.HasPrefix. rewrite validate_facts.prefix_cons.
  destruct (ascii_dec "/" "/"); [apply validate_facts.prefix_nil|done].
Qed.

Lemma existsb_dots (cs : list string) :
  existsb (λ c, Str.Contains c "..") cs = false → ".." ∉ cs.
Proof.
  intros H Hin. apply list_elem_of_In in Hin.
  assert (existsb (λ c, Str.Contains c "..") cs = true); [|congruence].
  apply existsb_exists. by exists "..".
Qed.

(** X5. A configuration that [Load] returns was read from a regular file
    at or below the working directory: the cleaned path is relative and has
    no [".."] step, the file is there, its bytes are what the YAML decoder
    was given, and the file system is left as it was.  A rooted path, and a
    path that climbs out of the working directory, are never read. *)
Theorem Load_reads_below_cwd (cwd : list string) (unmarshal : string → result config.Root)
    (path : string) (fs : FS) (r : config.Root) :
  (config.Load cwd unmarshal path fs).1 = Ok r →
  ∃ rel data,
    filepath.Clean path = filepath.Rel rel ∧ (".." ∉ rel) ∧
    fs !! (cwd ++ rel) = Some (File data) ∧ unmarshal data = Ok r ∧
    (config.Load cwd unmarshal path fs).2 = fs.
Proof.
  intros H. rewrite Load_keeps_fs. revert H. unfold config.Load, config.validatePath.
  destruct (_ || _) eqn:Hv; [done|]. apply orb_false_elim in Hv as [Hdots Hroot].
  destruct (Str.eqb path "") eqn:Hp; [done|].
  destruct (filepath.Clean path) as [|rel|cs] eqn:Hc.
  - pose proof (clean_facts.Clean_is_clean path) as Hk. by rewrite Hc in Hk.
  - rewrite validate_facts.Contains_dots_to_string in Hdots. cbn [filepath.comps_of] in Hdots.
    apply existsb_dots in Hdots.
    unfold mbind, M_bind, bind, ReadFile, at_path. cbn [filepath.resolve].
    rewrite (filepath_facts.foldl_resolve_step_plain _ _ Hdots). cbn [mbind option_bind].
    destruct (fs !! (cwd ++ rel)) as [[data|]|] eqn:Hl; [|done|done].
    destruct (unmarshal data) as [r'|] eqn:Hu; [|done]. cbn. intros [= ->].
    by exists rel, data.
  - by rewrite to_string_Abs in Hroot.
Qed.

Lemma Load_reads_below_cwd_witness :
  ∃ rel data,
    filepath.Clean "build.yaml" = filepath.Rel rel ∧ (".." ∉ rel) ∧
    example.fs0 !! (["ws"] ++ rel) = Some (File data) ∧
    sys.yaml_unmarshal example.env data = Ok example.cfg ∧
    (config.Load ["ws"] (sys.yaml_unmarshal example.env) "build.yaml" example.fs0).2 =
      example.fs0.
Proof.
  apply (Load_reads_below_cwd ["ws"] (sys.yaml_unmarshal example.env) "build.yaml"
           example.fs0 example.cfg).
  vm_compute. reflexivity.
Defined.

End config_facts.

(** ** Configuration errors and dry runs *)
Module cli_facts.
Import os sys main.

Lemma world_eta (w : World) : {| fs := fs w; trace := trace w |} = w.
Proof. by destruct w. Qed.

Lemma load_config_failure (env : Env) (flags : Flags) (w : World) (e : error) :
  (config.Load (cwd env) (yaml_unmarshal env) (flagConfig flags) (fs w)).1 = Err e →
  load_config env flags w = (Err ("load config: " +:+ e), w).
Proof.
  intros H. unfold load_config, wrap, on_fs.
  pose proof (config_facts.Load_keeps_fs (cwd env) (yaml_unmarshal env) (flagConfig flags)
                (fs w)) as Hfs.
  destruct (config.Load _ _ _ _) as [r fs']. cbn [fst snd] in *. subst.
  by rewrite world_eta.
Qed.

Lemma load_config_success (env : Env) (flags : Flags) (w : World) (cfg : config.Root) :
  (config.Load (cwd env) (yaml_unmarshal env) (flagConfig flags) (fs w)).1 = Ok cfg →
  load_config env flags w = (Ok cfg, w).
Proof.
  intros H. unfold load_config, wrap, on_fs.
  pose proof (config_facts.Load_keeps_fs (cwd env) (yaml_unmarshal env) (flagConfig flags)
                (fs w)) as Hfs.
  destruct (config.Load _ _ _ _) as [r fs']. cbn [fst snd] in *. subst.
  by rewrite world_eta.
Qed.

Lemma fatal_load_config (e : error) : fatal ("load config: " +:+ e) = ExitConfigError.
Proof.
  unfold fatal.
  change ("load config: " +:+ e) with ("load config" +:+ (": " +:+ e)).
  by rewrite split_facts.Contains_prefix.
Qed.

Lemma runPlan_failure (env : Env) (flags : Flags) (w : World) (e : error) :
  (config.Load (cwd env) (yaml_unmarshal env) (flagConfig flags) (fs w)).1 = Err e →
  runPlan env flags w = (Err ("load config: " +:+ e), w).
Proof.
  intros H. unfold runPlan, mbind, M_bind, bind. by rewrite (load_config_failure _ _ _ _ H).
Qed.

Lemma runBuild_failure (env : Env) (flags : Flags) (w : World) (e : error) :
  (config.Load (cwd env) (yaml_unmarshal env) (flagConfig flags) (fs w)).1 = Err e →
  runBuild env flags w = (Err ("load config: " +:+ e), w).
Proof.
  intros H. unfold runBuild. destruct (flagDryRun flags); [by apply runPlan_failure|].
  unfold mbind, M_bind, bind. by rewrite (load_config_failure _ _ _ _ H).
Qed.

(** X6. When the configuration cannot be loaded, whatever the reason,
    [plan] and [build] end with exit status 2, and nothing was logged,
    written to standard output, started or written to a file. *)
Theorem config_error_exit_code (env : Env) (flags : Flags)
    (json_unmarshal : string → result artifact.Manifest) (args : list string)
    (w : World) (e : error) :
  flagVersion flags = false →
  hd "build" args = "build" ∨ hd "build" args = "plan" →
  (config.Load (cwd env) (yaml_unmarshal env) (flagConfig flags) (fs w)).1 = Err e →
  main.main env flags json_unmarshal args w = (ExitConfigError, w) ∧
  main_build env flags w = (ExitConfigError, w).
Proof.
  intros Hv Hcmd He. split.
  - unfold main.main. rewrite Hv. cbv zeta.
    destruct Hcmd as [-> | ->].
    + change (Str.eqb "build" "plan") with false. change (Str.eqb "build" "build") with true.
      cbv iota. unfold exit_of. rewrite (runBuild_failure _ _ _ _ He).
      by rewrite fatal_load_config.
    + change (Str.eqb "plan" "plan") with true.
      cbv iota. unfold exit_of. rewrite (runPlan_failure _ _ _ _ He).
      by rewrite fatal_load_config.
  - unfold main_build. rewrite (runBuild_failure _ _ _ _ He). by rewrite fatal_load_config.
Qed.

Lemma config_error_exit_code_witness :
  main.main example.env example.flags example.json_unmarshal []
    (example.start example.fs_bare) = (ExitConfigError, example.start example.fs_bare) ∧
  main_build example.env example.flags (example.start example.fs_bare) =
    (ExitConfigError, example.start example.fs_bare).
Proof.
  apply (config_error_exit_code example.env example.flags example.json_unmarshal []
           (example.start example.fs_bare) "open build.yaml: no such file or directory").
  - reflexivity.
  - by left.
  - vm_compute. reflexivity.
Defined.

Lemma for_each_emit {A} (f : A → Event) (l : list A) (w : World) :
  for_each (λ x, emit (f x)) l w = (Ok tt, {| fs := fs w; trace := trace w ++ map f l |}).
Proof.
  revert w. induction l as [|x l IH]; intros w; cbn [for_each map].
  - by rewrite app_nil_r, world_eta.
  - unfold mbind, M_bind, bind. cbn [emit]. rewrite IH. cbn [fs trace].
    by rewrite <- app_assoc.
Qed.

Lemma printPlan_run (p : planner.Plan) (w : World) :
  printPlan p w =
    (Ok tt, {| fs := fs w; trace := trace w ++ map Print (plan_lines p) |}).
Proof.
  unfold printPlan, mbind, M_bind, bind. cbn [emit]. rewrite for_each_emit.
  cbn [fs trace]. rewrite <- app_assoc. unfold plan_lines. cbn [map app].
  by rewrite map_map.
Qed.

(** X7. A dry run of [build] with a configuration that loads succeeds,
    starts no process and writes no file: it logs that the plan was made
    and prints it, a header with the number of tasks and one line for each
    task, in plan order. *)
Theorem dry_run_only_prints (env : Env) (flags : Flags) (w : World) (cfg : config.Root) :
  flagDryRun flags = true →
  (config.Load (cwd env) (yaml_unmarshal env) (flagConfig flags) (fs w)).1 = Ok cfg →
  runBuild env flags w =
    (Ok tt,
     {| fs := fs w;
        trace := trace w ++ Log "INFO" "plan generated" ::
                 map Print (plan_lines (planner.Expand cfg (parseOnly flags))) |}).
Proof.
  intros Hd Hl. unfold runBuild. rewrite Hd. unfold runPlan, mbind, M_bind, bind.
  rewrite (load_config_success _ _ _ _ Hl). cbn [log emit]. rewrite printPlan_run.
  cbn [fs trace]. by rewrite <- app_assoc.
Qed.

Lemma dry_run_only_prints_witness :
  runBuild example.env example.flags_dry (example.start example.fs0) =
    (Ok tt,
     {| fs := fs (example.start example.fs0);
        trace := trace (example.start example.fs0) ++ Log "INFO" "plan generated" ::
                 map Print (plan_lines (planner.Expand example.cfg
                                          (parseOnly example.flags_dry))) |}).
Proof.
  apply (dry_run_only_prints example.env example.flags_dry (example.start example.fs0)
           example.cfg).
  - reflexivity.
  - vm_compute. reflexivity.
Defined.

End cli_facts.

(** ** Cache entries after [Store] *)
Module entry_facts.
Import os cache.

Lemma run_pair {S A} (m : M S A) (s : S) (a : A) :
  (m s).1 = Ok a → m s = (Ok a, (m s).2).
Proof. destruct (m s) as [r s']. cbn. by intros ->. Qed.

(** X21. After a [Store] that succeeds, the key counts as cached exactly
    when the source directory holds a [manifest.json], or the entry held
    one before: storing a directory that has no manifest yet does not make
    the key a cache hit. *)
Theorem Store_then_Exists (cwd : list string) (key : string) (sourceDir : filepath.t)
    (fs : FS) (ka kc : list string) :
  wf fs →
  filepath.resolve cwd sourceDir = Some ka →
  filepath.resolve cwd (cacheDir key) = Some kc →
  apart ka kc →
  fs !! ka = Some Directory →
  (Store cwd key sourceDir fs).1 = Ok tt →
  Exists cwd key (Store cwd key sourceDir fs).2 =
    bool_decide (is_Some (fs !! (ka ++ ["manifest.json"]))) || Exists cwd key fs.
Proof.
  intros Hwf Hka Hkc Hap Hdir HS. apply run_pair in HS.
  rewrite store_facts.Store_is_mkdir_copy in HS.
  apply (store_facts.mkdir_copy_inv cwd sourceDir (cacheDir key) ka kc fs _ Hka Hkc Hap Hdir)
    in HS as [HS _].
  2: { intros rel e. by apply store_facts.wf_plain. }
  2: { intros r1 r2 e. by apply store_facts.wf_closed. }
  rewrite !(store_facts.Exists_spec _ _ _ _ Hkc).
  rewrite <- store_facts.Store_is_mkdir_copy in HS. rewrite HS.
  destruct (fs !! (ka ++ ["manifest.json"])) as [e|] eqn:E.
  - by rewrite (bool_decide_eq_true_2 (is_Some (Some e))) by eauto.
  - rewrite (bool_decide_eq_false_2 (is_Some None)) by (by intros [? ?]). done.
Qed.

Lemma Store_then_Exists_witness :
  Exists ["ws"] example.key (Store ["ws"] example.key example.outDir example.fs_built).2 =
    bool_decide (is_Some (example.fs_built !!
                            (["ws"; "out"; "api"; "6.0.415"] ++ ["manifest.json"]))) ||
    Exists ["ws"] example.key example.fs_built.
Proof.
  apply (Store_then_Exists ["ws"] example.key example.outDir example.fs_built
           ["ws"; "out"; "api"; "6.0.415"] ["ws"; ".buildcache"; example.key]).
  - compute_done.
  - reflexivity.
  - reflexivity.
  - compute_done.
  - vm_compute. reflexivity.
  - vm_compute. reflexivity.
Defined.






End entry_facts.

(** ** [copyFile] *)
Module copyFile_facts.
Import os cache.

Lemma validatePath_child (dir : filepath.t) (name : string) :
  validatePath (filepath.child dir name) = None → name ≠ "..".
Proof.
  intros H. apply validate_facts.validatePath_None in H.
  rewrite filepath_facts.comps_of_child in H. apply Forall_app in H as [_ H].
  inversion H; subst. by apply validate_facts.nodots_plain.
Qed.

Lemma Dir_child (dir : filepath.t) (name : string) :
  dir ≠ filepath.Empty → filepath.Dir (filepath.child dir name) = dir.
Proof. intros H. apply (filepath_facts.Dir_descend_snoc dir [] name H). Qed.

Lemma drop_last_snoc {A} (l : list A) (x : A) : filepath.drop_last (l ++ [x]) = l.
Proof. unfold filepath.drop_last. apply removelast_last. Qed.

Lemma not_prefix_snoc (k : list string) (n : string) : ¬ (k ++ [n]) `prefix_of` k.
Proof.
  intros [r Hr]. apply (f_equal length) in Hr. rewrite !length_app in Hr. cbn in Hr. lia.
Qed.

(** X25. [copyFile] of a regular file to a name in a directory that can
    be made leaves the destination holding the source's bytes, and the
    directories down to it existing; but copied onto itself the file ends
    up empty: the destination is truncated before the source is read. *)
Theorem copyFile_result (cwd : list string) (src dir : filepath.t) (name : string)
    (fs : FS) (ks kd : list string) (data : string) :
  let dest := filepath.child dir name in
  dir ≠ filepath.Empty →
  validatePath src = None → validatePath dest = None →
  filepath.resolve cwd src = Some ks →
  filepath.resolve cwd dir = Some kd →
  fs !! ks = Some (File data) →
  clear_way fs kd →
  fs !! (kd ++ [name]) ≠ Some Directory →
  copyFile cwd src dest fs =
    (Ok tt,
     <[kd ++ [name] := File (if decide (ks = kd ++ [name]) then "" else data)]>
       (mkdirs fs (prefixes kd))).
Proof.
  intros dest Hdir Hvs Hvd Hks Hkd Hfile Hclear Hnd. unfold copyFile.
  rewrite Hvs, Hvd. unfold dest in *.
  pose proof (filepath_facts.resolve_child cwd dir kd name Hkd (validatePath_child _ _ Hvd))
    as Hdest.
  pose proof (proj1 (store_facts.clear_way_spec fs kd) Hclear) as Hcl.
  assert (Hlook : ∀ q, mkdirs fs (prefixes kd) !! q =
                       if bool_decide (q `prefix_of` kd) then Some Directory else fs !! q).
  { intros q. rewrite os_facts.lookup_mkdirs.
    by rewrite (bool_decide_ext _ _ (os_facts.elem_of_prefixes q kd)). }
  unfold mbind, M_bind, bind.
  unfold Open, at_path. rewrite Hks. cbn [mbind option_bind]. rewrite Hfile.
  rewrite (Dir_child _ _ Hdir). unfold MkdirAll. rewrite Hkd.
  rewrite (proj2 (os_facts.no_file_above fs kd) Hcl).
  unfold Create. rewrite Hdest, drop_last_snoc, !Hlook.
  rewrite (bool_decide_eq_false_2 _ (not_prefix_snoc kd name)).
  rewrite (bool_decide_eq_true_2 (kd `prefix_of` kd)) by done.
  assert (Hc : ∀ (X : result unit * FS),
            match fs !! (kd ++ [name]) with
            | Some Directory => X
            | _ => (Ok tt, <[kd ++ [name] := File ""]> (mkdirs fs (prefixes kd)))
            end = (Ok tt, <[kd ++ [name] := File ""]> (mkdirs fs (prefixes kd)))).
  { intros X. by destruct (fs !! (kd ++ [name])) as [[|]|]. }
  rewrite Hc. unfold Copy, at_path. rewrite Hks, Hdest. cbn [mbind option_bind].
  destruct (decide (ks = kd ++ [name])) as [->|Hne].
  - rewrite lookup_insert_eq. by rewrite insert_insert_eq.
  - rewrite lookup_insert_ne by done. rewrite Hlook.
    rewrite bool_decide_eq_false_2.
    + rewrite Hfile. by rewrite insert_insert_eq.
    + intros Hp. specialize (Hcl _ Hp). by rewrite Hfile in Hcl.
Qed.

Lemma copyFile_result_witness :
  copyFile ["ws"] (filepath.child example.outDir "manifest.json")
    (filepath.child example.outDir "manifest.json") example.fs_built =
    (Ok tt,
     <[ ["ws"; "out"; "api"; "6.0.415"] ++ ["manifest.json"] :=
          File (if decide (["ws"; "out"; "api"; "6.0.415"; "manifest.json"] =
                           ["ws"; "out"; "api"; "6.0.415"] ++ ["manifest.json"])
                then "" else "{}") ]>
       (mkdirs example.fs_built (prefixes ["ws"; "out"; "api"; "6.0.415"]))).
Proof.
  apply (copyFile_result ["ws"] (filepath.child example.outDir "manifest.json")
           example.outDir "manifest.json" example.fs_built
           ["ws"; "out"; "api"; "6.0.415"; "manifest.json"]
           ["ws"; "out"; "api"; "6.0.415"] "{}").
  - done.
  - reflexivity.
  - reflexivity.
  - reflexivity.
  - reflexivity.
  - vm_compute. reflexivity.
  - compute_done.
  - by vm_compute.
Defined.

End copyFile_facts.

(** ** The [clean] command *)
Module clean_cmd_facts.
Import os sys main.

Lemma take_prefix (k q : list string) : take (length k) q = k ↔ k `prefix_of` q.
Proof.
  split.
  - intros <-. apply prefix_take.
  - intros [r ->]. by rewrite take_app_length.
Qed.

Lemma lookup_RemoveAll (cwd : list string) (p : filepath.t) (k : list string) (fs : FS)
    (q : list string) :
  filepath.resolve cwd p = Some k →
  (RemoveAll cwd p fs).2 !! q = if bool_decide (k `prefix_of` q) then None else fs !! q.
Proof.
  intros Hk. unfold RemoveAll. rewrite Hk. cbn [snd].
  destruct (bool_decide (k `prefix_of` q)) eqn:E.
  - apply bool_decide_eq_true in E. apply map_lookup_filter_None. right.
    intros e _ H. apply H. by apply take_prefix.
  - apply bool_decide_eq_false in E.
    destruct (fs !! q) as [e|] eqn:Hq.
    + apply map_lookup_filter_Some. split; [done|]. cbn. by rewrite take_prefix.
    + apply map_lookup_filter_None. by left.
Qed.

Lemma RemoveAll_ok (cwd : list string) (p : filepath.t) (fs : FS) :
  (RemoveAll cwd p fs).1 = Ok tt.
Proof. unfold RemoveAll. by destruct (filepath.resolve cwd p). Qed.

Lemma runClean_unfold (env : Env) (w : World) :
  runClean env w =
    (Ok tt,
     {| fs := (RemoveAll (cwd env) (filepath.Rel ["out"])
                 (RemoveAll (cwd env) (filepath.Rel [".buildcache"]) (fs w)).2).2;
        trace := trace w ++ [Log "INFO" "clean completed"] |}).
Proof.
  unfold runClean, mbind, M_bind, bind, wrap, on_fs, log, emit. cbn [fs trace].
  pose proof (RemoveAll_ok (cwd env) (filepath.Rel [".buildcache"]) (fs w)) as H1.
  destruct (RemoveAll (cwd env) (filepath.Rel [".buildcache"]) (fs w)) as [r1 fs1].
  cbn [fst snd] in *. subst r1. cbn [fs trace].
  pose proof (RemoveAll_ok (cwd env) (filepath.Rel ["out"]) fs1) as H2.
  destruct (RemoveAll (cwd env) (filepath.Rel ["out"]) fs1) as [r2 fs2].
  cbn [fst snd] in *. by subst r2.
Qed.

(** X26. [clean] removes [.buildcache] and [out] in the working
    directory with all they hold, leaves every other path as it was, logs
    one line and returns no error (permissions are not modelled). *)
Theorem runClean_removes (env : Env) (w : World) :
  (runClean env w).1 = Ok tt ∧
  trace (runClean env w).2 = trace w ++ [Log "INFO" "clean completed"] ∧
  ∀ q, fs (runClean env w).2 !! q =
       if bool_decide ((cwd env ++ [".buildcache"]) `prefix_of` q ∨
                       (cwd env ++ ["out"]) `prefix_of` q)
       then None else fs w !! q.
Proof.
  rewrite runClean_unfold. cbn [fst snd fs trace]. split; [done|]. split; [done|].
  intros q.
  rewrite (lookup_RemoveAll _ _ (cwd env ++ ["out"])) by done.
  rewrite (lookup_RemoveAll _ _ (cwd env ++ [".buildcache"])) by done.
  destruct (decide ((cwd env ++ [".buildcache"]) `prefix_of` q)) as [H1|H1];
    destruct (decide ((cwd env ++ ["out"]) `prefix_of` q)) as [H2|H2].
  all: rewrite ?(bool_decide_eq_true_2 _ H1), ?(bool_decide_eq_false_2 _ H1),
         ?(bool_decide_eq_true_2 _ H2), ?(bool_decide_eq_false_2 _ H2).
  1-3: rewrite bool_decide_eq_true_2 by tauto; done.
  rewrite bool_decide_eq_false_2 by tauto. done.
Qed.

Lemma all_chars_has_char (ok : ascii → bool) (c : ascii) (s : string) :
  Str.all_chars ok s = true → ok c = false → Str.has_char c s = false.
Proof.
  unfold Str.all_chars, Str.has_char. intros Hall Hc.
  induction (list_ascii_of_string s) as [|x l IH]; [done|].
  cbn in *. apply andb_prop in Hall as [Hx Hl]. rewrite (IH Hl), orb_false_r.
  destruct (Ascii.eqb_spec c x) as [->|]; [congruence|done].
Qed.

Lemma Key_plain (cwd : list string) (task : planner.Task) (root : string) (fs : FS) :
  filepath.plain (cache.Key cwd task root fs).1.
Proof.
  assert (Hlen : String.length (cache.Key cwd task root fs).1 = 12%nat).
  { unfold cache.Key. cbn [fst]. apply StrMore.length_substring_0.
    rewrite cache_facts.digest_length. lia. }
  assert (Hhex : Str.all_chars Str.is_lower_hex (cache.Key cwd task root fs).1 = true).
  { unfold cache.Key. cbn [fst]. apply StrMore.all_chars_substring_0. unfold cache.digest.
    apply sha256_facts.hex_lower, sha256_facts.Sum_byte. }
  repeat split.
  1-3: intros E; by rewrite E in Hlen.
  by apply (all_chars_has_char _ _ _ Hhex).
Qed.

Lemma cacheDir_plain (key : string) :
  filepath.plain key → cache.cacheDir key = filepath.Rel [".buildcache"; key].
Proof.
  intros Hk. unfold cache.cacheDir. apply clean_facts.Join_plain; [done|].
  apply Forall_cons_2; [by repeat split|]. apply Forall_cons_2; [done|]. apply Forall_nil_2.
Qed.

Lemma manifest_of_entry (cwd : list string) (key : string) :
  filepath.plain key →
  filepath.resolve cwd (filepath.child (cache.cacheDir key) "manifest.json") =
    Some (cwd ++ [".buildcache"; key; "manifest.json"]).
Proof.
  intros Hk. rewrite (cacheDir_plain _ Hk). cbn [filepath.child app filepath.resolve].
  f_equal. apply filepath_facts.foldl_resolve_step_plain.
  destruct Hk as (_ & _ & Hk & _).
  intros H. apply list_elem_of_In in H. cbn in H. intuition congruence.
Qed.

(** X27. After [clean] no key of any task counts as cached: [Exists] is
    false, the scheduler takes the build branch, and [Restore] answers that
    the key was not found, changing nothing. *)
Theorem clean_empties_cache (env : Env) (flags : Flags) (w : World)
    (task : planner.Task) (root : string) (fs0 : FS) :
  let w' := (runClean env w).2 in
  let key := (cache.Key (cwd env) task root fs0).1 in
  cache.Exists (cwd env) key (fs w') = false ∧
  cache_hit env flags key w' = false ∧
  ∀ destDir, cache.Restore (cwd env) key destDir (fs w') =
               (Err ("cache key not found: " +:+ key), fs w').
Proof.
  intros w' key.
  assert (Hk : filepath.plain key) by apply Key_plain. clearbody key.
  assert (HE : cache.Exists (cwd env) key (fs w') = false).
  { unfold cache.Exists, at_path.
    rewrite (manifest_of_entry _ _ Hk). cbn [mbind option_bind].
    destruct (runClean_removes env w) as (_ & _ & Hl). unfold w'. rewrite Hl.
    rewrite (bool_decide_eq_true_2 (_ ∨ _)).
    - apply bool_decide_eq_false_2. by intros [? ?].
    - left. exists [key; "manifest.json"]. by rewrite <- app_assoc. }
  split; [done|]. split.
  - unfold cache_hit. by rewrite HE, andb_false_r.
  - intros destDir. unfold cache.Restore. by rewrite HE.
Qed.

End clean_cmd_facts.

(** ** Image names of the build step *)
Module image_facts.
Import os sys runner.

Lemma all_chars_app (ok : ascii → bool) (a b : string) :
  Str.all_chars ok (a +:+ b) = Str.all_chars ok a && Str.all_chars ok b.
Proof.
  unfold Str.all_chars. induction a as [|x a IH]; [done|].
  rewrite split_facts.append_cons. cbn [list_ascii_of_string forallb].
  by rewrite IH, andb_assoc.
Qed.

Lemma split_on_sep (sep : ascii) (s : string) :
  Str.has_char sep s = true → ∃ a b rest, Str.split_on sep s = a :: b :: rest.
Proof.
  induction s as [|c s IH]; [done|]. rewrite split_facts.has_char_cons.
  cbn [Str.split_on]. destruct (Ascii.eqb_spec sep c) as [<-|Hne].
  - intros _. rewrite Ascii.eqb_refl.
    destruct (Str.split_on sep s) as [|b rest] eqn:E;
      [by destruct (split_facts.split_on_nonempty sep s)|]. by exists "", b, rest.
  - cbn [orb]. intros H. destruct (IH H) as (a & b & rest & E). rewrite E.
    assert (Ascii.eqb c sep = false) as ->.
    { apply Ascii.eqb_neq. congruence. }
    by exists (String c a), b, rest.
Qed.

Lemma tag_has_no_colon (v : string) :
  docker.matches_tag v = true → Str.has_char ":" v = false.
Proof.
  unfold docker.matches_tag. intros [_ H]%andb_prop.
  by apply (clean_cmd_facts.all_chars_has_char _ _ _ H).
Qed.

(** An image name made of a repository without colon and a version
    passes [validateDockerImage] exactly when the version is a tag. *)
Lemma matches_image_versioned (name v : string) :
  Str.has_char ":" name = false → docker.matches_repo name = true →
  matches_image (name +:+ String ":" v) = docker.matches_tag v.
Proof.
  intros Hn Hrepo. unfold matches_image.
  assert (docker.matches_repo (name +:+ String ":" v) = false) as ->.
  { unfold docker.matches_repo. rewrite all_chars_app.
    assert (Str.all_chars docker.repo_char (String ":" v) = false) as -> by done.
    by rewrite andb_false_r, andb_false_r. }
  cbn [orb]. rewrite (split_facts.split_on_app ":" name v Hn).
  destruct (Str.has_char ":" v) eqn:Hv.
  - destruct (split_on_sep _ _ Hv) as (a & b & rest & ->).
    destruct (docker.matches_tag v) eqn:Ht; [|done].
    apply tag_has_no_colon in Ht. congruence.
  - rewrite (split_facts.split_on_plain _ _ Hv). by rewrite Hrepo.
Qed.

Lemma dockerSpec_image (task : planner.Task) (pkgManager : string)
    (buildScripts : list string) :
  planner.Kind task = "dotnet" ∨ planner.Kind task = "node" →
  validateDockerImage (dockerSpec task pkgManager buildScripts).1 =
    if docker.matches_tag (planner.Version task) then None
    else Some ("invalid Docker image name: " +:+ (dockerSpec task pkgManager buildScripts).1).
Proof.
  intros Hk. unfold validateDockerImage, dockerSpec.
  destruct Hk as [-> | ->].
  - change (Str.eqb "dotnet" "dotnet") with true. cbv iota. cbn [fst].
    change ("mcr.microsoft.com/dotnet/sdk:" +:+ planner.Version task)
      with ("mcr.microsoft.com/dotnet/sdk" +:+ String ":" (planner.Version task)).
    rewrite matches_image_versioned by done. by destruct (docker.matches_tag _).
  - change (Str.eqb "node" "dotnet") with false. change (Str.eqb "node" "node") with true.
    cbv iota. cbn [fst].
    change ("node:" +:+ planner.Version task)
      with ("node" +:+ String ":" (planner.Version task)).
    rewrite matches_image_versioned by done. by destruct (docker.matches_tag _).
Qed.

(** X15. A [dotnet] or [node] task whose version is not a docker tag
    (empty, or with a byte outside letters, digits, dot, underscore and
    dash) is refused by [RunTask]: it returns an error, starts no process
    and logs nothing. *)
Theorem RunTask_rejects_version (env : Env) (task : planner.Task)
    (workspaceRoot pkgManager : string) (buildScripts : list string) (w : World) :
  planner.Kind task = "dotnet" ∨ planner.Kind task = "node" →
  docker.matches_tag (planner.Version task) = false →
  (∃ e, (RunTask env task workspaceRoot pkgManager buildScripts w).1 = Err e) ∧
  (RunTask env task workspaceRoot pkgManager buildScripts w).2 = w.
Proof.
  intros Hk Hv. unfold RunTask.
  destruct (validatePath workspaceRoot) as [e|]; [split; [by eexists|done]|].
  unfold mbind, M_bind, bind, wrap, on_fs, Stat.
  destruct (at_path _ _ _) as [en|]; cbn [fs trace].
  2: { rewrite cli_facts.world_eta. split; [by eexists|done]. }
  rewrite cli_facts.world_eta.
  pose proof (dockerSpec_image task pkgManager buildScripts Hk) as Hi. rewrite Hv in Hi.
  destruct (dockerSpec task pkgManager buildScripts) as [image command]. cbn [fst] in Hi.
  rewrite Hi. split; [by eexists|done].
Qed.

Lemma RunTask_rejects_version_witness :
  (∃ e, (RunTask example.env example.task_bad "/ws" "" []
           (example.start example.fs_two_apps)).1 = Err e) ∧
  (RunTask example.env example.task_bad "/ws" "" [] (example.start example.fs_two_apps)).2 =
    example.start example.fs_two_apps.
Proof.
  apply (RunTask_rejects_version example.env example.task_bad "/ws" "" []
           (example.start example.fs_two_apps)).
  - by right.
  - reflexivity.
Defined.

(** No planned task reaches the fallback image of [dockerSpec]: its kind
    is [dotnet] or [node], and its image is the SDK or the Node image of its
    version. *)
Corollary planned_task_image (cfg : config.Root) (selected : gset string)
    (task : planner.Task) (pkgManager : string) (buildScripts : list string) :
  task ∈ planner.Tasks (planner.Expand cfg selected) →
  planner.Version task ≠ "" ∧
  ((planner.Kind task = "dotnet" ∧
    dockerSpec task pkgManager buildScripts =
      ("mcr.microsoft.com/dotnet/sdk:" +:+ planner.Version task,
       "dotnet restore && dotnet build -c Release")) ∨
   (planner.Kind task = "node" ∧
    (dockerSpec task pkgManager buildScripts).1 = "node:" +:+ planner.Version task)) ∧
  (validateDockerImage (dockerSpec task pkgManager buildScripts).1 = None ↔
   docker.matches_tag (planner.Version task) = true).
Proof.
  intros Ht. apply expand_facts.Expand_tasks in Ht as (m & _ & _ & _ & Hk & Hv & Hty).
  assert (Hkind : planner.Kind task = "dotnet" ∨ planner.Kind task = "node").
  { destruct Hty as [[E _]|[E _]]; rewrite Hk, E; [by left|by right]. }
  split; [done|]. split.
  - unfold dockerSpec. destruct Hkind as [E|E]; rewrite E.
    + left. done.
    + right. done.
  - rewrite (dockerSpec_image _ _ _ Hkind). by destruct (docker.matches_tag _).
Qed.

End image_facts.

(** ** The processes of [BuildAndPush] *)
Module publish_facts.
Import os sys docker trace_facts.

Ltac appends_step :=
  lazymatch goal with
  | |- appends _ (mbind _ _) => apply appends_bind; [|intros ?]
  | |- appends _ (bind _ _) => apply appends_bind; [|intros ?]
  | |- appends _ (mret _) => apply appends_ret
  | |- appends _ (ret _) => apply appends_ret
  | |- appends _ (fail _) => apply appends_fail
  | |- appends _ (wrap _ _) => apply appends_wrap
  | |- appends _ (try _) => apply appends_try
  | |- appends _ (log _ _) => apply appends_log
  | |- appends _ (emit _) => apply appends_emit
  | |- appends _ (on_fs _) => apply appends_on_fs
  | |- appends _ (look _) => apply appends_look
  | |- appends _ (now _) => apply appends_now
  | |- appends _ (exec _ _) => apply appends_exec
  | |- appends _ (exec_output _ _) => apply appends_exec_output
  | |- appends _ (for_each _ _) => apply appends_for_each; intros ? ?
  | |- appends _ (if ?b then _ else _) => destruct b
  | |- appends _ (match ?x with _ => _ end) => destruct x
  end.

Ltac appends_auto := repeat appends_step.

Lemma runs_docker (subs : list string) (sub : string) (rest : list string)
    (dir : option filepath.t) :
  sub ∈ subs → runs_only "docker" subs (Exec (docker_cmd (sub :: rest) dir)).
Proof. intros H. by split. Qed.

Lemma pushToRegistries_appends (env : Env) (dc : config.DockerConfig) (projectPath : string) :
  appends (runs_only "docker" ["build"; "tag"; "push"]) (pushToRegistries env dc projectPath).
Proof.
  unfold pushToRegistries, push_tag. appends_auto; try done.
  all: apply runs_docker; set_solver.
Qed.

Lemma build_loop_appends (env : Env) (repository projectPath : string) (workDir : filepath.t)
    (first : string) (l : list (nat * string)) :
  appends (runs_only "docker" ["build"; "tag"])
          (for_each (build_or_tag env repository projectPath workDir first) l).
Proof.
  unfold build_or_tag. appends_auto; try done.
  all: apply runs_docker; set_solver.
Qed.

Lemma runs_only_mono (name : string) (subs1 subs2 : list string) (e : Event) :
  subs1 ⊆ subs2 → runs_only name subs1 e → runs_only name subs2 e.
Proof. intros Hs. destruct e; [|done|done]. intros [? ?]. split; [done|]. by apply Hs. Qed.

(** X16. Every process that [BuildAndPush] starts is [docker build],
    [docker tag] or [docker push]; when pushing is off (or there is no
    configuration) it is never [docker push]. *)
Theorem BuildAndPush_commands (env : Env) (projectPath : string)
    (dockerConfig : option config.DockerConfig) (workspaceRoot : string) :
  appends (runs_only "docker" ["build"; "tag"; "push"])
          (BuildAndPush env projectPath dockerConfig workspaceRoot) ∧
  (from_option config.Push false dockerConfig = false →
   appends (runs_only "docker" ["build"; "tag"])
           (BuildAndPush env projectPath dockerConfig workspaceRoot)).
Proof.
  split.
  - unfold BuildAndPush.
    destruct dockerConfig as [dc|]; [|apply appends_ret].
    destruct (negb (config.Enabled dc)); [apply appends_ret|].
    destruct (validateRepositoryName _); [apply appends_fail|].
    apply appends_bind; [apply appends_look|]. intros gone.
    destruct gone; [by apply appends_log|].
    apply appends_bind; [by apply appends_log|]. intros _.
    destruct (validate_tags _); [apply appends_fail|].
    apply appends_bind.
    + eapply appends_mono; [|apply build_loop_appends].
      intros e. apply runs_only_mono. intros x Hx. rewrite !elem_of_cons in *. tauto.
    + intros _. destruct (config.Push dc); [|apply appends_ret].
      apply appends_wrap, pushToRegistries_appends.
  - intros Hpush. unfold BuildAndPush.
    destruct dockerConfig as [dc|]; [|apply appends_ret]. cbn in Hpush.
    destruct (negb (config.Enabled dc)); [apply appends_ret|].
    destruct (validateRepositoryName _); [apply appends_fail|].
    apply appends_bind; [apply appends_look|]. intros gone.
    destruct gone; [by apply appends_log|].
    apply appends_bind; [by apply appends_log|]. intros _.
    destruct (validate_tags _); [apply appends_fail|].
    apply appends_bind; [apply build_loop_appends|].
    intros _. rewrite Hpush. apply appends_ret.
Qed.

Lemma validate_tags_Some (tags : list string) (tag : string) :
  tag ∈ tags → validateDockerTag tag ≠ None →
  ∃ bad, bad ∈ tags ∧ validateDockerTag bad ≠ None ∧
         validate_tags tags = Some ("security check failed: invalid Docker tag: " +:+ bad).
Proof.
  induction tags as [|t tags IH]; [by intros ?%elem_of_nil|].
  intros Hin Hbad. cbn [validate_tags].
  destruct (validateDockerTag t) as [e|] eqn:E.
  - exists t. split; [by left|]. split; [by rewrite E|].
    unfold validateDockerTag in E. destruct (_ || _); [|done]. by inversion E.
  - apply elem_of_cons in Hin as [->|Hin]; [congruence|].
    destruct (IH Hin Hbad) as (bad & H1 & H2 & H3). exists bad. split; [by right|]. done.
Qed.

(** X17. With one invalid tag among the configured tags, [BuildAndPush]
    starts no process and writes nothing; when the Dockerfile is there it
    returns the security error that names an invalid tag. *)
Theorem BuildAndPush_rejects_tag (env : Env) (projectPath workspaceRoot : string)
    (dc : config.DockerConfig) (tag : string) (w : World) :
  let workDir := filepath.Join [workspaceRoot; projectPath] in
  let dockerfilePath :=
    filepath.Join [filepath.to_string workDir;
                   if Str.eqb (config.Dockerfile dc) "" then "Dockerfile"
                   else config.Dockerfile dc] in
  config.Enabled dc = true →
  validateRepositoryName (config.Repository dc) = None →
  tag ∈ config.Tags dc → validateDockerTag tag ≠ None →
  commands (BuildAndPush env projectPath (Some dc) workspaceRoot w).2 = commands w ∧
  fs (BuildAndPush env projectPath (Some dc) workspaceRoot w).2 = fs w ∧
  (missing (cwd env) (fs w) dockerfilePath = false →
   ∃ bad, bad ∈ config.Tags dc ∧ validateDockerTag bad ≠ None ∧
     (BuildAndPush env projectPath (Some dc) workspaceRoot w).1 =
       Err ("security check failed: invalid Docker tag: " +:+ bad)).
Proof.
  intros workDir dockerfilePath Hen Hrepo Hin Hbad.
  assert (Hd : default_tags (config.Tags dc) = config.Tags dc).
  { destruct (config.Tags dc); [by apply elem_of_nil in Hin|done]. }
  destruct (validate_tags_Some _ _ Hin Hbad) as (bad & Hb1 & Hb2 & Hb3).
  unfold BuildAndPush. rewrite Hen, Hrepo. cbn [negb].
  unfold mbind, M_bind, bind, look, log, emit. cbv zeta.
  replace (if Str.eqb (config.Dockerfile dc) ""
           then filepath.Join [filepath.to_string (filepath.Join [workspaceRoot; projectPath]);
                               "Dockerfile"]
           else filepath.Join [filepath.to_string (filepath.Join [workspaceRoot; projectPath]);
                               config.Dockerfile dc])
    with dockerfilePath by (unfold dockerfilePath, workDir; by destruct (Str.eqb _ _)).
  destruct (missing (cwd env) (fs w) dockerfilePath) eqn:Hm.
  - unfold commands. cbn [snd trace fs]. rewrite omap_app. cbn [omap].
    by rewrite app_nil_r.
  - rewrite Hd, Hb3. unfold fail, commands. cbn [fst snd trace fs].
    rewrite omap_app. cbn [omap]. rewrite app_nil_r. repeat split. intros _.
    by exists bad.
Qed.

Lemma BuildAndPush_rejects_tag_witness :
  commands (BuildAndPush example.env "api" (Some example.publish_bad_tag) "/ws"
              (example.start example.fs_docker)).2 =
    commands (example.start example.fs_docker) ∧
  fs (BuildAndPush example.env "api" (Some example.publish_bad_tag) "/ws"
        (example.start example.fs_docker)).2 = fs (example.start example.fs_docker) ∧
  (missing (cwd example.env) (fs (example.start example.fs_docker))
     (filepath.Join [filepath.to_string (filepath.Join ["/ws"; "api"]);
                     if Str.eqb (config.Dockerfile example.publish_bad_tag) ""
                     then "Dockerfile" else config.Dockerfile example.publish_bad_tag]) =
     false →
   ∃ bad, bad ∈ config.Tags example.publish_bad_tag ∧ validateDockerTag bad ≠ None ∧
     (BuildAndPush example.env "api" (Some example.publish_bad_tag) "/ws"
        (example.start example.fs_docker)).1 =
       Err ("security check failed: invalid Docker tag: " +:+ bad)).
Proof.
  apply (BuildAndPush_rejects_tag example.env "api" "/ws" example.publish_bad_tag "-rc"
           (example.start example.fs_docker)).
  - reflexivity.
  - reflexivity.
  - apply list_elem_of_In. cbn. tauto.
  - by vm_compute.
Defined.

End publish_facts.

(** ** The scheduler *)
Module schedule_facts.
Import os sys main trace_facts publish_facts.

Ltac appends_task :=
  repeat first
    [ appends_step
    | lazymatch goal with
      | |- appends _ (λ w, (Ok _, w)) => apply appends_pure
      | |- appends _ (let '(_, _) := ?x in _) => destruct x
      end ].













(** X12. A task that hits the cache starts no process at all: no build,
    and no image build or push either. *)
Theorem cache_hit_starts_nothing (env : Env) (flags : Flags) (cfg : config.Root)
    (root : string) (task : planner.Task) (w : World) :
  cache_hit env flags (cache.Key (cwd env) task root (fs w)).1 w = true →
  commands (runTask env flags cfg root task w).2 = commands w.
Proof.
  intros Hhit. rewrite main_facts.runTask_unfold. cbv zeta. rewrite Hhit.
  assert (Hr : appends silent
            (restore_branch env (cache.Key (cwd env) task root (fs w)).1
               (filepath.Join ["out"; planner.Path task; planner.Version task]))).
  { unfold restore_branch. appends_task; by intros []. }
  pose proof (appends_commands _ Hr w) as H1.
  destruct (restore_branch _ _ _ _) as [[[]|e] w1]; cbn [snd] in *; [|done].
  rewrite <- H1. apply appends_commands.
  unfold finish, artifact.WriteManifest. appends_task; by intros [].
Qed.

Lemma cache_hit_starts_nothing_witness :
  commands (runTask example.env example.flags example.cfg "/ws" example.task
              (example.start example.fs_blocked)).2 =
    commands (example.start example.fs_blocked).
Proof.
  apply (cache_hit_starts_nothing example.env example.flags example.cfg "/ws" example.task
           (example.start example.fs_blocked)).
  vm_compute. reflexivity.
Defined.

Lemma RunTask_runs (env : Env) (task : planner.Task) (root pm : string)
    (scripts : list string) :
  appends (runs_only "docker" ["run"]) (runner.RunTask env task root pm scripts).
Proof.
  unfold runner.RunTask. appends_task; try done.
  apply runs_docker. by left.
Qed.

Lemma silent_runs (name : string) (subs : list string) {A} (m : M World A) :
  appends silent m → appends (runs_only name subs) m.
Proof. apply appends_mono. intros [c| |] H; [by destruct H|done|done]. Qed.

Lemma runTask_no_docker (env : Env) (flags : Flags) (cfg : config.Root) (root : string)
    (task : planner.Task) :
  flagNoDocker flags = true →
  appends (runs_only "docker" ["run"]) (runTask env flags cfg root task).
Proof.
  intros Hf. unfold runTask.
  apply appends_bind; [apply appends_now|]. intros start.
  apply appends_bind; [apply appends_look|]. intros kerr.
  destruct (kerr.2); [appends_task; done|].
  apply appends_bind; [apply appends_pure|]. intros hit. destruct hit.
  - apply silent_runs. unfold restore_branch, finish, artifact.WriteManifest.
    appends_task; by intros [].
  - apply appends_bind.
    + unfold build_branch. cbv zeta.
      apply appends_bind; [by apply appends_log|]. intros _.
      apply appends_bind; [apply appends_try, RunTask_runs|]. intros r.
      destruct r; [|appends_task; done].
      apply appends_bind.
      * unfold publish_step. rewrite Hf. cbn [negb andb]. apply appends_ret.
      * intros _. unfold store_step. appends_task; done.
    + intros _. apply silent_runs. unfold finish, artifact.WriteManifest.
      appends_task; by intros [].
Qed.

Lemma run_tasks_no_docker (env : Env) (flags : Flags) (cfg : config.Root) (root : string)
    (tasks : list planner.Task) :
  flagNoDocker flags = true →
  appends (runs_only "docker" ["run"]) (run_tasks env flags cfg root tasks).
Proof.
  intros Hf. induction tasks as [|task rest IH]; cbn [run_tasks]; [apply appends_ret|].
  apply appends_bind; [by apply appends_try, runTask_no_docker|]. intros r.
  apply appends_bind; [done|]. intros errs. apply appends_ret.
Qed.

(** X13. With [--no-docker] every process that [build] starts is a
    [docker run]: no [docker version], no login, no image build, tag or
    push, whatever the configuration says. *)
Theorem no_docker_only_builds (env : Env) (flags : Flags) :
  flagNoDocker flags = true →
  appends (runs_only "docker" ["run"]) (runBuild env flags).
Proof.
  intros Hf. unfold runBuild, runPlan, load_config, printPlan, preflight. rewrite Hf.
  destruct (flagDryRun flags).
  - appends_task; done.
  - apply appends_bind; [appends_task|]. intros cfg.
    apply appends_bind; [by apply appends_log|]. intros _.
    apply appends_bind; [apply appends_ret|]. intros _.
    apply appends_bind; [by apply run_tasks_no_docker|]. intros errs.
    destruct errs; appends_task; done.
Qed.

Lemma no_docker_only_builds_witness :
  appends (runs_only "docker" ["run"]) (runBuild example.env example.flags_no_docker).
Proof. apply (no_docker_only_builds example.env example.flags_no_docker). reflexivity. Defined.




Lemma preflight_failure (env : Env) (flags : Flags) (cfg : config.Root)
    (plan : planner.Plan) (w : World) :
  flagNoDocker flags = false → docker_entries cfg plan ≠ [] →
  succeeded (run env (trace w) (docker.docker_cmd ["version"] None) (fs w)) = false →
  preflight env flags cfg plan w =
    (Err ("Docker is required but not available: " +:+
          "Docker is not available or not running: exit status 1"),
     {| fs := fs_after (run env (trace w) (docker.docker_cmd ["version"] None) (fs w));
        trace := trace w ++ [Exec (docker.docker_cmd ["version"] None)] |}).
Proof.
  intros Hn He Hs. unfold preflight. rewrite Hn.
  destruct (docker_entries cfg plan) as [|me l]; [done|].
  unfold docker.CheckDockerAvailable, exec, exec_output.
  unfold mbind, M_bind, bind, wrap. cbv beta. by rewrite Hs.
Qed.

(** X9. When some planned task asks for an image and [docker version]
    fails, [build] ends with exit status 3; [docker version] is the one
    process it started, and no task was begun. *)
Theorem docker_unavailable_exit_code (env : Env) (flags : Flags) (w : World)
    (cfg : config.Root) :
  flagDryRun flags = false → flagNoDocker flags = false →
  (config.Load (cwd env) (yaml_unmarshal env) (flagConfig flags) (fs w)).1 = Ok cfg →
  docker_entries cfg (planner.Expand cfg (parseOnly flags)) ≠ [] →
  succeeded (run env (trace w ++ [Log "INFO" "starting builds"])
               (docker.docker_cmd ["version"] None) (fs w)) = false →
  (main_build env flags w).1 = ExitInternalError ∧
  commands (main_build env flags w).2 = commands w ++ [docker.docker_cmd ["version"] None] ∧
  attempts (main_build env flags w).2 = attempts w.
Proof.
  intros Hd Hn Hl He Hs. unfold main_build, runBuild. rewrite Hd.
  unfold mbind, M_bind, bind.
  rewrite (cli_facts.load_config_success _ _ _ _ Hl). cbn [log emit].
  rewrite (preflight_failure env flags cfg _
             {| fs := fs w; trace := trace w ++ [Log "INFO" "starting builds"] |} Hn He Hs).
  cbn [fst snd]. split; [by vm_compute|]. unfold commands, attempts. cbn [trace].
  rewrite !omap_app, !filter_app. cbn [omap]. rewrite !app_nil_r. by split.
Qed.

Lemma docker_unavailable_exit_code_witness :
  (main_build example.env_no_docker example.flags (example.start example.fs0)).1 =
    ExitInternalError ∧
  commands (main_build example.env_no_docker example.flags (example.start example.fs0)).2 =
    commands (example.start example.fs0) ++ [docker.docker_cmd ["version"] None] ∧
  attempts (main_build example.env_no_docker example.flags (example.start example.fs0)).2 =
    attempts (example.start example.fs0).
Proof.
  apply (docker_unavailable_exit_code example.env_no_docker example.flags
           (example.start example.fs0) example.cfg_docker).
  - reflexivity.
  - reflexivity.
  - vm_compute. reflexivity.
  - by vm_compute.
  - reflexivity.
Defined.

End schedule_facts.

(** ** The command sequence of a successful publish *)
Module sequence_facts.
Import os sys docker.

Lemma commands_snoc_log (w : World) (level msg : string) :
  commands {| fs := fs w; trace := trace w ++ [Log level msg] |} = commands w.
Proof. unfold commands. cbn [trace]. rewrite omap_app. cbn. by rewrite app_nil_r. Qed.

Lemma exec_commands (env : Env) (c : Cmd) (w : World) :
  commands (exec env c w).2 = commands w ++ [c].
Proof.
  unfold exec, exec_output, mbind, M_bind, bind, commands.
  destruct (succeeded _); cbn [snd trace mret M_ret ret]; by rewrite omap_app.
Qed.

Lemma wrap_exec_commands (env : Env) (pre : string) (c : Cmd) (w : World) :
  commands (wrap pre (exec env c) w).2 = commands w ++ [c].
Proof.
  unfold wrap. pose proof (exec_commands env c w) as H.
  by destruct (exec env c w) as [[[]|e] w1].
Qed.

Lemma for_each_commands {A} (f : A → M World unit) (g : A → list Cmd) (l : list A)
    (w : World) :
  (∀ x w, (f x w).1 = Ok tt → commands (f x w).2 = commands w ++ g x) →
  (for_each f l w).1 = Ok tt →
  commands (for_each f l w).2 = commands w ++ flat_map g l.
Proof.
  intros Hf. revert w. induction l as [|x l IH]; intros w.
  - intros _. cbn. by rewrite app_nil_r.
  - cbn [for_each flat_map]. unfold mbind, M_bind, bind.
    specialize (Hf x w). destruct (f x w) as [[[]|e] w1]; [|done].
    cbn [fst snd] in Hf. intros H. rewrite (IH _ H), (Hf eq_refl). by rewrite app_assoc.
Qed.

Lemma build_or_tag_commands (env : Env) (repository projectPath : string)
    (workDir : filepath.t) (first : string) (it : nat * string) (w : World) :
  commands (build_or_tag env repository projectPath workDir first it w).2 =
    commands w ++ item_cmd repository workDir first it.
Proof.
  unfold build_or_tag, item_cmd. destruct (Nat.eqb it.1 0).
  - unfold mbind, M_bind, bind.
    pose proof (wrap_exec_commands env ("docker build failed for " +:+ projectPath +:+ ": ")
      (docker_cmd ["build"; "-t"; repository +:+ ":" +:+ it.2; "."] (Some workDir)) w) as H.
    destruct (wrap _ _ w) as [[[]|e] w1]; cbn [snd] in *; [|done].
    cbn [log emit snd]. by rewrite commands_snoc_log.
  - apply wrap_exec_commands.
Qed.

Lemma flat_map_items (repository : string) (workDir : filepath.t) (first : string)
    (k : nat) (rest : list string) :
  flat_map (item_cmd repository workDir first) (imap (λ i, pair (S k + i)) rest) =
  map (λ tag, docker_cmd ["tag"; repository +:+ ":" +:+ first;
                          repository +:+ ":" +:+ tag] None) rest.
Proof.
  revert k. induction rest as [|t rest IH]; intros k; [done|].
  cbn [imap flat_map map]. rewrite <- (IH (S k)). cbn [app]. f_equal.
  apply (f_equal (flat_map _)). apply imap_ext. intros i x _. cbn. f_equal. lia.
Qed.

Lemma build_items (repository : string) (workDir : filepath.t) (tags : list string) :
  flat_map (item_cmd repository workDir (hd "" tags)) (imap pair tags) =
  build_cmds repository workDir tags.
Proof.
  destruct tags as [|first rest]; [done|].
  cbn [imap flat_map hd build_cmds]. cbn [item_cmd fst snd Nat.eqb app]. f_equal.
  apply (flat_map_items repository workDir first 0 rest).
Qed.

Lemma push_tag_commands (env : Env) (repository registry tag : string) (w : World) :
  (push_tag env repository registry tag w).1 = Ok tt →
  commands (push_tag env repository registry tag w).2 =
    commands w ++ push_item repository registry tag.
Proof.
  unfold push_tag, push_item. cbv zeta. unfold mbind, M_bind, bind.
  destruct (Str.eqb registry "docker.io"); cbn [negb].
  - cbn [mret M_ret ret].
    pose proof (wrap_exec_commands env
      ("failed to push " +:+ (repository +:+ ":" +:+ tag) +:+ " to " +:+ registry +:+ ": ")
      (docker_cmd ["push"; repository +:+ ":" +:+ tag] None) w) as H.
    destruct (wrap _ _ w) as [[[]|e] w1]; cbn [snd fst] in *; [|done].
    intros _. cbn [log emit snd]. by rewrite commands_snoc_log.
  - pose proof (wrap_exec_commands env
      ("failed to tag image for registry " +:+ registry +:+ ": ")
      (docker_cmd ["tag"; repository +:+ ":" +:+ tag;
                   registry +:+ "/" +:+ repository +:+ ":" +:+ tag] None) w) as H1.
    destruct (wrap _ _ w) as [[[]|e] w1]; cbn [snd fst] in *; [|done].
    pose proof (wrap_exec_commands env
      ("failed to push " +:+ (registry +:+ "/" +:+ repository +:+ ":" +:+ tag) +:+
       " to " +:+ registry +:+ ": ")
      (docker_cmd ["push"; registry +:+ "/" +:+ repository +:+ ":" +:+ tag] None) w1) as H2.
    destruct (wrap _ _ w1) as [[[]|e] w2]; cbn [snd fst] in *; [|done].
    intros _. cbn [log emit snd]. rewrite commands_snoc_log, H2, H1.
    by rewrite <- app_assoc.
Qed.

Lemma pushToRegistries_commands (env : Env) (dc : config.DockerConfig) (projectPath : string)
    (w : World) :
  (pushToRegistries env dc projectPath w).1 = Ok tt →
  commands (pushToRegistries env dc projectPath w).2 =
    commands w ++
    push_cmds (config.Repository dc)
      (match config.Registries dc with [] => ["docker.io"] | rs => rs end)
      (default_tags (config.Tags dc)).
Proof.
  unfold pushToRegistries, push_cmds. cbv zeta. apply for_each_commands.
  intros registry w1. unfold mbind, M_bind, bind. cbn [log emit].
  intros H. rewrite (for_each_commands _ (push_item (config.Repository dc) registry)).
  - by rewrite commands_snoc_log.
  - intros tag w2. apply push_tag_commands.
  - done.
Qed.

(** X18. A [BuildAndPush] that succeeds with its Dockerfile in place has
    started exactly these processes, in this order: one [docker build]
    under the first tag, in the project directory; one [docker tag] for
    each further tag; and, when pushing is on, for every registry and every
    tag a [docker push], after a [docker tag] with the registry in front
    unless the registry is Docker Hub. *)
Theorem BuildAndPush_sequence (env : Env) (projectPath workspaceRoot : string)
    (dc : config.DockerConfig) (w : World) :
  let workDir := filepath.Join [workspaceRoot; projectPath] in
  let dockerfilePath :=
    filepath.Join [filepath.to_string workDir;
                   if Str.eqb (config.Dockerfile dc) "" then "Dockerfile"
                   else config.Dockerfile dc] in
  let tags := default_tags (config.Tags dc) in
  let registries := match config.Registries dc with [] => ["docker.io"] | rs => rs end in
  config.Enabled dc = true →
  missing (cwd env) (fs w) dockerfilePath = false →
  (BuildAndPush env projectPath (Some dc) workspaceRoot w).1 = Ok tt →
  commands (BuildAndPush env projectPath (Some dc) workspaceRoot w).2 =
    commands w ++ build_cmds (config.Repository dc) workDir tags ++
    (if config.Push dc then push_cmds (config.Repository dc) registries tags else []).
Proof.
  intros workDir dockerfilePath tags registries Hen Hm H.
  apply entry_facts.run_pair in H. revert H.
  generalize (BuildAndPush env projectPath (Some dc) workspaceRoot w).2. intros w' H.
  unfold BuildAndPush in H. rewrite Hen in H. cbn [negb] in H.
  destruct (validateRepositoryName _); [done|].
  unfold mbind at 1 in H. unfold M_bind, bind at 1 in H. unfold look at 1 in H.
  cbv zeta in H.
  replace (if Str.eqb (config.Dockerfile dc) ""
           then filepath.Join [filepath.to_string (filepath.Join [workspaceRoot; projectPath]);
                               "Dockerfile"]
           else filepath.Join [filepath.to_string (filepath.Join [workspaceRoot; projectPath]);
                               config.Dockerfile dc])
    with dockerfilePath in H by (unfold dockerfilePath, workDir; by destruct (Str.eqb _ _)).
  rewrite Hm in H.
  unfold mbind at 1 in H. unfold M_bind, bind at 1 in H. cbn [log emit] in H. fold tags in H.
  destruct (validate_tags tags); [done|].
  unfold mbind at 1 in H. unfold M_bind, bind at 1 in H.
  set (w1 := {| fs := fs w; trace := trace w ++ [Log "INFO" "starting Docker image build"] |})
    in H.
  pose proof (for_each_commands
    (build_or_tag env (config.Repository dc) projectPath
       (filepath.Join [workspaceRoot; projectPath]) (hd "" tags))
    (item_cmd (config.Repository dc) workDir (hd "" tags)) (imap pair tags) w1
    (λ x w _, build_or_tag_commands env _ _ _ _ x w)) as Hb.
  rewrite build_items in Hb.
  destruct (for_each _ (imap pair tags) w1) as [[[]|e] w2]; [|done].
  cbn [fst snd] in Hb. specialize (Hb eq_refl).
  assert (Hw1 : commands w1 = commands w) by apply commands_snoc_log.
  rewrite Hw1 in Hb. destruct (config.Push dc).
  - unfold wrap in H. pose proof (pushToRegistries_commands env dc projectPath w2) as Hp.
    destruct (pushToRegistries env dc projectPath w2) as [[[]|e] w3]; [|done].
    cbn [fst snd] in *. inversion H; subst w'. rewrite (Hp eq_refl), Hb.
    by rewrite <- app_assoc.
  - cbn [mret M_ret ret] in H. inversion H; subst w'. by rewrite Hb, app_nil_r.
Qed.

Lemma BuildAndPush_sequence_witness :
  commands (BuildAndPush example.env "api" (Some example.publish) "/ws"
              (example.start example.fs_docker)).2 =
    commands (example.start example.fs_docker) ++
    build_cmds (config.Repository example.publish) (filepath.Join ["/ws"; "api"])
      (default_tags (config.Tags example.publish)) ++
    (if config.Push example.publish
     then push_cmds (config.Repository example.publish)
            (match config.Registries example.publish with
             | [] => ["docker.io"]
             | rs => rs
             end)
            (default_tags (config.Tags example.publish))
     else []).
Proof.
  apply (BuildAndPush_sequence example.env "api" "/ws" example.publish
           (example.start example.fs_docker)).
  - reflexivity.
  - vm_compute. reflexivity.
  - vm_compute. reflexivity.
Defined.

End sequence_facts.

(** ** Registry logins *)
Module login_facts.
Import os sys docker.

(** X19. With no credentials in the environment, and a registry that is
    not one of Amazon's, [LoginToRegistry] starts no process: it logs one
    warning and returns no error. *)
Theorem LoginToRegistry_without_credentials (env : Env) (registry : string) (w : World) :
  (∀ v, getenv env v = "") →
  Str.Contains registry "amazonaws.com" = false →
  LoginToRegistry env registry w =
    (Ok tt,
     {| fs := fs w;
        trace := trace w ++ [Log "WARN" "no credentials found for registry, skipping login"] |}).
Proof.
  intros Henv Haws. unfold LoginToRegistry. cbv zeta. rewrite !Henv, Haws.
  change (Str.eqb "" "") with true. cbn [orb].
  by destruct (_ || _), (Str.Contains registry "ghcr.io").
Qed.

Lemma LoginToRegistry_without_credentials_witness :
  LoginToRegistry example.env "ghcr.io" (example.start example.fs0) =
    (Ok tt,
     {| fs := fs (example.start example.fs0);
        trace := trace (example.start example.fs0) ++
                 [Log "WARN" "no credentials found for registry, skipping login"] |}).
Proof.
  apply (LoginToRegistry_without_credentials example.env "ghcr.io"
           (example.start example.fs0)).
  - intros v. reflexivity.
  - reflexivity.
Defined.

Lemma split_ecr (acct region : string) :
  Str.has_char "." acct = false → Str.has_char "." region = false →
  Str.split_on "." (acct +:+ ".dkr.ecr." +:+ region +:+ ".amazonaws.com") =
    [acct; "dkr"; "ecr"; region; "amazonaws"; "com"].
Proof.
  intros Ha Hr.
  change (acct +:+ ".dkr.ecr." +:+ region +:+ ".amazonaws.com")
    with (acct +:+ String "." ("dkr" +:+ String "." ("ecr" +:+ String "."
            (region +:+ String "." ("amazonaws" +:+ String "." "com"))))).
  rewrite (split_facts.split_on_app "." acct) by done.
  rewrite (split_facts.split_on_app "." "dkr") by done.
  rewrite (split_facts.split_on_app "." "ecr") by done.
  rewrite (split_facts.split_on_app "." region) by done.
  rewrite (split_facts.split_on_app "." "amazonaws") by done.
  done.
Qed.

Lemma loginToECR_run (env : Env) (registry region : string) (w : World) :
  (length (Str.split_on "." registry) <? 4)%nat = false →
  nth 3 (Str.split_on "." registry) "" = region →
  loginToECR env registry w =
    let r := run env (trace w) (aws_token region) (fs w) in
    let w1 := {| fs := fs_after r; trace := trace w ++ [Exec (aws_token region)] |} in
    if succeeded r then
      let login := ecr_login registry (stdout r) in
      let r2 := run env (trace w1) login (fs w1) in
      let w2 := {| fs := fs_after r2; trace := trace w1 ++ [Exec login] |} in
      if succeeded r2
      then (Ok tt, {| fs := fs w2;
                      trace := trace w2 ++ [Log "INFO" "successfully logged into ECR"] |})
      else (Err "failed to login to ECR: exit status 1", w2)
    else (Err "failed to get ECR login token: exit status 1", w1).
Proof.
  intros Hlen Hreg. unfold loginToECR. cbv zeta. rewrite Hlen, Hreg.
  unfold mbind, M_bind, bind, wrap, exec, exec_output, aws_token, ecr_login.
  unfold mbind, M_bind, bind. cbn [fs trace].
  destruct (succeeded (run env (trace w) _ (fs w))); [|done].
  by destruct (succeeded (run env _ _ _)).
Qed.

(** X20. For a registry name of the form
    [account.dkr.ecr.region.amazonaws.com], [loginToECR] asks the AWS
    command line for a token of that region and, when it gets one, logs in
    as [AWS] with the token on standard input, never on the command line;
    these are the only processes it starts. *)
Theorem loginToECR_region (env : Env) (acct region : string) (w : World) :
  Str.has_char "." acct = false → Str.has_char "." region = false →
  let registry := acct +:+ ".dkr.ecr." +:+ region +:+ ".amazonaws.com" in
  let r := run env (trace w) (aws_token region) (fs w) in
  commands (loginToECR env registry w).2 =
    commands w ++ aws_token region ::
      (if succeeded r then [ecr_login registry (stdout r)] else []).
Proof.
  intros Ha Hr registry r.
  rewrite (loginToECR_run env registry region w).
  - cbv zeta. fold r. unfold commands.
    destruct (succeeded r); [|by cbn [snd trace]; rewrite omap_app].
    destruct (succeeded (run env _ _ _)); cbn [snd trace fs];
      rewrite !omap_app; cbn [omap]; by rewrite ?app_nil_r, <- ?app_assoc.
  - unfold registry. by rewrite (split_ecr _ _ Ha Hr).
  - unfold registry. by rewrite (split_ecr _ _ Ha Hr).
Qed.

Lemma loginToECR_region_witness :
  commands (loginToECR example.env
              ("123456789012" +:+ ".dkr.ecr." +:+ "eu-west-1" +:+ ".amazonaws.com")
              (example.start example.fs0)).2 =
    commands (example.start example.fs0) ++ aws_token "eu-west-1" ::
      (if succeeded (run example.env (trace (example.start example.fs0))
                       (aws_token "eu-west-1") (fs (example.start example.fs0)))
       then [ecr_login
               ("123456789012" +:+ ".dkr.ecr." +:+ "eu-west-1" +:+ ".amazonaws.com")
               (stdout (run example.env (trace (example.start example.fs0))
                          (aws_token "eu-west-1") (fs (example.start example.fs0))))]
       else []).
Proof.
  apply (loginToECR_region example.env "123456789012" "eu-west-1"
           (example.start example.fs0)); reflexivity.
Defined.

End login_facts.

(** ** The [inspect] command *)
Module inspect_facts.
Import os sys main.

Lemma Join_head (a : string) (rest : list string) :
  a ≠ "" →
  filepath.Join (a :: rest) = filepath.Clean (Str.Join (a :: filter (λ e, e ≠ "") rest) "/").
Proof.
  intros Ha. unfold filepath.Join. rewrite filter_cons. by destruct (decide (a ≠ "")).
Qed.

Lemma HasPrefix_Join (c : ascii) (a : string) (xs : list string) :
  c ≠ "/"%char → Str.HasPrefix (Str.Join (String c a :: xs) "/") "/" = false.
Proof.
  intros Hc. unfold Str.HasPrefix, Str.Join.
  destruct xs; cbn [String.concat]; rewrite ?split_facts.append_cons,
    validate_facts.prefix_cons; by destruct (ascii_dec "/" c).
Qed.

(** A path joined onto a relative first element stays relative, and is
    clean. *)
Lemma Join_relative (c : ascii) (a : string) (rest : list string) :
  c ≠ "/"%char →
  ∃ rel, filepath.Join (String c a :: rest) = filepath.Rel rel ∧
         filepath.clean_comps false rel.
Proof.
  intros Hc. rewrite Join_head by done.
  pose proof (clean_facts.Clean_is_clean
                (Str.Join (String c a :: filter (λ e, e ≠ "") rest) "/")) as Hk.
  rewrite clean_facts.Clean_rooted in Hk |- *. rewrite (HasPrefix_Join _ _ _ Hc) in Hk |- *.
  by eexists.
Qed.

Lemma validatePath_clean (rel : list string) :
  filepath.clean_comps false rel →
  validatePath (filepath.to_string (filepath.Rel rel)) = None → ".." ∉ rel.
Proof.
  intros Hc. unfold validatePath.
  rewrite (clean_facts.Clean_to_string (filepath.Rel rel)) by done.
  rewrite validate_facts.Contains_dots_to_string. cbn [filepath.comps_of].
  destruct (existsb _ rel) eqn:E; [done|]. intros _. by apply config_facts.existsb_dots.
Qed.

Lemma read_and_print (env : Env) (flags : Flags)
    (json_unmarshal : string → result artifact.Manifest) (key : string)
    (rel : list string) (w : World) :
  ".." ∉ rel →
  let m :=
    data ← wrap "failed to read manifest: "
              (on_fs (ReadFile (cwd env) (filepath.Rel rel)));
    (if flagJSON flags then emit (Print data)
     else
       match json_unmarshal data with
       | Err e => fail ("failed to parse manifest: " +:+ e)
       | Ok manifest =>
           for_each (λ l, emit (Print (l +:+ artifact.newline)))
                    (inspect_lines key manifest)
       end);;
    log "INFO" "inspect completed" in
  (m w).1 = Ok tt →
  ∃ data, fs w !! (cwd env ++ rel) = Some (File data) ∧
          m w = (Ok tt,
                 {| fs := fs w;
                    trace := trace w ++
                             map Print (inspect_output flags json_unmarshal key data) ++
                             [Log "INFO" "inspect completed"] |}).
Proof.
  intros Hrel m. unfold m, inspect_output.
  unfold mbind, M_bind, bind, wrap, on_fs, ReadFile, at_path. cbn [filepath.resolve].
  rewrite (filepath_facts.foldl_resolve_step_plain _ _ Hrel). cbn [mbind option_bind].
  destruct (fs w !! (cwd env ++ rel)) as [[data|]|]; [|done|done].
  intros H. exists data. split; [done|]. revert H. rewrite cli_facts.world_eta.
  destruct (flagJSON flags).
  - intros _. unfold log, emit. cbn [fs trace map]. by rewrite <- app_assoc.
  - destruct (json_unmarshal data) as [manifest|e]; [|done]. intros _.
    rewrite (cli_facts.for_each_emit (λ l, Print (l +:+ artifact.newline))).
    unfold log, emit. cbn [fs trace]. by rewrite <- app_assoc, map_map.
Qed.

(** X28. An [inspect] that succeeds, whatever the key, read one regular
    file at or below the working directory, without a [".."] step, wrote
    nothing, started no process, and printed that file: its bytes with
    [--json], the nine lines of its fields otherwise. *)
Theorem runInspect_reads_below_cwd (env : Env) (flags : Flags)
    (json_unmarshal : string → result artifact.Manifest) (key : string) (w : World) :
  (runInspect env flags json_unmarshal key w).1 = Ok tt →
  ∃ rel data,
    (".." ∉ rel) ∧ fs w !! (cwd env ++ rel) = Some (File data) ∧
    (runInspect env flags json_unmarshal key w).2 =
      {| fs := fs w;
         trace := trace w ++ map Print (inspect_output flags json_unmarshal key data) ++
                  [Log "INFO" "inspect completed"] |}.
Proof.
  intros H0. apply entry_facts.run_pair in H0. revert H0.
  generalize (runInspect env flags json_unmarshal key w).2. intros w' H.
  unfold runInspect in H. cbv zeta in H.
  destruct (Join_relative "." "buildcache" [key; "manifest.json"]) as (rc & Hc & Hcc);
    [done|].
  destruct (Join_relative "o" "ut" [key; "manifest.json"]) as (ro & Ho & Hoc); [done|].
  change (String "." "buildcache") with ".buildcache" in Hc.
  change (String "o" "ut") with "out" in Ho. rewrite Hc, Ho in H.
  unfold mbind at 1 in H. unfold M_bind, bind at 1 in H. unfold look at 1 in H.
  unfold mbind at 1 in H. unfold M_bind, bind at 1 in H. unfold look at 1 in H.
  destruct (_ && _); [done|].
  set (rel := if missing (cwd env) (fs w) (filepath.Rel rc) then ro else rc).
  assert (Hp : (if missing (cwd env) (fs w) (filepath.Rel rc)
                then filepath.Rel ro else filepath.Rel rc) = filepath.Rel rel)
    by (unfold rel; by destruct (missing _ _ _)).
  rewrite Hp in H.
  assert (Hk : filepath.clean_comps false rel) by (unfold rel; by destruct (missing _ _ _)).
  destruct (validatePath _) eqn:Hv; [done|].
  pose proof (validatePath_clean rel Hk Hv) as Hrel.
  destruct (read_and_print env flags json_unmarshal key rel w Hrel) as (data & Hd & E).
  { exact (f_equal fst H). }
  exists rel, data. split; [done|]. split; [done|]. cbv zeta in E.
  exact (f_equal snd (eq_trans (eq_sym H) E)).
Qed.

Lemma runInspect_reads_below_cwd_witness :
  ∃ rel data,
    (".." ∉ rel) ∧
    fs (example.start example.fs_stale) !! (cwd example.env ++ rel) = Some (File data) ∧
    (runInspect example.env example.flags_json example.json_unmarshal example.key
       (example.start example.fs_stale)).2 =
      {| fs := fs (example.start example.fs_stale);
         trace := trace (example.start example.fs_stale) ++
                  map Print (inspect_output example.flags_json example.json_unmarshal
                               example.key data) ++
                  [Log "INFO" "inspect completed"] |}.
Proof.
  apply (runInspect_reads_below_cwd example.env example.flags_json example.json_unmarshal
           example.key (example.start example.fs_stale)).
  vm_compute. reflexivity.
Defined.

Lemma hex_no_dots (s : string) :
  Str.all_chars Str.is_lower_hex s = true → Str.Contains s ".." = false.
Proof.
  unfold Str.all_chars. induction s as [|c s IH]; [done|].
  cbn [list_ascii_of_string forallb]. intros [Hc Hs]%andb_prop.
  rewrite validate_facts.Contains_cons, validate_facts.prefix_cons.
  destruct (ascii_dec "." c) as [<-|_]; [done|]. by apply IH.
Qed.

Lemma Key_nodots (cwd : list string) (task : planner.Task) (root : string) (fs : FS) :
  cache.nodots (cache.Key cwd task root fs).1.
Proof.
  unfold cache.nodots. apply hex_no_dots. unfold cache.Key. cbn [fst].
  apply StrMore.all_chars_substring_0. unfold cache.digest.
  apply sha256_facts.hex_lower, sha256_facts.Sum_byte.
Qed.

(** X29. After a [Store] under a task's key has succeeded from a
    directory that holds a manifest, [inspect --json] of that key prints
    exactly the bytes of that manifest. *)
Theorem inspect_after_Store (env : Env) (flags : Flags)
    (json_unmarshal : string → result artifact.Manifest) (task : planner.Task)
    (root : string) (fs0 : FS) (sourceDir : filepath.t) (ka : list string)
    (w : World) (d : string) :
  let key := (cache.Key (cwd env) task root fs0).1 in
  let stored := {| fs := (cache.Store (cwd env) key sourceDir (fs w)).2; trace := trace w |} in
  flagJSON flags = true →
  wf (fs w) →
  filepath.resolve (cwd env) sourceDir = Some ka →
  apart ka (cwd env ++ [".buildcache"; key]) →
  fs w !! ka = Some Directory →
  fs w !! (ka ++ ["manifest.json"]) = Some (File d) →
  (cache.Store (cwd env) key sourceDir (fs w)).1 = Ok tt →
  runInspect env flags json_unmarshal key stored =
    (Ok tt,
     {| fs := fs stored;
        trace := trace w ++ [Print d; Log "INFO" "inspect completed"] |}).
Proof.
  intros key stored Hj Hwf Hka Hap Hdir Hman HS.
  assert (Hplain : filepath.plain key) by apply clean_cmd_facts.Key_plain.
  assert (Hnd : cache.nodots key) by apply Key_nodots. clearbody key.
  assert (Hkc : filepath.resolve (cwd env) (cache.cacheDir key) =
                Some (cwd env ++ [".buildcache"; key])).
  { rewrite (clean_cmd_facts.cacheDir_plain _ Hplain). cbn [filepath.resolve]. f_equal.
    apply filepath_facts.foldl_resolve_step_plain. destruct Hplain as (_ & _ & Hk & _).
    intros H. apply list_elem_of_In in H. cbn in H. intuition congruence. }
  apply entry_facts.run_pair in HS. rewrite store_facts.Store_is_mkdir_copy in HS.
  apply (store_facts.mkdir_copy_inv (cwd env) sourceDir (cache.cacheDir key) ka _ (fs w) _
           Hka Hkc Hap Hdir) in HS as [HS _].
  2: { intros rel e. by apply store_facts.wf_plain. }
  2: { intros r1 r2 e. by apply store_facts.wf_closed. }
  specialize (HS ["manifest.json"]). rewrite Hman in HS.
  rewrite <- store_facts.Store_is_mkdir_copy in HS. rewrite <- app_assoc in HS.
  cbn [app] in HS.
  assert (Hj3 : filepath.Join [".buildcache"; key; "manifest.json"] =
                filepath.Rel [".buildcache"; key; "manifest.json"]).
  { apply clean_facts.Join_plain; [done|].
    apply Forall_cons_2; [by repeat split|]. apply Forall_cons_2; [done|].
    apply Forall_cons_2; [by repeat split|]. apply Forall_nil_2. }
  assert (Hres : foldl filepath.resolve_step (cwd env) [".buildcache"; key; "manifest.json"] =
                 cwd env ++ [".buildcache"; key; "manifest.json"]).
  { apply filepath_facts.foldl_resolve_step_plain. destruct Hplain as (_ & _ & Hk & _).
    intros H. apply list_elem_of_In in H. cbn in H. intuition congruence. }
  unfold runInspect. cbv zeta. rewrite Hj3, Hj.
  unfold mbind at 1. unfold M_bind, bind at 1. unfold look at 1.
  unfold mbind at 1. unfold M_bind, bind at 1. unfold look at 1.
  assert (Hgone : missing (cwd env) (fs stored) (filepath.Rel [".buildcache"; key;
                                                              "manifest.json"]) = false).
  { unfold missing. cbn [filepath.resolve]. rewrite Hres. unfold stored. cbn [fs].
    rewrite HS. by rewrite bool_decide_eq_false_2. }
  rewrite Hgone. cbn [andb].
  assert (Hv : validatePath (filepath.to_string
                 (filepath.Rel [".buildcache"; key; "manifest.json"])) = None).
  { unfold validatePath. rewrite clean_facts.Clean_to_string.
    - rewrite validate_facts.Contains_dots_to_string. cbn [filepath.comps_of existsb].
      unfold cache.nodots in Hnd. by rewrite Hnd.
    - exists 0%nat, [".buildcache"; key; "manifest.json"]. split; [done|]. split; [|done].
      apply Forall_cons_2; [by repeat split|]. apply Forall_cons_2; [done|].
      apply Forall_cons_2; [by repeat split|]. apply Forall_nil_2. }
  rewrite Hv.
  unfold mbind, M_bind, bind, wrap, on_fs, ReadFile, at_path. cbn [filepath.resolve].
  rewrite Hres. cbn [mbind option_bind]. unfold stored at 1. cbn [fs]. rewrite HS.
  unfold log, emit. cbn [fs trace]. by rewrite <- app_assoc.
Qed.

Lemma inspect_after_Store_witness :
  runInspect example.env example.flags_json example.json_unmarshal
    (cache.Key (cwd example.env) example.task "/ws" example.fs0).1
    {| fs := (cache.Store (cwd example.env)
                (cache.Key (cwd example.env) example.task "/ws" example.fs0).1
                example.outDir (fs (example.start example.fs_built))).2;
       trace := trace (example.start example.fs_built) |} =
    (Ok tt,
     {| fs := fs {| fs := (cache.Store (cwd example.env)
                             (cache.Key (cwd example.env) example.task "/ws" example.fs0).1
                             example.outDir (fs (example.start example.fs_built))).2;
                    trace := trace (example.start example.fs_built) |};
        trace := trace (example.start example.fs_built) ++
                 [Print "{}"; Log "INFO" "inspect completed"] |}).
Proof.
  apply (inspect_after_Store example.env example.flags_json example.json_unmarshal
           example.task "/ws" example.fs0 example.outDir ["ws"; "out"; "api"; "6.0.415"]
           (example.start example.fs_built) "{}").
  - reflexivity.
  - compute_done.
  - reflexivity.
  - compute_done.
  - vm_compute. reflexivity.
  - vm_compute. reflexivity.
  - vm_compute. reflexivity.
Defined.

End inspect_facts.

(** ** Exit status *)
Module exit_facts.
Import os sys main.

Lemma fatal_nonzero (e : error) : fatal e ≠ ExitSuccess.
Proof. unfold fatal. by destruct (_ || _); [|destruct (_ || _)]. Qed.

Lemma exit_of_zero (m : M World unit) (w : World) :
  (exit_of m w).1 = ExitSuccess ↔ (m w).1 = Ok tt.
Proof.
  unfold exit_of. destruct (m w) as [[[]|e] w']; cbn [fst]; [done|].
  split; [|done]. intros H. by destruct (fatal_nonzero e).
Qed.

(** X8. The exit status of the program is 0 exactly when the version was
    asked for, by flag or by command, or the command is one of [plan],
    [build], [clean] and [inspect] with its key, and it returned no error.
    An unknown command, and [inspect] without a key, never end with 0. *)
Theorem exit_status_zero (env : Env) (flags : Flags)
    (json_unmarshal : string → result artifact.Manifest) (args : list string) (w : World) :
  let cmd := hd "build" args in
  (main.main env flags json_unmarshal args w).1 = ExitSuccess ↔
  flagVersion flags = true ∨
  (cmd = "plan" ∧ (runPlan env flags w).1 = Ok tt) ∨
  (cmd = "build" ∧ (runBuild env flags w).1 = Ok tt) ∨
  cmd = "clean" ∨ cmd = "version" ∨
  (cmd = "inspect" ∧
   ∃ key, nth_error args 1 = Some key ∧
          (runInspect env flags json_unmarshal key w).1 = Ok tt).
Proof.
  intros cmd. unfold main.main. fold cmd.
  destruct (flagVersion flags); [split; [by left|done]|].
  destruct (Str.eqb cmd "plan") eqn:E1.
  { apply planner_facts.eqb_true in E1. rewrite exit_of_zero, E1. split; [by auto|].
    intros [?|[[_ ?]|[[? _]|[?|[?|[? _]]]]]]; done. }
  apply planner_facts.eqb_false in E1.
  destruct (Str.eqb cmd "build") eqn:E2.
  { apply planner_facts.eqb_true in E2. rewrite exit_of_zero, E2. split; [by auto|].
    intros [?|[[? _]|[[_ ?]|[?|[?|[? _]]]]]]; done. }
  apply planner_facts.eqb_false in E2.
  destruct (Str.eqb cmd "clean") eqn:E3.
  { apply planner_facts.eqb_true in E3. rewrite exit_of_zero. split; [by auto|]. intros _.
    apply clean_cmd_facts.runClean_removes. }
  apply planner_facts.eqb_false in E3.
  destruct (Str.eqb cmd "version") eqn:E4.
  { apply planner_facts.eqb_true in E4. split; [by auto 6|done]. }
  apply planner_facts.eqb_false in E4.
  destruct (Str.eqb cmd "inspect") eqn:E5.
  { apply planner_facts.eqb_true in E5.
    destruct args as [|a [|key rest]].
    - done.
    - split; [intros H; by apply fatal_nonzero in H|].
      intros [?|[[? _]|[[? _]|[?|[?|[_ (key & Hk & _)]]]]]]; done.
    - rewrite exit_of_zero. split.
      + intros H. do 5 right. split; [done|]. by exists key.
      + intros [?|[[? _]|[[? _]|[?|[?|[_ (key' & Hk & H)]]]]]]; try done.
        cbn in Hk. by inversion Hk; subst. }
  apply planner_facts.eqb_false in E5.
  split; [intros H; by apply fatal_nonzero in H|].
  intros [?|[[? _]|[[? _]|[?|[?|[? _]]]]]]; done.
Qed.

End exit_facts.

(** ** The [--only] flag *)
Module only_facts.
Import Str.













Lemma trim_left_spaces (s : string) : all_chars is_space s = true → trim_left s = "".
Proof.
  unfold all_chars. induction s as [|c s IH]; [done|].
  cbn [list_ascii_of_string forallb trim_left]. intros [Hc Hs]%andb_prop.
  rewrite Hc. by apply IH.
Qed.

Lemma TrimSpace_spaces (s : string) : all_chars is_space s = true → TrimSpace s = "".
Proof. intros H. unfold TrimSpace. by rewrite (trim_left_spaces _ H). Qed.

Lemma split_on_chars (ok : ascii → bool) (sep : ascii) (s : string) :
  all_chars (λ c, ok c || Ascii.eqb c sep) s = true →
  Forall (λ p, all_chars ok p = true) (split_on sep s).
Proof.
  unfold all_chars. induction s as [|c s IH]; [by repeat constructor|].
  cbn [list_ascii_of_string forallb split_on]. intros [Hc Hs]%andb_prop.
  specialize (IH Hs). destruct (Ascii.eqb c sep) eqn:E; [by constructor|].
  rewrite orb_false_r in Hc.
  destruct (split_on sep s) as [|w ws]; [by repeat constructor; cbn; rewrite Hc|].
  inversion IH; subst. constructor; [|done]. cbn [list_ascii_of_string forallb].
  by rewrite Hc.
Qed.



(** X4. A selection that names nothing, made of commas and white space
    only, is the empty selection, and so selects every project. *)
Theorem blank_selection_selects_all (flags : main.Flags) (cfg : config.Root) :
  all_chars (λ c, is_space c || Ascii.eqb c ",") (main.flagOnly flags) = true →
  main.parseOnly flags = ∅ ∧
  planner.Expand cfg (main.parseOnly flags) = planner.Expand cfg ∅.
Proof.
  intros H.
  assert (E : main.parseOnly flags = ∅); [|by rewrite E].
  unfold main.parseOnly. destruct (eqb (main.flagOnly flags) ""); [done|].
  apply split_on_chars in H.
  induction H as [|piece l Hp _ IH]; [done|].
  cbn [map]. rewrite filter_cons, (TrimSpace_spaces _ Hp).
  by destruct (decide ("" ≠ "")).
Qed.

Lemma blank_selection_selects_all_witness :
  main.parseOnly example.flags_blank = ∅ ∧
  planner.Expand example.cfg_B (main.parseOnly example.flags_blank) =
    planner.Expand example.cfg_B ∅.
Proof. apply (blank_selection_selects_all example.flags_blank example.cfg_B). reflexivity. Defined.

End only_facts.

(** ** Project detection and the cache key *)
Module detect_facts.
Import os detect.




End detect_facts.

(** ** The end of a task *)
Module finish_facts.
Import os sys main.

Lemma WriteManifest_blocked (env : Env) (outDir : filepath.t) (m : artifact.Manifest)
    (k : list string) (w : World) :
  filepath.resolve (cwd env) outDir = Some k →
  ¬ clear_way (fs w) k →
  ∃ e, artifact.WriteManifest env outDir m w = (Err e, w).
Proof.
  intros Hk Hb. unfold artifact.WriteManifest, mbind, M_bind, bind, on_fs, MkdirAll.
  rewrite Hk.
  destruct (existsb _ _) eqn:E.
  - rewrite cli_facts.world_eta. by eexists.
  - destruct Hb. apply store_facts.clear_way_spec. by apply os_facts.no_file_above.
Qed.

(** X14. The end of a task never fails and always logs the same closing
    line, whether the manifest was written or not; when a regular file
    stands in the way of the output directory no manifest is written and the
    file system is left as it was. *)
Theorem manifest_error_is_dropped (env : Env) (start : Z) (task : planner.Task)
    (key : string) (outDir : filepath.t) (reused : bool) (w : World) :
  (finish env start task key outDir reused w).1 = Ok tt ∧
  trace (finish env start task key outDir reused w).2 =
    trace w ++ [Log "INFO" (if reused then "build reused" else "build complete")] ∧
  ∀ k, filepath.resolve (cwd env) outDir = Some k → ¬ clear_way (fs w) k →
       fs (finish env start task key outDir reused w).2 = fs w.
Proof.
  split; [apply main_facts.finish_ok|].
  assert (Ht : ∀ m, trace (artifact.WriteManifest env outDir m w).2 = trace w).
  { intros m. unfold artifact.WriteManifest, mbind, M_bind, bind, on_fs, now, wrap.
    destruct (MkdirAll _ _ _) as [[[]|e] fs1]; cbn [snd trace fs]; [|done].
    by destruct (WriteFile _ _ _ _) as [[[]|e] fs2]. }
  split.
  - unfold finish, mbind, M_bind, bind, now, try.
    specialize (Ht (manifest_of task key (clock env (trace w) - start) reused)).
    destruct (artifact.WriteManifest _ _ _ _) as [r w1]. cbn [snd] in Ht.
    destruct reused; cbn [log emit snd trace]; by rewrite Ht.
  - intros k Hk Hb. unfold finish, mbind, M_bind, bind, now, try.
    destruct (WriteManifest_blocked env outDir
                (manifest_of task key (clock env (trace w) - start) reused) k w Hk Hb)
      as (e & ->).
    by destruct reused.
Qed.

End finish_facts.

(** ** [Restore] into a directory that is not empty *)
Module restore_facts.
Import os cache.

(** X24. [Restore] merges the entry into the destination; it does not
    replace it: after a [Restore] that succeeds, the destination holds every
    path of the entry with the entry's content, and every path it held
    before and the entry lacks is still there. *)
Theorem Restore_merges_into_dest (cwd : list string) (key : string) (destDir : filepath.t)
    (fs : FS) (kc kb : list string) :
  wf fs →
  filepath.resolve cwd (cacheDir key) = Some kc →
  filepath.resolve cwd destDir = Some kb →
  apart kc kb →
  (Restore cwd key destDir fs).1 = Ok tt →
  ∀ rel, (Restore cwd key destDir fs).2 !! (kb ++ rel) =
         match fs !! (kc ++ rel) with
         | Some e => Some e
         | None => fs !! (kb ++ rel)
         end.
Proof.
  intros Hwf Hkc Hkb Hap HR. apply entry_facts.run_pair in HR.
  assert (HE : Exists cwd key fs = true).
  { destruct (Exists cwd key fs) eqn:E; [done|]. unfold Restore in HR. by rewrite E in HR. }
  assert (Hdir : fs !! kc = Some Directory).
  { rewrite (store_facts.Exists_spec _ _ _ _ Hkc) in HE. apply bool_decide_eq_true in HE.
    destruct HE as [e He]. by apply (store_facts.wf_parent fs kc "manifest.json" e). }
  rewrite (store_facts.Restore_is_mkdir_copy _ _ _ _ HE) in HR |- *.
  apply (store_facts.mkdir_copy_inv cwd (cacheDir key) destDir kc kb fs _ Hkc Hkb Hap Hdir)
    in HR as [HR _]; [done| |].
  - intros rel e. by apply store_facts.wf_plain.
  - intros r1 r2 e. by apply store_facts.wf_closed.
Qed.

Lemma Restore_merges_into_dest_witness :
  (Restore ["ws"] example.key example.outDir example.fs_stale).2
    !! (["ws"; "out"; "api"; "6.0.415"] ++ ["manifest.json"]) =
  match example.fs_stale !! (["ws"; ".buildcache"; example.key] ++ ["manifest.json"]) with
  | Some e => Some e
  | None => example.fs_stale !! (["ws"; "out"; "api"; "6.0.415"] ++ ["manifest.json"])
  end.
Proof.
  apply (Restore_merges_into_dest ["ws"] example.key example.outDir example.fs_stale
           ["ws"; ".buildcache"; example.key] ["ws"; "out"; "api"; "6.0.415"]).
  - compute_done.
  - reflexivity.
  - reflexivity.
  - compute_done.
  - vm_compute. reflexivity.
Defined.

End restore_facts.
